(** * node::worker messaging: Message, MessagePortData and MessagePort

    A shallow embedding of [src/node_messaging.cc].  Every C++ member
    function becomes a Rocq function of the same name that passes the
    state it touches explicitly:

    - the array buffers of a V8 isolate are a finite map from handles to
      [ArrayBuffer] records;
    - [MessagePortData] and [MessagePort] objects live in two stores of
      the [World], addressed by identifiers that stand for the C++
      pointers ([sibling_], [owner_], [data_]);
    - a [CHECK] that fails, a V8 API check that fails and a null
      dereference abort the process: the function returns [None];
    - calls into libuv ([uv_async_send], [uv_close]) and into user code
      ([MakeCallback]) are appended to the [trace] of the world, next to
      the queue operations of [incoming_messages_];
    - every member function runs as one step: the scoped locks on
      [mutex_] and [sibling_mutex_] make the steps of different threads
      follow one another, and the model is that sequence.  A mutex is
      kept only as the identity [sibling_mutex_] refers to.

    The V8 value serializer and the user's JavaScript are outside the
    file; they are the two interfaces [ValueCodec] and [UserCode]. *)

From Stdlib Require Import Init.Byte.
From stdpp Require Import gmap list fin_maps.

Set Warnings "-clear-no-such-hyp".

(** ** JavaScript values and array buffers *)

Definition AbId := nat.
Definition PortId := nat.
Definition DataId := nat.
Definition EnvId := nat.
Definition MutexId := nat.

(** The values [Serialize] distinguishes: arrays ([IsArray]), array
    buffers ([IsArrayBuffer]), anything else.  An element of an array is [None] when
    [transfer_list->Get(context, i)] throws (an accessor that throws). *)
#[warnings="-register-all"]
Inductive Value :=
| Undefined
| Other (tag : nat)
| ArrayBufferRef (ab : AbId)
| ArrayRef (elems : list (option Value)).

Definition IsArrayBuffer (v : Value) : bool :=
  match v with ArrayBufferRef _ => true | _ => false end.

Inductive Exception :=
| ERR_INVALID_TRANSFER_OBJECT
| ERR_CLOSED_MESSAGE_PORT
| ERR_MISSING_ARGS
| ERR_CONSTRUCT_CALL_REQUIRED
| DataCloneError
| JsException.

(** [v8::Maybe<T>]: [Nothing] comes with the exception that is pending in
    the isolate when the function returns. *)
Inductive Maybe (A : Type) :=
| Just (a : A)
| Nothing (pending : Exception).
Arguments Just {A} a.
Arguments Nothing {A} pending.

(** [v8::ArrayBuffer] as far as this file uses it. *)
Record ArrayBuffer := mkArrayBuffer {
  is_neuterable : bool;
  is_external : bool;
  was_neutered : bool;
  backing_store : list byte
}.

(* The array buffers of one isolate. *)
Abbreviation Isolate := (gmap AbId ArrayBuffer).

(** [ab->Externalize()]: V8 checks that the buffer is not external yet,
    marks it external and hands out its contents. *)
Definition Externalize (ab : AbId) (iso : Isolate) : option (list byte * Isolate) :=
  b ← iso !! ab;
  if is_external b then None
  else Some (backing_store b,
             <[ab := mkArrayBuffer (is_neuterable b) true (was_neutered b) (backing_store b)]> iso).

(** [ab->Neuter()]: V8 checks that the buffer is external and neuterable;
    afterwards its length is 0. *)
Definition Neuter (ab : AbId) (iso : Isolate) : option Isolate :=
  b ← iso !! ab;
  if negb (is_external b) || negb (is_neuterable b) then None
  else Some (<[ab := mkArrayBuffer (is_neuterable b) (is_external b) true []]> iso).

(** [ArrayBuffer::New(isolate, data, size, kInternalized)]: a new buffer
    of the isolate that owns [data]. *)
Definition ArrayBuffer_New (data : list byte) (iso : Isolate) : AbId * Isolate :=
  let ab := fresh (dom iso) in
  (ab, <[ab := mkArrayBuffer true false false data]> iso).

(** ** MallocedBuffer and Message *)

(** Modelled from the spec: [MallocedBuffer<char>] is declared in util.h.
    It owns a malloc'ed region or is empty; [release] yields the region
    and leaves the buffer empty. *)
Definition MallocedBuffer := option (list byte).

Definition is_empty (b : MallocedBuffer) : bool :=
  match b with None => true | Some _ => false end.

Definition release (b : MallocedBuffer) : list byte * MallocedBuffer :=
  (default [] b, None).

(** Modelled from the spec: the classes [Message], [MessagePortData] and
    [MessagePort] are declared in node_messaging.h.  A message is its main
    blob and the ordered list of the regions of its array buffers. *)
Record Message := mkMessage {
  main_message_buf_ : MallocedBuffer;
  array_buffer_contents_ : list MallocedBuffer
}.

(* [Message msg;] *)
Definition empty_Message : Message := mkMessage None [].

(** ** The V8 serializer *)

(** What [ValueSerializer] and [ValueDeserializer] compute is V8's
    business.  [WriteValue_body] is the encoding of a value, given the
    array buffers of the isolate and the ids registered with
    [TransferArrayBuffer]; it fails with a DataCloneError.
    [ReadHeader_ok] and [ReadValue_body] are the decoder. *)
Class ValueCodec := {
  WriteHeader_bytes : list byte;
  WriteValue_body : Isolate → list (nat * AbId) → Value → option (list byte);
  ReadHeader_ok : list byte → bool;
  ReadValue_body : Isolate → list (nat * AbId) → list byte → option Value
}.

Record ValueSerializer := mkSerializer {
  ser_transfers : list (nat * AbId);
  ser_buffer : list byte
}.

Definition new_ValueSerializer : ValueSerializer := mkSerializer [] [].

Definition ser_TransferArrayBuffer (id : nat) (ab : AbId) (s : ValueSerializer)
  : ValueSerializer :=
  mkSerializer (ser_transfers s ++ [(id, ab)]) (ser_buffer s).

Record ValueDeserializer := mkDeserializer {
  de_transfers : list (nat * AbId);
  de_buffer : list byte
}.

Definition de_TransferArrayBuffer (id : nat) (ab : AbId) (s : ValueDeserializer)
  : ValueDeserializer :=
  mkDeserializer (de_transfers s ++ [(id, ab)]) (de_buffer s).

Section Codec.
Context `{ValueCodec}.

Definition WriteHeader (s : ValueSerializer) : ValueSerializer :=
  mkSerializer (ser_transfers s) (ser_buffer s ++ WriteHeader_bytes).

Definition WriteValue (iso : Isolate) (input : Value) (s : ValueSerializer)
  : Maybe ValueSerializer :=
  match WriteValue_body iso (ser_transfers s) input with
  | Some body => Just (mkSerializer (ser_transfers s) (ser_buffer s ++ body))
  | None => Nothing DataCloneError
  end.

(** ** Message::Deserialize *)

(* The loop over [array_buffer_contents_]; [i] is the loop counter. *)
Fixpoint attach_array_buffers (contents : list MallocedBuffer) (i : nat)
    (de : ValueDeserializer) (iso : Isolate)
  : list MallocedBuffer * ValueDeserializer * Isolate :=
  match contents with
  | [] => ([], de, iso)
  | c :: rest =>
      let '(data, c') := release c in
      let '(ab, iso1) := ArrayBuffer_New data iso in
      let '(rest', de', iso') :=
        attach_array_buffers rest (S i) (de_TransferArrayBuffer i ab de) iso1 in
      (c' :: rest', de', iso')
  end.

Definition Deserialize (iso : Isolate) (msg : Message)
  : option Value * Isolate * Message :=
  let deserializer := mkDeserializer [] (default [] (main_message_buf_ msg)) in
  let '(released, deserializer, iso) :=
    attach_array_buffers (array_buffer_contents_ msg) 0 deserializer iso in
  (* array_buffer_contents_.clear() *)
  let msg := mkMessage (main_message_buf_ msg) [] in
  if negb (ReadHeader_ok (de_buffer deserializer)) then (None, iso, msg)
  else (ReadValue_body iso (de_transfers deserializer) (de_buffer deserializer),
        iso, msg).

(** ** Message::Serialize *)

(** The loop over the transfer list.  It only reads the isolate. *)
Fixpoint transfer_loop (entries : list (option Value)) (array_buffers : list AbId)
    (serializer : ValueSerializer) (iso : Isolate)
  : option (Maybe (list AbId * ValueSerializer)) :=
  match entries with
  | [] => Some (Just (array_buffers, serializer))
  | None :: _ => Some (Nothing JsException)
  | Some (ArrayBufferRef ab) :: rest =>
      b ← iso !! ab;
      if negb (is_neuterable b) || is_external b
      then transfer_loop rest array_buffers serializer iso
      else
        let id := length array_buffers in
        transfer_loop rest (array_buffers ++ [ab])
                      (ser_TransferArrayBuffer id ab serializer) iso
  | Some _ :: _ => Some (Nothing ERR_INVALID_TRANSFER_OBJECT)
  end.

(* The loop [for (Local<ArrayBuffer> ab : array_buffers)]. *)
Fixpoint externalize_loop (array_buffers : list AbId) (iso : Isolate) (msg : Message)
  : option (Isolate * Message) :=
  match array_buffers with
  | [] => Some (iso, msg)
  | ab :: rest =>
      '(contents, iso) ← Externalize ab iso;
      iso ← Neuter ab iso;
      externalize_loop rest iso
        (mkMessage (main_message_buf_ msg)
                   (array_buffer_contents_ msg ++ [Some contents]))
  end.

(* The block [if (transfer_list_v->IsArray()) { ... }]. *)
Definition register_transfers (transfer_list_v : Value) (serializer : ValueSerializer)
    (iso : Isolate) : option (Maybe (list AbId * ValueSerializer)) :=
  match transfer_list_v with
  | ArrayRef transfer_list => transfer_loop transfer_list [] serializer iso
  | _ => Some (Just ([], serializer))
  end.

Definition Serialize (input transfer_list_v : Value) (iso : Isolate) (msg : Message)
  : option (Maybe bool * Isolate * Message) :=
  (* CHECK(main_message_buf_.is_empty()) *)
  if negb (is_empty (main_message_buf_ msg)) then None else
  let serializer := new_ValueSerializer in
  transferred ← register_transfers transfer_list_v serializer iso;
  match transferred with
  | Nothing e => Some (Nothing e, iso, msg)
  | Just (array_buffers, serializer) =>
      let serializer := WriteHeader serializer in
      match WriteValue iso input serializer with
      | Nothing e => Some (Nothing e, iso, msg)
      | Just serializer =>
          '(iso, msg) ← externalize_loop array_buffers iso msg;
          let data := ser_buffer serializer in
          Some (Just true, iso, mkMessage (Some data) (array_buffer_contents_ msg))
      end
  end.

End Codec.

(** ** The world: environments, ports and port data *)

(** Modelled from the spec: the members of [MessagePortData] with the
    names the file uses; [mutex_] only serves locking and has no field.
    A pointer is an identifier of the store, a [shared_ptr<Mutex>] the
    identifier of a mutex. *)
Record MessagePortData := mkData {
  incoming_messages_ : list Message;
  receiving_messages_ : bool;
  owner_ : option PortId;
  sibling_ : option DataId;
  sibling_mutex_ : MutexId
}.

(* [HandleWrap::state_] *)
Inductive HandleState := kInitialized | kClosing | kClosed.

(* [env()], [data_] and the state of the underlying [HandleWrap]. *)
Record MessagePort := mkPort {
  port_env : EnvId;
  data_ : option DataId;
  state_ : HandleState
}.

Record Environment := mkEnv {
  isolate : Isolate;
  can_call_into_js : bool
}.

(** What the file does to libuv, to the queues and to user code, in the
    order it happens.  The queue events and [call_onmessage] also name the
    port data and the message concerned. *)
Inductive Event :=
| uv_async_send (p : PortId)
| uv_close (p : PortId)
| emplace_back (d : DataId) (m : Message)
| pop_front (d : DataId) (m : Message)
| call_onmessage (p : PortId) (d : DataId) (received : Message) (arg : Value).

Record World := mkWorld {
  envs : gmap EnvId Environment;
  ports : gmap PortId MessagePort;
  datas : gmap DataId MessagePortData;
  mutexes : gset MutexId;
  (* the ports whose [uv_async_t] handle is allocated *)
  asyncs : gset PortId;
  trace : list Event
}.

(** The functions the file exposes to JavaScript
    ([GetMessagePortConstructor], [InitMessaging]). *)
Inductive JsCall :=
| js_MessagePort (env : EnvId) (is_construct_call : bool)
| js_MessageChannel (env : EnvId) (is_construct_call : bool)
| js_postMessage (p : PortId) (args : list Value)
| js_start (p : PortId)
| js_stop (p : PortId)
| js_close (p : PortId).

(** User code.  A JavaScript function acts on this file only through the
    calls above, so it is given by the calls it makes, and whether it
    returns normally ([true]) or throws.  [oninit] is [None] when the
    property is missing or not a function. *)
Class UserCode := {
  oninit : World → PortId → option (list JsCall * bool);
  Has_onmessage : World → PortId → bool;
  onmessage : World → PortId → Value → list JsCall * bool
}.

(** *** Field updates *)

Definition with_incoming (q : list Message) (x : MessagePortData) : MessagePortData :=
  mkData q (receiving_messages_ x) (owner_ x) (sibling_ x) (sibling_mutex_ x).
Definition with_receiving (b : bool) (x : MessagePortData) : MessagePortData :=
  mkData (incoming_messages_ x) b (owner_ x) (sibling_ x) (sibling_mutex_ x).
Definition with_owner (o : option PortId) (x : MessagePortData) : MessagePortData :=
  mkData (incoming_messages_ x) (receiving_messages_ x) o (sibling_ x) (sibling_mutex_ x).
Definition with_sibling (s : option DataId) (x : MessagePortData) : MessagePortData :=
  mkData (incoming_messages_ x) (receiving_messages_ x) (owner_ x) s (sibling_mutex_ x).
Definition with_sibling_mutex (m : MutexId) (x : MessagePortData) : MessagePortData :=
  mkData (incoming_messages_ x) (receiving_messages_ x) (owner_ x) (sibling_ x) m.

Definition with_data (d : option DataId) (x : MessagePort) : MessagePort :=
  mkPort (port_env x) d (state_ x).
Definition with_state (s : HandleState) (x : MessagePort) : MessagePort :=
  mkPort (port_env x) (data_ x) s.

Definition set_env (e : EnvId) (x : Environment) (w : World) : World :=
  mkWorld (<[e := x]> (envs w)) (ports w) (datas w) (mutexes w) (asyncs w) (trace w).
Definition set_port (p : PortId) (x : MessagePort) (w : World) : World :=
  mkWorld (envs w) (<[p := x]> (ports w)) (datas w) (mutexes w) (asyncs w) (trace w).
Definition set_data (d : DataId) (x : MessagePortData) (w : World) : World :=
  mkWorld (envs w) (ports w) (<[d := x]> (datas w)) (mutexes w) (asyncs w) (trace w).
Definition log (e : Event) (w : World) : World :=
  mkWorld (envs w) (ports w) (datas w) (mutexes w) (asyncs w) (trace w ++ [e]).

(* [std::make_shared<Mutex>()] *)
Definition make_shared_Mutex (w : World) : MutexId * World :=
  let m := fresh (mutexes w) in
  (m, mkWorld (envs w) (ports w) (datas w) ({[m]} ∪ mutexes w) (asyncs w) (trace w)).

(* [new uv_async_t()], for the port [p]. *)
Definition new_uv_async (p : PortId) (w : World) : World :=
  mkWorld (envs w) (ports w) (datas w) (mutexes w) ({[p]} ∪ asyncs w) (trace w).

(** [delete async()].  A handle is deleted once: deleting what is not
    allocated (any more) is a double free, where the model stops. *)
Definition delete_async (p : PortId) (w : World) : option World :=
  if bool_decide (p ∈ asyncs w)
  then Some (mkWorld (envs w) (ports w) (datas w) (mutexes w)
                     (asyncs w ∖ {[p]}) (trace w))
  else None.

(* A member update through a [MessagePortData*] or a [MessagePort*]. *)
Definition upd_data (d : DataId) (f : MessagePortData → MessagePortData) (w : World)
  : option World :=
  x ← datas w !! d; Some (set_data d (f x) w).
Definition upd_port (p : PortId) (f : MessagePort → MessagePort) (w : World)
  : option World :=
  x ← ports w !! p; Some (set_port p (f x) w).

(** ** MessagePortData *)

(* [CHECK_EQ(uv_async_send(async()), 0)] *)
Definition TriggerAsync (p : PortId) (w : World) : World :=
  log (uv_async_send p) w.

Definition MessagePortData_AddToIncomingQueue (d : DataId) (message : Message)
    (w : World) : option World :=
  x ← datas w !! d;
  let w := set_data d (with_incoming (incoming_messages_ x ++ [message]) x) w in
  let w := log (emplace_back d message) w in
  match owner_ x with
  | Some owner => Some (TriggerAsync owner w)
  | None => Some w
  end.

Definition MessagePortData_IsSiblingClosed (d : DataId) (w : World) : option bool :=
  x ← datas w !! d; Some (bool_decide (sibling_ x = None)).

Definition MessagePortData_Entangle (a b : DataId) (w : World) : option World :=
  xa ← datas w !! a;
  xb ← datas w !! b;
  if negb (bool_decide (sibling_ xa = None)) then None else
  if negb (bool_decide (sibling_ xb = None)) then None else
  w ← upd_data a (with_sibling (Some b)) w;
  w ← upd_data b (with_sibling (Some a)) w;
  xb ← datas w !! b;
  upd_data a (with_sibling_mutex (sibling_mutex_ xb)) w.

Definition PingOwnerAfterDisentanglement (d : DataId) (w : World) : option World :=
  x ← datas w !! d;
  match owner_ x with
  | Some owner => Some (TriggerAsync owner w)
  | None => Some w
  end.

Definition MessagePortData_Disentangle (d : DataId) (w : World) : option World :=
  x ← datas w !! d;
  let '(m, w) := make_shared_Mutex w in
  let w := set_data d (with_sibling_mutex m x) w in
  let sibling := sibling_ x in
  w ← match sibling with
      | Some s =>
          w ← upd_data s (with_sibling None) w;
          upd_data d (with_sibling None) w
      | None => Some w
      end;
  w ← PingOwnerAfterDisentanglement d w;
  match sibling with
  | Some s => PingOwnerAfterDisentanglement s w
  | None => Some w
  end.

(** [~MessagePortData].  The queue is freed with the object; the model
    keeps the dead object in the store, where nothing refers to it, and
    never hands out its identifier again. *)
Definition MessagePortData_dtor (d : DataId) (w : World) : option World :=
  x ← datas w !! d;
  if negb (bool_decide (owner_ x = None)) then None else
  MessagePortData_Disentangle d w.

(** ** MessagePort *)

(** Modelled from the spec: [HandleWrap::Close] is defined in
    handle_wrap.cc.  close() is idempotent and releases the async handle;
    libuv then runs the close callback, which is [OnClose] below. *)
Definition Close (p : PortId) (w : World) : option World :=
  port ← ports w !! p;
  match state_ port with
  | kInitialized => Some (log (uv_close p) (set_port p (with_state kClosing port) w))
  | _ => Some w
  end.

(** [MessagePort::OnClose].  [data_.reset()] destroys the port data, and
    [delete async()] the handle: a second run on the same port stops at
    the double free. *)
Definition OnClose (p : PortId) (w : World) : option World :=
  port ← ports w !! p;
  w ← match data_ port with
      | Some d =>
          w ← upd_data d (with_owner None) w;
          w ← MessagePortData_Disentangle d w;
          (* data_.reset() *)
          w ← upd_port p (with_data None) w;
          MessagePortData_dtor d w
      | None => Some w
      end;
  delete_async p w.

Definition Detach (p : PortId) (w : World) : option (DataId * World) :=
  port ← ports w !! p;
  d ← data_ port;
  w ← upd_data d (with_owner None) w;
  w ← upd_port p (with_data None) w;
  Some (d, w).

Definition MessagePort_Send (p : PortId) (message : Message) (w : World)
  : option World :=
  port ← ports w !! p;
  d ← data_ port;
  x ← datas w !! d;
  match sibling_ x with
  | None => Some w
  | Some s => MessagePortData_AddToIncomingQueue s message w
  end.

Definition MessagePort_Start (p : PortId) (w : World) : option World :=
  port ← ports w !! p;
  d ← data_ port;
  x ← datas w !! d;
  let w := set_data d (with_receiving true x) w in
  if negb (bool_decide (incoming_messages_ x = [])) then Some (TriggerAsync p w)
  else Some w.

Definition MessagePort_Stop (p : PortId) (w : World) : option World :=
  port ← ports w !! p;
  d ← data_ port;
  upd_data d (with_receiving false) w.

Definition MessagePort_Entangle (a b : PortId) (w : World) : option World :=
  pa ← ports w !! a;
  pb ← ports w !! b;
  da ← data_ pa;
  db ← data_ pb;
  MessagePortData_Entangle da db w.

Section Program.
Context `{ValueCodec} `{UserCode}.

(** *** Functions that run user code

    User code calls back into this file, so the functions that run it
    take the interpreter [exec] of a list of calls as an argument;
    [run_script] ties the knot, with fuel for the nesting of [oninit]
    hooks and constructors. *)
Section WithExec.
Variable exec : list JsCall → World → option World.

(** The constructor [MessagePort::MessagePort].  The result is [false]
    when the [oninit] hook throws, which makes V8 fail the construction.
    A new [MessagePortData] has an empty queue, does not receive, has no
    sibling and a mutex of its own (member initializers of
    node_messaging.h, modelled from the spec). *)
Definition MessagePort_ctor (env : EnvId) (w : World)
  : option (PortId * bool * World) :=
  let p := fresh (dom (ports w)) in
  let d := fresh (dom (datas w)) in
  (* HandleWrap(env, wrap, new uv_async_t(), ...) *)
  let w := new_uv_async p w in
  (* data_(new MessagePortData(this)) *)
  let '(m, w) := make_shared_Mutex w in
  let w := set_data d (mkData [] false (Some p) None m) w in
  let w := set_port p (mkPort env (Some d) kInitialized) w in
  match oninit w p with
  | Some (init, returned) => w ← exec init w; Some (p, returned, w)
  | None => Some (p, true, w)
  end.

(* [MessagePort::New(const FunctionCallbackInfo<Value>&)] *)
Definition MessagePort_New_js (env : EnvId) (is_construct_call : bool) (w : World)
  : option (World * option Exception) :=
  if negb is_construct_call then Some (w, Some ERR_CONSTRUCT_CALL_REQUIRED) else
  match MessagePort_ctor env w with
  | Some (port, returned, w) => Some (w, if returned then None else Some JsException)
  | None => None
  end.

(** [MessagePort::New(env, context, data)]; the result is [None] for
    [nullptr].  The [MessagePortData] a fresh port is born with is
    destroyed when the temporary that [Detach] returns dies; [data] is
    destroyed with the argument when the function gives up early. *)
Definition MessagePort_New (env : EnvId) (data : option DataId) (w : World)
  : option (option PortId * World) :=
  match MessagePort_ctor env w with
  | None => None
  | Some (port, false, w) =>
      match data with
      | Some d => w ← MessagePortData_dtor d w; Some (None, w)
      | None => Some (None, w)
      end
  | Some (port, true, w) =>
      match data with
      | Some d =>
          '(born_with, w) ← Detach port w;
          w ← MessagePortData_dtor born_with w;
          w ← upd_port port (with_data (Some d)) w;
          w ← upd_data d (with_owner (Some port)) w;
          Some (Some port, TriggerAsync port w)
      | None => Some (Some port, w)
      end
  end.

(* [MessageChannel(const FunctionCallbackInfo<Value>&)] *)
Definition MessageChannel (env : EnvId) (is_construct_call : bool) (w : World)
  : option (World * option Exception) :=
  if negb is_construct_call then Some (w, Some ERR_CONSTRUCT_CALL_REQUIRED) else
  '(port1, w) ← MessagePort_New env None w;
  '(port2, w) ← MessagePort_New env None w;
  port1 ← port1;
  port2 ← port2;
  w ← MessagePort_Entangle port1 port2 w;
  Some (w, None).

(* [MessagePort::Send(const FunctionCallbackInfo<Value>&)] *)
Definition MessagePort_Send_args (p : PortId) (args : list Value) (w : World)
  : option (World * option Exception) :=
  port ← ports w !! p;
  env ← envs w !! port_env port;
  '(result, iso, msg) ←
    Serialize (nth 0 args Undefined) (nth 1 args Undefined) (isolate env) empty_Message;
  let w := set_env (port_env port) (mkEnv iso (can_call_into_js env)) w in
  match result : Maybe bool with
  | Nothing e => Some (w, Some e)
  | Just _ => w ← MessagePort_Send p msg w; Some (w, None)
  end.

(** The prototype methods.  [ASSIGN_OR_RETURN_UNWRAP] returns without an
    error when the receiver is not a port. *)
Definition PostMessage (p : PortId) (args : list Value) (w : World)
  : option (World * option Exception) :=
  match ports w !! p with
  | None => Some (w, None)
  | Some port =>
      if negb (bool_decide (is_Some (data_ port)))
      then Some (w, Some ERR_CLOSED_MESSAGE_PORT)
      else if bool_decide (length args = 0)
      then Some (w, Some ERR_MISSING_ARGS)
      else MessagePort_Send_args p args w
  end.

Definition Start (p : PortId) (w : World) : option (World * option Exception) :=
  match ports w !! p with
  | None => Some (w, None)
  | Some port =>
      if negb (bool_decide (is_Some (data_ port)))
      then Some (w, Some ERR_CLOSED_MESSAGE_PORT)
      else w ← MessagePort_Start p w; Some (w, None)
  end.

Definition Stop (p : PortId) (w : World) : option (World * option Exception) :=
  match ports w !! p with
  | None => Some (w, None)
  | Some port =>
      if negb (bool_decide (is_Some (data_ port)))
      then Some (w, Some ERR_CLOSED_MESSAGE_PORT)
      else w ← MessagePort_Stop p w; Some (w, None)
  end.

(* [HandleWrap::Close(const FunctionCallbackInfo<Value>&)] *)
Definition Close_js (p : PortId) (w : World) : option (World * option Exception) :=
  match ports w !! p with
  | None => Some (w, None)
  | Some _ => w ← Close p w; Some (w, None)
  end.

Definition run_call (c : JsCall) (w : World) : option (World * option Exception) :=
  match c with
  | js_MessagePort env is_construct_call => MessagePort_New_js env is_construct_call w
  | js_MessageChannel env is_construct_call => MessageChannel env is_construct_call w
  | js_postMessage p args => PostMessage p args w
  | js_start p => Start p w
  | js_stop p => Stop p w
  | js_close p => Close_js p w
  end.

(* User code goes on after a call that throws or stops there; the calls
   it makes either way are the ones listed. *)
Fixpoint run_calls (cs : list JsCall) (w : World) : option World :=
  match cs with
  | [] => Some w
  | c :: cs => '(w, thrown) ← run_call c w; run_calls cs w
  end.

End WithExec.

Fixpoint run_script (fuel : nat) (cs : list JsCall) (w : World) : option World :=
  match fuel with
  | 0 => None
  | S fuel => run_calls (run_script fuel) cs w
  end.

(** *** MessagePort::OnMessage *)

(* How the [while (data_)] loop is left: by [break] or a false loop
   condition, or by the [return] in it. *)
Inductive LoopExit := LoopEnd | LoopReturn.

(* "Re-schedule OnMessage() execution in case of failure." *)
Definition reschedule (p : PortId) (w : World) : option (LoopExit * World) :=
  port ← ports w !! p;
  match data_ port with
  | Some _ => Some (LoopReturn, TriggerAsync p w)
  | None => Some (LoopReturn, w)
  end.

Fixpoint OnMessage_loop (fuel : nat) (p : PortId) (w : World)
  : option (LoopExit * World) :=
  match fuel with
  | 0 => None
  | S fuel =>
      port ← ports w !! p;
      match data_ port with
      | None => Some (LoopEnd, w)
      | Some d =>
          x ← datas w !! d;
          if negb (receiving_messages_ x) then Some (LoopEnd, w) else
          match incoming_messages_ x with
          | [] => Some (LoopEnd, w)
          | received :: rest =>
              let w := set_data d (with_incoming rest x) w in
              let w := log (pop_front d received) w in
              env ← envs w !! port_env port;
              if negb (can_call_into_js env) then OnMessage_loop fuel p w else
              let '(arg, iso, consumed) := Deserialize (isolate env) received in
              let w := set_env (port_env port) (mkEnv iso (can_call_into_js env)) w in
              match arg with
              | None => reschedule p w
              | Some v =>
                  if negb (Has_onmessage w p) then reschedule p w else
                  let '(calls, returned) := onmessage w p v in
                  let w := log (call_onmessage p d received v) w in
                  w ← run_script fuel calls w;
                  if returned then OnMessage_loop fuel p w else reschedule p w
              end
          end
      end
  end.

Definition OnMessage (fuel : nat) (p : PortId) (w : World) : option World :=
  match OnMessage_loop fuel p w with
  | None => None
  | Some (LoopReturn, w) => Some w
  | Some (LoopEnd, w) =>
      port ← ports w !! p;
      match data_ port with
      | None => Some w
      | Some d =>
          match MessagePortData_IsSiblingClosed d w with
          | None => None
          | Some true => Close p w
          | Some false => Some w
          end
      end
  end.

(** ** The event loop *)

(** What happens to the ports: user code at top level makes a call; libuv
    runs the async callback of a port, or its close callback; the
    embedder moves the data of a port to a new port of another
    environment ([Detach], then [MessagePort::New] with the data). *)
Inductive Action :=
| RunJs (c : JsCall)
| AsyncCallback (p : PortId)
| CloseCallback (p : PortId)
| Transfer (p : PortId) (env : EnvId).

Definition step (fuel : nat) (a : Action) (w : World) : option World :=
  match a with
  | RunJs c => run_script fuel [c] w
  | AsyncCallback p => OnMessage fuel p w
  | CloseCallback p =>
      (* HandleWrap::OnClose: state_ = kClosed; wrap->OnClose() *)
      w ← upd_port p (with_state kClosed) w;
      OnClose p w
  | Transfer p env =>
      '(d, w) ← Detach p w;
      '(port, w) ← MessagePort_New (run_script fuel) env (Some d) w;
      Some w
  end.

Fixpoint run (fuel : nat) (acts : list Action) (w : World) : option World :=
  match acts with
  | [] => Some w
  | a :: acts => w ← step fuel a w; run fuel acts w
  end.

End Program.

(** ** A small codec and small users, to run the program on examples *)

(** A function ([Other 0]) cannot be cloned; the decoder knows the
    one-byte bodies the encoder writes. *)
Definition sample_codec : ValueCodec := {|
  WriteHeader_bytes := [xff; x0d];
  WriteValue_body iso transfers v :=
    match v with
    | Undefined => Some [x5f]
    | Other 0 => None
    | Other (S _) => Some [x49]
    | ArrayBufferRef ab =>
        match list_find (λ t, bool_decide (t.2 = ab)) transfers with
        | Some _ => Some [x74]
        | None => backing_store <$> iso !! ab
        end
    | ArrayRef _ => Some [x41]
    end;
  ReadHeader_ok buf :=
    match buf with xff :: x0d :: _ => true | _ => false end;
  ReadValue_body iso transfers buf :=
    match buf with
    | [xff; x0d; x5f] => Some Undefined
    | [xff; x0d; x49] => Some (Other 1)
    | [xff; x0d; x74] => ArrayBufferRef <$> (snd <$> head transfers)
    | _ => None
    end
|}.

(* No [oninit]; an [onmessage] handler that makes no call and returns. *)
Definition quiet_user : UserCode := {|
  oninit w p := None;
  Has_onmessage w p := true;
  onmessage w p v := ([], true)
|}.

(** ** What the claims speak of *)

(** A buffer [Serialize] can take: it can be made unusable in the isolate
    and its memory is not owned by someone else already. *)
Definition transferable (iso : Isolate) (ab : AbId) : bool :=
  match iso !! ab with
  | Some b => is_neuterable b && negb (is_external b)
  | None => false
  end.

(** The surviving list of a transfer list, in the words of the
    specification: the array buffers of the list that are transferable,
    in the order of the list. *)
Fixpoint surviving_list (iso : Isolate) (entries : list (option Value)) : list AbId :=
  match entries with
  | [] => []
  | Some (ArrayBufferRef ab) :: rest =>
      if transferable iso ab then ab :: surviving_list iso rest
      else surviving_list iso rest
  | _ :: rest => surviving_list iso rest
  end.

(* An entry that is an array buffer of the isolate. *)
Definition array_buffer_entry (iso : Isolate) (e : option Value) : Prop :=
  ∃ ab, e = Some (ArrayBufferRef ab) ∧ is_Some (iso !! ab).

(** ** Observations on worlds and traces *)

(* The incoming queue of a [MessagePortData]. *)
Definition queue_of (d : DataId) (w : World) : list Message :=
  match datas w !! d with
  | Some x => incoming_messages_ x
  | None => []
  end.

(** The messages appended to the queue of [d], removed from it, and
    handed to an [onmessage] handler, in the order of the trace. *)
Definition enqueued (d : DataId) (t : list Event) : list Message :=
  omap (λ e, match e with
             | emplace_back d' m => if decide (d' = d) then Some m else None
             | _ => None
             end) t.

Definition dequeued (d : DataId) (t : list Event) : list Message :=
  omap (λ e, match e with
             | pop_front d' m => if decide (d' = d) then Some m else None
             | _ => None
             end) t.

Definition delivered (d : DataId) (t : list Event) : list Message :=
  omap (λ e, match e with
             | call_onmessage _ d' m _ => if decide (d' = d) then Some m else None
             | _ => None
             end) t.

(** The queue discipline: what was appended to a queue is what was
    removed from it, in that order, followed by what is still in it; and
    a handler is only given messages that were removed, in that order. *)
Definition fifo (w : World) : Prop :=
  ∀ d, enqueued d (trace w) = dequeued d (trace w) ++ queue_of d w
       ∧ sublist (delivered d (trace w)) (dequeued d (trace w)).

(** ** Example worlds *)

Definition sample_isolate : Isolate :=
  {[ 5 := mkArrayBuffer true false false [x01; x02];
     6 := mkArrayBuffer true true false [x03] ]}.

(* One environment, no port yet. *)
Definition sample_world : World :=
  mkWorld {[ 0 := mkEnv sample_isolate true ]} ∅ ∅ ∅ ∅ [].

(* The world a run of the sample program ends in. *)
Definition from_run (r : option World) : World := default sample_world r.

(* [new MessageChannel()]: ports 0 and 1 with the data 0 and 1. *)
Definition channel_world : World :=
  from_run (@run sample_codec quiet_user 3 [RunJs (js_MessageChannel 0 true)]
                 sample_world).

(* An array is a value the sample decoder cannot read back. *)
Definition unreadable_value : Value := ArrayRef [].

(** Port 0 posts to port 1, which was never started, and is closed; the
    close callback of port 0 has run. *)
Definition orphaned_world : World :=
  from_run (@run sample_codec quiet_user 3
                 [RunJs (js_postMessage 0 [Other 1]);
                  RunJs (js_close 0);
                  CloseCallback 0]
                 channel_world).

(* Then libuv runs the async callback of port 1. *)
Definition orphan_closing_world : World :=
  from_run (@OnMessage sample_codec quiet_user 3 1 orphaned_world).

(** Port 0 posts a value that cannot be read back to port 1, which is
    started. *)
Definition unreadable_world : World :=
  from_run (@run sample_codec quiet_user 3
                 [RunJs (js_postMessage 0 [unreadable_value]);
                  RunJs (js_start 1)]
                 channel_world).

(* The two messages of these runs. *)
Definition number_message : Message := mkMessage (Some [xff; x0d; x49]) [].
Definition unreadable_message : Message := mkMessage (Some [xff; x0d; x41]) [].

(* The data of port 1 of a new channel, with its empty queue, moves to a
   new port 2: first it is detached, then adopted. *)
Definition detached_world : World :=
  from_run (snd <$> Detach 1 channel_world).

Definition adopted_world : World :=
  from_run (@step sample_codec quiet_user 3 (Transfer 1 0) channel_world).

(** Two worlds with the same queues and the same queue events. *)
Definition same_queues (w w' : World) : Prop :=
  ∀ d, queue_of d w' = queue_of d w ∧
       enqueued d (trace w') = enqueued d (trace w) ∧
       dequeued d (trace w') = dequeued d (trace w) ∧
       delivered d (trace w') = delivered d (trace w).

(* Port 0 posts twice to port 1, which is started and runs its callback. *)
Definition two_posts : list Action :=
  [RunJs (js_postMessage 0 [Other 1]);
   RunJs (js_postMessage 0 [Undefined]);
   RunJs (js_start 1);
   AsyncCallback 1].

Definition two_posts_world : World :=
  from_run (@run sample_codec quiet_user 3 two_posts channel_world).

Definition undefined_message : Message := mkMessage (Some [xff; x0d; x5f]) [].

(** From [w] to [w'], every port data is still there, and one without a
    sibling is still without a sibling. *)
Definition closed_stays (w w' : World) : Prop :=
  ∀ d x, datas w !! d = Some x →
         ∃ x', datas w' !! d = Some x' ∧ (sibling_ x = None → sibling_ x' = None).

(* From [w] to [w'], every port is still there, with the same data. *)
Definition ports_stay (w w' : World) : Prop :=
  ∀ p port, ports w !! p = Some port →
            ∃ port', ports w' !! p = Some port' ∧ data_ port' = data_ port.

(** ** Wake-ups *)

(* The events of [if (owner_ != nullptr) owner_->TriggerAsync()]. *)
Definition wake (owner : option PortId) : list Event :=
  match owner with
  | Some p => [uv_async_send p]
  | None => []
  end.

(** ** Shapes of worlds *)

(** Entanglement is mutual, between two different port data, and comes
    with one mutex for the two. *)
Definition pairs_wf (w : World) : Prop :=
  ∀ a b xa,
    datas w !! a = Some xa → sibling_ xa = Some b →
    a ≠ b ∧ ∃ xb, datas w !! b = Some xb ∧ sibling_ xb = Some a ∧
                  sibling_mutex_ xb = sibling_mutex_ xa.

(** Every mutex in use was allocated, and two port data hold the same
    mutex only when they are entangled with each other. *)
Definition mutexes_wf (w : World) : Prop :=
  (∀ d x, datas w !! d = Some x → sibling_mutex_ x ∈ mutexes w) ∧
  (∀ a b xa xb,
     datas w !! a = Some xa → datas w !! b = Some xb →
     sibling_mutex_ xa = sibling_mutex_ xb →
     a = b ∨ sibling_ xa = Some b).

(* A port and its data name each other. *)
Definition owners_wf (w : World) : Prop :=
  (∀ p port d,
     ports w !! p = Some port → data_ port = Some d →
     ∃ x, datas w !! d = Some x ∧ owner_ x = Some p) ∧
  (∀ d x p,
     datas w !! d = Some x → owner_ x = Some p →
     ∃ port, ports w !! p = Some port ∧ data_ port = Some d).

Definition well_formed (w : World) : Prop :=
  pairs_wf w ∧ mutexes_wf w ∧ owners_wf w.

(* The sibling and the mutex of a port data, if it is in the store. *)
Definition link_of (d : DataId) (w : World) : option (option DataId * MutexId) :=
  (λ x, (sibling_ x, sibling_mutex_ x)) <$> datas w !! d.

(* Two worlds with the same links, the second with no mutex less. *)
Definition same_links (w w' : World) : Prop :=
  (∀ d, link_of d w' = link_of d w) ∧ mutexes w ⊆ mutexes w'.

(* Two worlds in which ports and port data name each other alike. *)
Definition same_owners (w w' : World) : Prop :=
  (∀ d, owner_ <$> datas w' !! d = owner_ <$> datas w !! d) ∧
  (∀ p, data_ <$> ports w' !! p = data_ <$> ports w !! p).

(* From [w] to [w'], every port data is still there, with the same owner. *)
Definition owners_stay (w w' : World) : Prop :=
  ∀ d x, datas w !! d = Some x →
         ∃ x', datas w' !! d = Some x' ∧ owner_ x' = owner_ x.

(** ** More example worlds and users *)

(* Port 0 has posted two messages to port 1, which is started. *)
Definition pending_world : World :=
  from_run (@run sample_codec quiet_user 3
              [RunJs (js_postMessage 0 [Other 1]);
               RunJs (js_postMessage 0 [Undefined]);
               RunJs (js_start 1)]
              channel_world).

(* The same while the environment shuts down. *)
Definition shutdown_world : World :=
  set_env 0 (mkEnv sample_isolate false) pending_world.

(* [new MessagePort()] twice: ports 0 and 1, not entangled. *)
Definition lone_ports_world : World :=
  from_run (@run sample_codec quiet_user 3
              [RunJs (js_MessagePort 0 true); RunJs (js_MessagePort 0 true)]
              sample_world).

(* A new channel whose port 1 has moved to a new port 2. *)
Definition channel_and_move : list Action :=
  [RunJs (js_MessageChannel 0 true); Transfer 1 0].

(* User code without [onmessage] property, and user code whose handler
   throws. *)
Definition deaf_user : UserCode := {|
  oninit w p := None;
  Has_onmessage w p := false;
  onmessage w p v := ([], true)
|}.

Definition throwing_user : UserCode := {|
  oninit w p := None;
  Has_onmessage w p := true;
  onmessage w p v := ([], false)
|}.

(* The buffer 5 is posted and transferred. *)
Definition sent_isolate : Isolate :=
  {[ 5 := mkArrayBuffer true true true [];
     6 := mkArrayBuffer true true false [x03] ]}.

Definition sent_message : Message :=
  mkMessage (Some [xff; x0d; x74]) [Some [x01; x02]].

(** * The async handle *)

Lemma delete_async_inv p w w' :
  delete_async p w = Some w' →
  p ∈ asyncs w ∧ asyncs w' = asyncs w ∖ {[p]} ∧
  envs w' = envs w ∧ ports w' = ports w ∧ datas w' = datas w ∧
  mutexes w' = mutexes w ∧ trace w' = trace w.
Proof.
  unfold delete_async. intros Hrun.
  destruct (bool_decide (p ∈ asyncs w)) eqn:Hin; [|done].
  apply bool_decide_eq_true_1 in Hin. by injection Hrun as <-.
Qed.

(* The two halves of [OnClose]. *)
Lemma OnClose_inv p w w' :
  OnClose p w = Some w' →
  ∃ port w1,
    ports w !! p = Some port ∧
    match data_ port with
    | Some d =>
        w ← upd_data d (with_owner None) w;
        w ← MessagePortData_Disentangle d w;
        w ← upd_port p (with_data None) w;
        MessagePortData_dtor d w
    | None => Some w
    end = Some w1 ∧
    delete_async p w1 = Some w'.
Proof.
  unfold OnClose. intros Hrun.
  destruct (ports w !! p) as [port|]; [|done]. simpl in Hrun.
  destruct (match data_ port with Some _ => _ | None => _ end) as [w1|] eqn:H1;
    [|done].
  simpl in Hrun. by exists port, w1.
Qed.

(* The functions of [MessagePortData] leave the handles alone. *)
Lemma upd_data_asyncs d f w w' : upd_data d f w = Some w' → asyncs w' = asyncs w.
Proof.
  unfold upd_data. intros Hrun.
  destruct (datas w !! d); [|done]. by injection Hrun as <-.
Qed.

Lemma Ping_asyncs d w w' :
  PingOwnerAfterDisentanglement d w = Some w' → asyncs w' = asyncs w.
Proof.
  unfold PingOwnerAfterDisentanglement. intros Hrun.
  destruct (datas w !! d) as [x|]; [|done]. simpl in Hrun.
  by destruct (owner_ x); injection Hrun as <-.
Qed.

Lemma Disentangle_asyncs d w w' :
  MessagePortData_Disentangle d w = Some w' → asyncs w' = asyncs w.
Proof.
  unfold MessagePortData_Disentangle, make_shared_Mutex. intros Hrun.
  destruct (datas w !! d) as [x|]; [|done]. simpl in Hrun.
  destruct (sibling_ x) as [s|]; simpl in Hrun.
  - destruct (upd_data s _ _) as [w1|] eqn:H1; [|done]. simpl in Hrun.
    destruct (upd_data d _ w1) as [w2|] eqn:H2; [|done]. simpl in Hrun.
    destruct (PingOwnerAfterDisentanglement d w2) as [w3|] eqn:H3; [|done].
    simpl in Hrun.
    apply upd_data_asyncs in H1. apply upd_data_asyncs in H2.
    apply Ping_asyncs in H3. apply Ping_asyncs in Hrun.
    rewrite Hrun, H3, H2, H1. done.
  - destruct (PingOwnerAfterDisentanglement d _) as [w3|] eqn:H3; [|done].
    simpl in Hrun. injection Hrun as <-. by apply Ping_asyncs in H3.
Qed.
(** * Theorems *)

(** ** The message codec *)

Section CodecFacts.
Context `{ValueCodec}.

Lemma attach_array_buffers_spec (contents : list MallocedBuffer) :
  ∀ i de (iso : Isolate) released de' (iso' : Isolate),
    attach_array_buffers contents i de iso = (released, de', iso') →
    ∃ abs : list AbId,
      length abs = length contents ∧ NoDup abs ∧
      de_transfers de' = de_transfers de ++ zip (seq i (length contents)) abs ∧
      de_buffer de' = de_buffer de ∧
      (∀ k ab, abs !! k = Some ab →
         iso !! ab = None ∧
         ∃ c, contents !! k = Some c ∧
              iso' !! ab = Some (mkArrayBuffer true false false (default [] c))) ∧
      (∀ ab, ab ∉ abs → iso' !! ab = iso !! ab).
Proof.
  induction contents as [|c rest IH]; intros i de iso released de' iso' Hrun.
  - simpl in Hrun. injection Hrun as <- <- <-. exists []. simpl.
    rewrite app_nil_r. split_and!; try done. constructor.
  - simpl in Hrun.
    set (ab0 := fresh (dom iso)) in *.
    set (iso1 := <[ab0 := mkArrayBuffer true false false (default [] c)]> iso) in *.
    destruct (attach_array_buffers rest (S i) (de_TransferArrayBuffer i ab0 de) iso1)
      as [[rest' de1] iso2] eqn:Hrest.
    injection Hrun as <- <- <-.
    destruct (IH _ _ _ _ _ _ Hrest) as (abs & Hlen & Hnd & Htr & Hbuf & Hnew & Hold).
    assert (Hfresh : iso !! ab0 = None).
    { apply not_elem_of_dom. apply is_fresh. }
    assert (Hnotin : ab0 ∉ abs).
    { intros Hin. apply list_elem_of_lookup in Hin as [k Hk].
      destruct (Hnew _ _ Hk) as [Hnone _].
      unfold iso1 in Hnone. by rewrite lookup_insert_eq in Hnone. }
    exists (ab0 :: abs). simpl. split_and!.
    + by rewrite Hlen.
    + by constructor.
    + rewrite Htr. simpl. by rewrite <- app_assoc.
    + by rewrite Hbuf.
    + intros [|k] ab Hk; simpl in Hk.
      * injection Hk as <-. split; [done|]. exists c. split; [done|].
        rewrite (Hold _ Hnotin). unfold iso1. by rewrite lookup_insert_eq.
      * destruct (Hnew _ _ Hk) as [Hnone Hc]. split; [|done].
        unfold iso1 in Hnone. apply lookup_insert_None in Hnone. tauto.
    + intros ab Hab. apply not_elem_of_cons in Hab as [Hne Hab].
      rewrite (Hold _ Hab). unfold iso1. by rewrite lookup_insert_ne.
Qed.

(** C10.  Whatever [Message::Deserialize] returns, and also when the header
    is refused, the call leaves [array_buffer_contents_] empty, and every
    buffer the message held is by then an internalized array buffer of the
    receiving isolate: as many new, distinct array buffers as the list had
    entries, the k-th owning the k-th region, next to the array buffers
    the isolate had, which are untouched. *)
Theorem Deserialize_hands_over_all_buffers (iso : Isolate) (msg : Message) :
  let result := (Deserialize iso msg).1.1 in
  let iso' : Isolate := (Deserialize iso msg).1.2 in
  let msg' := (Deserialize iso msg).2 in
  array_buffer_contents_ msg' = [] ∧
  (ReadHeader_ok (default [] (main_message_buf_ msg)) = true ∨ result = None) ∧
  ∃ abs : list AbId,
    length abs = length (array_buffer_contents_ msg) ∧ NoDup abs ∧
    (∀ k ab, abs !! k = Some ab →
       iso !! ab = None ∧
       ∃ c, array_buffer_contents_ msg !! k = Some c ∧
            iso' !! ab = Some (mkArrayBuffer true false false (default [] c))) ∧
    (∀ ab, ab ∉ abs → iso' !! ab = iso !! ab).
Proof.
  unfold Deserialize.
  destruct (attach_array_buffers _ _ _ _) as [[released de'] iso'] eqn:Hrun.
  destruct (attach_array_buffers_spec _ _ _ _ _ _ _ Hrun)
    as (abs & Hlen & Hnd & Htr & Hbuf & Hnew & Hold).
  simpl in Hbuf. rewrite Hbuf.
  destruct (ReadHeader_ok _) eqn:Hhdr; simpl;
    (split; [done|]); (split; [auto|]); exists abs; auto.
Qed.

End CodecFacts.

Section SerializeFacts.
Context `{ValueCodec}.

Lemma transfer_loop_array_buffers (iso : Isolate) (entries : list (option Value)) :
  ∀ array_buffers serializer,
    Forall (array_buffer_entry iso) entries →
    transfer_loop entries array_buffers serializer iso =
      Some (Just (array_buffers ++ surviving_list iso entries,
                  mkSerializer
                    (ser_transfers serializer ++
                     imap (λ k ab, (length array_buffers + k, ab))
                          (surviving_list iso entries))
                    (ser_buffer serializer))).
Proof.
  induction entries as [|e rest IH]; intros abs ser Hall.
  - simpl. rewrite !app_nil_r. by destruct ser.
  - apply Forall_cons in Hall as [(ab & -> & [b Hb]) Hrest]. simpl.
    unfold transferable. rewrite Hb. simpl.
    destruct (is_neuterable b), (is_external b); simpl; rewrite IH by done;
      try done.
    rewrite length_app. simpl. rewrite <- !app_assoc. simpl.
    rewrite Nat.add_0_r. do 6 f_equal.
    apply imap_ext. intros k x _. simpl. f_equal. lia.

Qed.

Lemma transfer_loop_invalid_entry (iso : Isolate) (pre : list (option Value)) :
  ∀ v post array_buffers serializer,
    Forall (array_buffer_entry iso) pre →
    IsArrayBuffer v = false →
    transfer_loop (pre ++ Some v :: post) array_buffers serializer iso =
      Some (Nothing ERR_INVALID_TRANSFER_OBJECT).
Proof.
  induction pre as [|e rest IH]; intros v post abs ser Hall Hv.
  - simpl. by destruct v.
  - apply Forall_cons in Hall as [(ab & -> & [b Hb]) Hrest]. simpl.
    rewrite Hb. simpl.
    destruct (negb (is_neuterable b) || is_external b); by apply IH.
Qed.

Lemma surviving_list_transferable (iso : Isolate) (entries : list (option Value)) ab :
  ab ∈ surviving_list iso entries ↔
  Some (ArrayBufferRef ab) ∈ entries ∧ transferable iso ab = true.
Proof.
  induction entries as [|e rest IH]; simpl.
  - split; [by intros ?%elem_of_nil | by intros [?%elem_of_nil _]].
  - destruct e as [[| |ab'|]|]; rewrite ?elem_of_cons, ?IH;
      try (split; [intros [? ?]; by auto | intros [[Heq|?] ?]; [done | by auto]]).
    destruct (transferable iso ab') eqn:Hab'; rewrite ?elem_of_cons, IH.
    + split.
      * intros [->|[? ?]]; auto.
      * intros [[Heq|?] ?]; [injection Heq as ->|]; auto.
    + split; [intros [? ?]; by auto|].
      intros [[Heq|Hin] Htr]; [|done].
      injection Heq as ->. congruence.
Qed.

Lemma externalize_loop_spec (array_buffers : list AbId) :
  ∀ (iso : Isolate) msg (iso' : Isolate) msg',
    externalize_loop array_buffers iso msg = Some (iso', msg') →
    NoDup array_buffers ∧
    main_message_buf_ msg' = main_message_buf_ msg ∧
    array_buffer_contents_ msg' =
      array_buffer_contents_ msg ++ ((λ ab, backing_store <$> iso !! ab) <$> array_buffers) ∧
    (∀ ab, ab ∈ array_buffers →
       ∃ b, iso !! ab = Some b ∧ is_external b = false ∧
            iso' !! ab = Some (mkArrayBuffer (is_neuterable b) true true [])) ∧
    (∀ ab, ab ∉ array_buffers → iso' !! ab = iso !! ab).
Proof.
  induction array_buffers as [|ab rest IH]; intros iso msg iso' msg' Hrun.
  - simpl in Hrun. injection Hrun as <- <-. simpl. rewrite app_nil_r.
    split_and!; try done; [constructor | by intros ? ?%elem_of_nil].
  - simpl in Hrun. unfold Externalize, Neuter in Hrun.
    destruct (iso !! ab) as [b|] eqn:Hb; [|done]. simpl in Hrun.
    destruct (is_external b) eqn:Hext; [done|]. simpl in Hrun.
    rewrite lookup_insert_eq in Hrun. simpl in Hrun.
    destruct (is_neuterable b) eqn:Hneut; [|done]. simpl in Hrun.
    rewrite insert_insert_eq in Hrun.
    apply IH in Hrun as (Hnd & Hmain & Hcont & Hin & Hout).
    assert (Hnotin : ab ∉ rest).
    { intros Hab. destruct (Hin _ Hab) as (b' & Hb' & Hext' & _).
      rewrite lookup_insert_eq in Hb'. by injection Hb' as <-. }
    split_and!.
    + by constructor.
    + done.
    + rewrite Hcont. simpl. rewrite <- app_assoc. simpl. rewrite Hb. simpl.
      do 2 f_equal. apply list_fmap_ext. intros k ab' Hk.
      rewrite lookup_insert_ne; [done|].
      intros <-. apply Hnotin. by eapply list_elem_of_lookup_2.
    + intros ab' [->|Hab']%elem_of_cons.
      * exists b. rewrite (Hout _ Hnotin), lookup_insert_eq, Hneut. done.
      * destruct (Hin _ Hab') as (b' & Hb' & Hext' & Hafter).
        exists b'. rewrite lookup_insert_ne in Hb'; [done|].
        intros <-. done.
    + intros ab' [Hne Hab']%not_elem_of_cons.
      rewrite (Hout _ Hab'). by rewrite lookup_insert_ne.
Qed.

(* The survivors alone make the same list of survivors. *)
Lemma surviving_list_survivors (iso : Isolate) (entries : list (option Value)) :
  surviving_list iso ((λ ab, Some (ArrayBufferRef ab)) <$> surviving_list iso entries)
    = surviving_list iso entries.
Proof.
  induction entries as [|e rest IH]; [done|].
  destruct e as [[| |ab|]|]; simpl; try apply IH.
  destruct (transferable iso ab) eqn:Hab; [|apply IH].
  rewrite fmap_cons. simpl. rewrite Hab. f_equal. apply IH.
Qed.

Lemma survivors_array_buffers (iso : Isolate) (entries : list (option Value)) :
  Forall (array_buffer_entry iso)
         ((λ ab, Some (ArrayBufferRef ab)) <$> surviving_list iso entries).
Proof.
  apply Forall_fmap, Forall_forall. intros ab Hab.
  apply surviving_list_transferable in Hab as [_ Hab].
  exists ab. split; [done|]. unfold transferable in Hab.
  by destruct (iso !! ab).
Qed.

(** C2.  A transfer list that starts with array buffers of the isolate:
    the loop registers the surviving ones, the entries that are
    neuterable and not external, under the ids 0, 1, 2, ... in the order
    of the list; an entry that is not transferable is skipped like an
    entry that is not there: [Serialize] does with the list what it does
    with the survivors alone.  Such an entry is not transferred: it gets
    no id, no region of the message and stays as it is in the isolate.
    It is not kept out of the message: the encoder writes the value
    knowing the survivors only, and the body it writes is the blob.  And
    a next entry that is not an array buffer makes [Serialize] fail with
    ERR_INVALID_TRANSFER_OBJECT. *)
Theorem transfer_list_semantics (iso : Isolate) (entries : list (option Value)) :
  Forall (array_buffer_entry iso) entries →
  let survivors := surviving_list iso entries in
  transfer_loop entries [] new_ValueSerializer iso =
    Some (Just (survivors, mkSerializer (imap (λ k ab, (k, ab)) survivors) []))
  ∧ (∀ ab, ab ∈ survivors ↔
           Some (ArrayBufferRef ab) ∈ entries ∧ transferable iso ab = true)
  ∧ (∀ input msg,
       Serialize input (ArrayRef entries) iso msg =
       Serialize input (ArrayRef ((λ ab, Some (ArrayBufferRef ab)) <$> survivors))
                 iso msg)
  ∧ (∀ input msg (iso' : Isolate) msg',
       Serialize input (ArrayRef entries) iso msg = Some (Just true, iso', msg') →
       (∃ body,
          WriteValue_body iso (imap (λ k ab, (k, ab)) survivors) input = Some body ∧
          main_message_buf_ msg' = Some (WriteHeader_bytes ++ body))
       ∧ array_buffer_contents_ msg' =
           array_buffer_contents_ msg ++ ((λ ab, backing_store <$> iso !! ab) <$> survivors)
       ∧ ∀ ab, ab ∉ survivors → iso' !! ab = iso !! ab)
  ∧ (∀ v post input msg,
       IsArrayBuffer v = false →
       is_empty (main_message_buf_ msg) = true →
       Serialize input (ArrayRef (entries ++ Some v :: post)) iso msg =
         Some (Nothing ERR_INVALID_TRANSFER_OBJECT, iso, msg)).
Proof.
  intros Hall survivors. split_and!.
  - rewrite transfer_loop_array_buffers by done. done.
  - intros ab. apply surviving_list_transferable.
  - intros input msg. unfold Serialize, survivors.
    destruct (negb _); [done|]. simpl.
    rewrite !transfer_loop_array_buffers
      by (done || apply survivors_array_buffers).
    by rewrite surviving_list_survivors.
  - intros input msg iso' msg' Hrun. unfold Serialize in Hrun.
    destruct (negb _); [done|]. simpl in Hrun.
    rewrite transfer_loop_array_buffers in Hrun by done. simpl in Hrun.
    unfold WriteValue, WriteHeader in Hrun. simpl in Hrun.
    destruct (WriteValue_body iso _ input) as [body|] eqn:Hbody; [|done].
    destruct (externalize_loop _ _ _) as [[iso1 msg1]|] eqn:Hext; [|done].
    simpl in Hrun. injection Hrun as <- <-. simpl.
    apply externalize_loop_spec in Hext as (_ & _ & Hcont & _ & Hout).
    split; [by exists body|]. done.
  - intros v post input msg Hv Hempty. unfold Serialize.
    rewrite Hempty. simpl.
    by rewrite transfer_loop_invalid_entry.
Qed.

Lemma Serialize_Nothing_unchanged (input transfer_list_v : Value)
    (iso : Isolate) (msg : Message) e (iso' : Isolate) msg' :
  Serialize input transfer_list_v iso msg = Some (Nothing e, iso', msg') →
  iso' = iso ∧ msg' = msg.
Proof.
  unfold Serialize. intros Hrun.
  destruct (negb _); [done|]. simpl in Hrun.
  destruct (register_transfers _ _ _) as [[[abs ser]|e']|]; simpl in Hrun;
    [|by injection Hrun as <- <- <-|done].
  destruct (WriteValue _ _ _) as [ser'|e'']; [|by injection Hrun as <- <- <-].
  destruct (externalize_loop _ _ _) as [[iso1 msg1]|]; done.
Qed.

(** C1.  [Serialize] on an empty message.  A failure of the transfer list
    or of the body write is a failure of [Serialize] that leaves the
    isolate and the message as they were.  Whenever [Serialize] returns
    [Nothing], isolate and message are unchanged; when it returns [Just],
    the body was written from the isolate as it was before any buffer was
    taken, the message holds that blob and the regions of the registered
    buffers, each of which is now external and neutered, and no other
    buffer changed. *)
Theorem Serialize_two_phase_commit (input transfer_list_v : Value)
    (iso : Isolate) (msg : Message) :
  is_empty (main_message_buf_ msg) = true →
  (∀ e, register_transfers transfer_list_v new_ValueSerializer iso = Some (Nothing e) →
        Serialize input transfer_list_v iso msg = Some (Nothing e, iso, msg))
  ∧ (∀ abs ser e,
       register_transfers transfer_list_v new_ValueSerializer iso = Some (Just (abs, ser)) →
       WriteValue iso input (WriteHeader ser) = Nothing e →
       Serialize input transfer_list_v iso msg = Some (Nothing e, iso, msg))
  ∧ (∀ result (iso' : Isolate) msg',
       Serialize input transfer_list_v iso msg = Some (result, iso', msg') →
       match result with
       | Nothing _ => iso' = iso ∧ msg' = msg
       | Just _ =>
           ∃ abs ser ser',
             register_transfers transfer_list_v new_ValueSerializer iso
               = Some (Just (abs, ser)) ∧
             WriteValue iso input (WriteHeader ser) = Just ser' ∧
             main_message_buf_ msg' = Some (ser_buffer ser') ∧
             array_buffer_contents_ msg' =
               array_buffer_contents_ msg ++ ((λ ab, backing_store <$> iso !! ab) <$> abs) ∧
             (∀ ab, ab ∈ abs →
                ∃ b, iso !! ab = Some b ∧ is_external b = false ∧
                     iso' !! ab = Some (mkArrayBuffer (is_neuterable b) true true [])) ∧
             (∀ ab, ab ∉ abs → iso' !! ab = iso !! ab)
       end).
Proof.
  intros Hempty. unfold Serialize. rewrite Hempty. simpl. split_and!.
  - intros e ->. done.
  - intros abs ser e -> Hwrite. simpl. by rewrite Hwrite.
  - intros result iso' msg' Hrun.
    destruct (register_transfers _ _ _) as [[[abs ser]|e]|]; simpl in Hrun;
      [|by injection Hrun as <- <- <-|done].
    destruct (WriteValue _ _ _) as [ser'|e] eqn:Hwrite;
      [|by injection Hrun as <- <- <-].
    destruct (externalize_loop _ _ _) as [[iso1 msg1]|] eqn:Hext; [|done].
    simpl in Hrun. injection Hrun as <- <- <-.
    apply externalize_loop_spec in Hext as (_ & _ & Hcont & Hin & Hout).
    exists abs, ser, ser'. done.
Qed.

End SerializeFacts.

(* A message with one region that the decoder refuses: the region is a
   new buffer 0 of the isolate all the same. *)
Lemma Deserialize_hands_over_all_buffers_witness :
  array_buffer_contents_
    (@Deserialize sample_codec ∅ (mkMessage None [Some [x07]])).2 = [] ∧
  (@Deserialize sample_codec ∅ (mkMessage None [Some [x07]])).1
    = (None, {[ 0 := mkArrayBuffer true false false [x07] ]}).
Proof.
  split; [|by vm_compute].
  exact (proj1 (@Deserialize_hands_over_all_buffers sample_codec ∅
                  (mkMessage None [Some [x07]]))).
Defined.

(* In the sample isolate the buffer 5 is plain and the buffer 6 external. *)
Example sample_isolate_transferable :
  transferable sample_isolate 5 = true ∧ transferable sample_isolate 6 = false.
Proof. by vm_compute. Qed.

(* The external buffer 6 is skipped and the buffer 5 gets the id 0. *)
Lemma transfer_list_semantics_witness :
  Forall (array_buffer_entry sample_isolate)
         [Some (ArrayBufferRef 6); Some (ArrayBufferRef 5)] ∧
  transfer_loop [Some (ArrayBufferRef 6); Some (ArrayBufferRef 5)] []
                new_ValueSerializer sample_isolate
    = Some (Just ([5], mkSerializer [(0, 5)] [])).
Proof.
  assert (Hall : Forall (array_buffer_entry sample_isolate)
                        [Some (ArrayBufferRef 6); Some (ArrayBufferRef 5)]).
  { apply Forall_cons; split; [|apply Forall_cons; split; [|apply Forall_nil_2]];
      eexists; (split; [reflexivity|]); vm_compute; eauto. }
  split; [exact Hall|].
  exact (proj1 (@transfer_list_semantics sample_codec _ _ Hall)).
Defined.

(** C2 as the specification has it fails: the external buffer 6 is
    posted with itself as the transfer list.  It is skipped, and the
    sample encoder, which copies the array buffers it was not told to
    transfer, writes its byte into the blob. *)
Lemma skipped_buffer_is_copied :
  transferable sample_isolate 6 = false ∧
  backing_store <$> sample_isolate !! 6 = Some [x03] ∧
  @Serialize sample_codec (ArrayBufferRef 6) (ArrayRef [Some (ArrayBufferRef 6)])
             sample_isolate empty_Message
    = Some (Just true, sample_isolate, mkMessage (Some [xff; x0d; x03]) []).
Proof. split_and!; by vm_compute. Qed.

(* A function cannot be cloned: the post fails and the buffer 5 of the
   transfer list stays where it is. *)
Lemma Serialize_two_phase_commit_witness :
  is_empty (main_message_buf_ empty_Message) = true ∧
  @Serialize sample_codec (Other 0) (ArrayRef [Some (ArrayBufferRef 5)])
             sample_isolate empty_Message
    = Some (Nothing DataCloneError, sample_isolate, empty_Message).
Proof.
  split; [reflexivity|].
  eapply (proj1 (proj2 (@Serialize_two_phase_commit sample_codec (Other 0)
            (ArrayRef [Some (ArrayBufferRef 5)]) sample_isolate empty_Message
            eq_refl))).
  - by vm_compute.
  - by vm_compute.
Defined.

(** ** Posting *)

Section PostFacts.
Context `{ValueCodec}.

Lemma set_env_same (e : EnvId) (env : Environment) (w : World) :
  envs w !! e = Some env →
  set_env e (mkEnv (isolate env) (can_call_into_js env)) w = w.
Proof.
  intros Henv. destruct w as [es ps ds ms t], env as [iso can].
  unfold set_env. simpl in *. by rewrite insert_id.
Qed.

(** C7.  [postMessage] on a port without [data_] throws
    ERR_CLOSED_MESSAGE_PORT, and on a port with [data_] and no argument
    ERR_MISSING_ARGS; either way the world is returned as it was: nothing
    was serialized, no queue and no array buffer changed. *)
Theorem PostMessage_closed_or_missing_args (p : PortId) (args : list Value)
    (w : World) (port : MessagePort) :
  ports w !! p = Some port →
  (data_ port = None →
   PostMessage p args w = Some (w, Some ERR_CLOSED_MESSAGE_PORT))
  ∧ (is_Some (data_ port) → args = [] →
     PostMessage p args w = Some (w, Some ERR_MISSING_ARGS)).
Proof.
  intros Hport. unfold PostMessage. rewrite Hport. split.
  - intros ->. rewrite bool_decide_eq_false_2; [done|]. by intros [? ?].
  - intros Hdata ->. by rewrite bool_decide_eq_true_2.
Qed.

(** C6.  A post on a port whose data has no sibling.  When [Serialize]
    succeeds the call returns without an exception; no queue and no trace
    changes, so the message is nowhere.  When [Serialize] fails the
    exception is what the caller gets, and the world is as it was. *)
Theorem Send_without_sibling (p : PortId) (args : list Value) (w : World)
    (port : MessagePort) (d : DataId) (x : MessagePortData) (env : Environment)
    (result : Maybe bool) (iso' : Isolate) (msg : Message) :
  ports w !! p = Some port →
  data_ port = Some d →
  datas w !! d = Some x →
  sibling_ x = None →
  envs w !! port_env port = Some env →
  Serialize (nth 0 args Undefined) (nth 1 args Undefined) (isolate env) empty_Message
    = Some (result, iso', msg) →
  match result with
  | Just _ =>
      ∃ w', MessagePort_Send_args p args w = Some (w', None) ∧
            (args ≠ [] → PostMessage p args w = Some (w', None)) ∧
            datas w' = datas w ∧ trace w' = trace w ∧ ports w' = ports w
  | Nothing e =>
      MessagePort_Send_args p args w = Some (w, Some e) ∧
      (args ≠ [] → PostMessage p args w = Some (w, Some e))
  end.
Proof.
  intros Hport Hdata Hx Hsib Henv Hser.
  assert (Hpost : ∀ r, args ≠ [] → MessagePort_Send_args p args w = r →
                       PostMessage p args w = r).
  { intros r Hargs <-. unfold PostMessage. rewrite Hport, Hdata.
    rewrite bool_decide_eq_true_2 by eauto. simpl.
    rewrite bool_decide_eq_false_2; [done|]. by destruct args. }
  destruct result as [b|e].
  - eexists. split_and!.
    + unfold MessagePort_Send_args. rewrite Hport. simpl. rewrite Henv. simpl.
      rewrite Hser. simpl. unfold MessagePort_Send. simpl.
      rewrite Hport. simpl. rewrite Hdata. simpl. rewrite Hx. simpl.
      rewrite Hsib. reflexivity.
    + intros Hargs. apply Hpost; [done|].
      unfold MessagePort_Send_args. rewrite Hport. simpl. rewrite Henv. simpl.
      rewrite Hser. simpl. unfold MessagePort_Send. simpl.
      rewrite Hport. simpl. rewrite Hdata. simpl. rewrite Hx. simpl.
      rewrite Hsib. reflexivity.
    + done.
    + done.
    + done.
  - assert (Hrun : MessagePort_Send_args p args w = Some (w, Some e)).
    { unfold MessagePort_Send_args. rewrite Hport. simpl. rewrite Henv. simpl.
      rewrite Hser. simpl.
      apply Serialize_Nothing_unchanged in Hser as [-> ->].
      by rewrite set_env_same. }
    split; [done|]. intros Hargs. by apply Hpost.
Qed.

End PostFacts.

(* Port 0 of [orphaned_world] was closed and has lost its data. *)
Lemma PostMessage_closed_or_missing_args_witness :
  ports orphaned_world !! 0 = Some (mkPort 0 None kClosed) ∧
  @PostMessage sample_codec 0 [Other 1] orphaned_world
    = Some (orphaned_world, Some ERR_CLOSED_MESSAGE_PORT).
Proof.
  assert (Hport : ports orphaned_world !! 0 = Some (mkPort 0 None kClosed))
    by (by vm_compute).
  split; [exact Hport|].
  exact (proj1 (@PostMessage_closed_or_missing_args sample_codec 0 [Other 1]
                  orphaned_world _ Hport) eq_refl).
Defined.

(* Port 1 of [orphaned_world] has its data, and the data has no sibling. *)
Lemma Send_without_sibling_witness :
  ∃ w', @MessagePort_Send_args sample_codec 1 [Other 1] orphaned_world
          = Some (w', None) ∧
        ([Other 1] ≠ [] →
         @PostMessage sample_codec 1 [Other 1] orphaned_world = Some (w', None)) ∧
        datas w' = datas orphaned_world ∧
        trace w' = trace orphaned_world ∧
        ports w' = ports orphaned_world.
Proof.
  apply (@Send_without_sibling sample_codec 1 [Other 1] orphaned_world
           (mkPort 0 (Some 1) kInitialized) 1
           (mkData [number_message] false (Some 1) None 1)
           (mkEnv sample_isolate true)
           (Just true) sample_isolate number_message);
    by vm_compute.
Defined.

(** ** The delivery loop *)

Section DeliveryFacts.
Context `{ValueCodec} `{UserCode}.

(** When the loop is left other than by [return], the port has lost its
    data, or it is not receiving, or its queue is empty. *)
Lemma OnMessage_loop_end (fuel : nat) :
  ∀ p w w1,
    OnMessage_loop fuel p w = Some (LoopEnd, w1) →
    ∃ port, ports w1 !! p = Some port ∧
      (data_ port = None ∨
       ∃ d x, data_ port = Some d ∧ datas w1 !! d = Some x ∧
              (receiving_messages_ x = false ∨ incoming_messages_ x = [])).
Proof.
  induction fuel as [|fuel IH]; intros p w w1 Hrun; [done|].
  simpl in Hrun.
  destruct (ports w !! p) as [port|] eqn:Hport; [|done]. simpl in Hrun.
  destruct (data_ port) as [d|] eqn:Hdata.
  2:{ injection Hrun as <-. exists port. auto. }
  destruct (datas w !! d) as [x|] eqn:Hx; [|done]. simpl in Hrun.
  destruct (receiving_messages_ x) eqn:Hrecv; simpl in Hrun.
  2:{ injection Hrun as <-. exists port. split; [done|]. right. exists d, x. auto. }
  destruct (incoming_messages_ x) as [|received rest] eqn:Hq.
  { injection Hrun as <-. exists port. split; [done|]. right. exists d, x. auto. }
  destruct (envs w !! port_env port) as [env|]; [|done]. simpl in Hrun.
  destruct (can_call_into_js env); simpl in Hrun; [|by eapply IH].
  destruct (Deserialize (isolate env) received) as [[arg iso] consumed].
  unfold reschedule in Hrun.
  destruct arg as [v|]; [|by simplify_option_eq; repeat case_match].
  destruct (Has_onmessage _ _); simpl in Hrun;
    [|by simplify_option_eq; repeat case_match].
  destruct (onmessage _ _ _) as [calls returned].
  destruct (run_script fuel calls _) as [w2|]; [|done]. simpl in Hrun.
  destruct returned; [by eapply IH|].
  by simplify_option_eq; repeat case_match.
Qed.

Lemma reschedule_port (p : PortId) (w : World) exit w1 :
  reschedule p w = Some (exit, w1) → is_Some (ports w1 !! p).
Proof.
  unfold reschedule. intros Hrun.
  destruct (ports w !! p) as [port|] eqn:Hport; [|done]. simpl in Hrun.
  destruct (data_ port); injection Hrun as <- <-; simpl; eauto.
Qed.

Lemma OnMessage_loop_port (fuel : nat) :
  ∀ p w exit w1,
    OnMessage_loop fuel p w = Some (exit, w1) → is_Some (ports w1 !! p).
Proof.
  induction fuel as [|fuel IH]; intros p w exit w1 Hrun; [done|].
  simpl in Hrun.
  destruct (ports w !! p) as [port|] eqn:Hport; [|done]. simpl in Hrun.
  destruct (data_ port) as [d|] eqn:Hdata; [|injection Hrun as <- <-; eauto].
  destruct (datas w !! d) as [x|] eqn:Hx; [|done]. simpl in Hrun.
  destruct (receiving_messages_ x); simpl in Hrun;
    [|injection Hrun as <- <-; eauto].
  destruct (incoming_messages_ x) as [|received rest];
    [injection Hrun as <- <-; eauto|].
  destruct (envs w !! port_env port) as [env|]; [|done]. simpl in Hrun.
  destruct (can_call_into_js env); simpl in Hrun; [|by eapply IH].
  destruct (Deserialize (isolate env) received) as [[arg iso] consumed].
  destruct arg as [v|]; [|by eapply reschedule_port].
  destruct (Has_onmessage _ _); simpl in Hrun; [|by eapply reschedule_port].
  destruct (onmessage _ _ _) as [calls returned].
  destruct (run_script fuel calls _) as [w2|]; [|done]. simpl in Hrun.
  destruct returned; [by eapply IH | by eapply reschedule_port].
Qed.

(** C3, as the code has it.  [OnMessage] closes the port exactly when the
    loop is left other than by [return], the port still has its data and
    the data has no sibling.  The queue is not looked at: at that point
    it is empty or the port is not receiving.  In particular, on a port
    that is not receiving or has an empty queue, [OnMessage] returns at
    once, having closed the port if and only if the data has no sibling. *)
Theorem OnMessage_closes_without_sibling (fuel : nat) (p : PortId) (w : World)
    (port : MessagePort) :
  ports w !! p = Some port →
  (∀ w', OnMessage fuel p w = Some w' →
     ∃ exit w1 port1,
       OnMessage_loop fuel p w = Some (exit, w1) ∧ ports w1 !! p = Some port1 ∧
       ((exit = LoopEnd ∧
         ∃ d x, data_ port1 = Some d ∧ datas w1 !! d = Some x ∧ sibling_ x = None ∧
                (receiving_messages_ x = false ∨ incoming_messages_ x = []) ∧
                Close p w1 = Some w')
        ∨ (w' = w1 ∧
           (exit = LoopReturn ∨ data_ port1 = None ∨
            ∃ d x, data_ port1 = Some d ∧ datas w1 !! d = Some x ∧
                   is_Some (sibling_ x)))))
  ∧ (∀ d x,
       data_ port = Some d → datas w !! d = Some x →
       receiving_messages_ x = false ∨ incoming_messages_ x = [] →
       OnMessage (S fuel) p w =
         match sibling_ x with
         | None => Close p w
         | Some _ => Some w
         end).
Proof.
  intros Hport0. split.
  - unfold OnMessage. intros w' Hrun.
    destruct (OnMessage_loop fuel p w) as [[[|] w1]|] eqn:Hloop; [| |done].
    + destruct (OnMessage_loop_end _ _ _ _ Hloop) as (port1 & Hport & Hend).
      exists LoopEnd, w1, port1. split_and!; [done..|].
      rewrite Hport in Hrun. simpl in Hrun.
      destruct Hend as [Hnone|(d & x & Hdata & Hx & Hend)].
      { rewrite Hnone in Hrun. injection Hrun as <-. auto. }
      rewrite Hdata in Hrun. unfold MessagePortData_IsSiblingClosed in Hrun.
      rewrite Hx in Hrun. simpl in Hrun.
      destruct (sibling_ x) as [s|] eqn:Hsib; simpl in Hrun.
      * injection Hrun as <-.
        right. split; [done|]. right. right. exists d, x. rewrite Hsib. eauto.
      * left. split; [done|]. exists d, x. auto.
    + injection Hrun as <-.
      destruct (OnMessage_loop_port _ _ _ _ _ Hloop) as [port1 Hport].
      exists LoopReturn, w1, port1. split_and!; [done..|]. right. auto.
  - intros d x Hdata Hx Hidle.
    assert (Hloop : OnMessage_loop (S fuel) p w = Some (LoopEnd, w)).
    { simpl. rewrite Hport0. simpl. rewrite Hdata, Hx. simpl.
      destruct Hidle as [-> | Hq]; [done|].
      rewrite Hq. by destruct (receiving_messages_ x). }
    unfold OnMessage. rewrite Hloop, Hport0. simpl. rewrite Hdata.
    unfold MessagePortData_IsSiblingClosed. rewrite Hx. simpl.
    by destruct (sibling_ x).
Qed.

(** C4, as the code has it.  An iteration of the loop that finds at the
    head of the queue a message on which [Deserialize] fails: the message
    is removed from the queue, [uv_async_send] is signalled, the loop is
    left by [return] and [OnMessage] returns.  The trace grows by these
    two events only: no handler is called, and the port is not closed. *)
Theorem OnMessage_Deserialize_failure (fuel : nat) (p : PortId) (w : World)
    (port : MessagePort) (d : DataId) (x : MessagePortData)
    (received : Message) (rest : list Message) (env : Environment) :
  ports w !! p = Some port →
  data_ port = Some d →
  datas w !! d = Some x →
  receiving_messages_ x = true →
  incoming_messages_ x = received :: rest →
  envs w !! port_env port = Some env →
  can_call_into_js env = true →
  (Deserialize (isolate env) received).1.1 = None →
  ∃ w', OnMessage_loop (S fuel) p w = Some (LoopReturn, w') ∧
        OnMessage (S fuel) p w = Some w' ∧
        queue_of d w' = rest ∧
        trace w' = trace w ++ [pop_front d received; uv_async_send p] ∧
        ports w' = ports w.
Proof.
  intros Hport Hdata Hx Hrecv Hq Henv Hcan Hfail.
  destruct (Deserialize (isolate env) received) as [[arg iso] consumed] eqn:Hde.
  simpl in Hfail. subst arg.
  exists (TriggerAsync p
            (set_env (port_env port) (mkEnv iso true)
               (log (pop_front d received) (set_data d (with_incoming rest x) w)))).
  assert (Hloop : OnMessage_loop (S fuel) p w =
                    Some (LoopReturn,
                          TriggerAsync p
                            (set_env (port_env port) (mkEnv iso true)
                               (log (pop_front d received)
                                    (set_data d (with_incoming rest x) w))))).
  { simpl. rewrite Hport. simpl. rewrite Hdata, Hx. simpl.
    rewrite Hrecv, Hq. simpl. rewrite Henv. simpl. rewrite Hcan, Hde. simpl.
    unfold reschedule. simpl. rewrite Hport. simpl. rewrite Hdata. reflexivity. }
  split_and!.
  - exact Hloop.
  - unfold OnMessage. by rewrite Hloop.
  - unfold queue_of. simpl. by rewrite lookup_insert_eq.
  - simpl. by rewrite <- app_assoc.
  - done.
Qed.

End DeliveryFacts.

(** C3 as the specification has it fails: port 1 is not receiving and
    holds a message when its sibling goes away; the async callback closes
    it all the same, with the message still in the queue. *)
Lemma OnMessage_closes_port_with_pending_message :
  MessagePortData_IsSiblingClosed 1 orphaned_world = Some true ∧
  queue_of 1 orphaned_world = [number_message] ∧
  state_ <$> ports orphaned_world !! 1 = Some kInitialized ∧
  ∃ w', @OnMessage sample_codec quiet_user 3 1 orphaned_world = Some w' ∧
        queue_of 1 w' = [number_message] ∧
        state_ <$> ports w' !! 1 = Some kClosing ∧
        trace w' = trace orphaned_world ++ [uv_close 1].
Proof.
  split_and!; [by vm_compute..|].
  exists orphan_closing_world. split_and!; by vm_compute.
Qed.

(* Port 1 of [orphaned_world] is not receiving and its data has no
   sibling. *)
Lemma OnMessage_closes_without_sibling_witness :
  ports orphaned_world !! 1 = Some (mkPort 0 (Some 1) kInitialized) ∧
  @OnMessage sample_codec quiet_user 3 1 orphaned_world = Close 1 orphaned_world.
Proof.
  assert (Hport : ports orphaned_world !! 1 = Some (mkPort 0 (Some 1) kInitialized))
    by (by vm_compute).
  split; [exact Hport|].
  apply (proj2 (@OnMessage_closes_without_sibling sample_codec quiet_user 2 1
                  orphaned_world _ Hport)
               1 (mkData [number_message] false (Some 1) None 1)).
  - done.
  - by vm_compute.
  - by left.
Defined.

(** C4 as the specification has it fails: port 1 has a handler, and the
    message it cannot read is removed from the queue without any call of
    the handler. *)
Lemma OnMessage_failure_calls_no_handler :
  @Has_onmessage quiet_user unreadable_world 1 = true ∧
  queue_of 1 unreadable_world = [unreadable_message] ∧
  (@Deserialize sample_codec sample_isolate unreadable_message).1.1 = None ∧
  ∃ w', @OnMessage sample_codec quiet_user 3 1 unreadable_world = Some w' ∧
        queue_of 1 w' = [] ∧
        trace w' = trace unreadable_world
                   ++ [pop_front 1 unreadable_message; uv_async_send 1] ∧
        delivered 1 (trace w') = [].
Proof.
  split_and!; [by vm_compute..|].
  eexists. split_and!; [by vm_compute|by vm_compute..].
Qed.

Lemma OnMessage_Deserialize_failure_witness :
  ∃ w', @OnMessage_loop sample_codec quiet_user 1 1 unreadable_world
          = Some (LoopReturn, w') ∧
        @OnMessage sample_codec quiet_user 1 1 unreadable_world = Some w' ∧
        queue_of 1 w' = [] ∧
        trace w' = trace unreadable_world
                   ++ [pop_front 1 unreadable_message; uv_async_send 1] ∧
        ports w' = ports unreadable_world.
Proof.
  eapply (@OnMessage_Deserialize_failure sample_codec quiet_user 0 1
            unreadable_world (mkPort 0 (Some 1) kInitialized) 1
            (mkData [unreadable_message] true (Some 1) (Some 0) 1)
            unreadable_message [] (mkEnv sample_isolate true));
    by vm_compute.
Defined.

(** ** Adoption of a [MessagePortData] *)

Section AdoptFacts.
Context `{UserCode}.
Variable exec : list JsCall → World → option World.

(** C9, as the code has it.  [MessagePort::New] with a [MessagePortData]:
    when it returns a port, the port owns the data, the data names the
    port as its owner, and the last thing done was [uv_async_send] on the
    port, whatever the queue of the data holds.  And it does return a
    port, for any data of the store, when there is no [oninit] hook. *)
Theorem MessagePort_New_adopt_signals (env : EnvId) (d : DataId)
    (w : World) (x : MessagePortData) :
  datas w !! d = Some x →
  (∀ p w',
     MessagePort_New exec env (Some d) w = Some (Some p, w') →
     ∃ w1 port x1,
       w' = TriggerAsync p w1 ∧
       trace w' = trace w1 ++ [uv_async_send p] ∧
       ports w1 !! p = Some port ∧ data_ port = Some d ∧
       datas w1 !! d = Some x1 ∧ owner_ x1 = Some p ∧
       queue_of d w' = queue_of d w1)
  ∧ ((∀ w0 p0, oninit w0 p0 = None) →
     ∃ w', MessagePort_New exec env (Some d) w
             = Some (Some (fresh (dom (ports w))), w')).
Proof.
  intros Hd. split.
  - unfold MessagePort_New. intros p w' Hrun.
    destruct (MessagePort_ctor exec env w) as [[[port returned] w0]|] eqn:Hctor;
      [|done].
    destruct returned.
    2:{ destruct (MessagePortData_dtor d w0); simpl in Hrun; done. }
    destruct (Detach port w0) as [[born_with w2]|] eqn:H2; [|done]. simpl in Hrun.
    destruct (MessagePortData_dtor born_with w2) as [w3|] eqn:H3; [|done].
    simpl in Hrun.
    destruct (upd_port port _ w3) as [w4|] eqn:H4; [|done]. simpl in Hrun.
    destruct (upd_data d _ w4) as [w5|] eqn:H5; [|done]. simpl in Hrun.
    injection Hrun as <- <-.
    unfold upd_port, upd_data in H4, H5.
    destruct (ports w3 !! port) as [port3|] eqn:Hport; [|done]. simpl in H4.
    injection H4 as <-. simpl in H5.
    destruct (datas w3 !! d) as [x3|] eqn:Hx; [|done]. simpl in H5.
    injection H5 as <-.
    eexists _, _, _. split_and!; [reflexivity|reflexivity|..].
    + simpl. apply lookup_insert_eq.
    + done.
    + simpl. apply lookup_insert_eq.
    + done.
    + done.
  - intros Hinit.
    unfold MessagePort_New, MessagePort_ctor, make_shared_Mutex. simpl.
    rewrite Hinit.
    set (p0 := fresh (dom (ports w))).
    set (d0 := fresh (dom (datas w))).
    assert (Hne : d0 ≠ d).
    { intros Heq. pose proof (is_fresh (dom (datas w))) as Hfresh.
      apply not_elem_of_dom in Hfresh. fold d0 in Hfresh. congruence. }
    unfold Detach, upd_data, upd_port. simpl.
    rewrite lookup_insert_eq. simpl. rewrite lookup_insert_eq. simpl.
    rewrite lookup_insert_eq. simpl.
    unfold MessagePortData_dtor, MessagePortData_Disentangle, make_shared_Mutex,
      PingOwnerAfterDisentanglement. simpl.
    rewrite lookup_insert_eq. simpl. rewrite lookup_insert_eq. simpl.
    rewrite lookup_insert_eq. simpl.
    rewrite !lookup_insert_ne by done. rewrite Hd. simpl.
    eexists. reflexivity.
Qed.

End AdoptFacts.


(** C9 as the specification has it fails: the queue of the adopted data is
    empty, and the wake-up of the new port is signalled. *)
Lemma adopt_signals_with_empty_queue :
  queue_of 1 channel_world = [] ∧
  @step sample_codec quiet_user 3 (Transfer 1 0) channel_world = Some adopted_world ∧
  data_ <$> ports adopted_world !! 2 = Some (Some 1) ∧
  trace adopted_world = trace channel_world ++ [uv_async_send 2].
Proof. split_and!; by vm_compute. Qed.

Lemma MessagePort_New_adopt_signals_witness :
  datas detached_world !! 1 = Some (mkData [] false None (Some 0) 1) ∧
  ∃ w1 port x1,
    adopted_world = TriggerAsync 2 w1 ∧
    trace adopted_world = trace w1 ++ [uv_async_send 2] ∧
    ports w1 !! 2 = Some port ∧ data_ port = Some 1 ∧
    datas w1 !! 1 = Some x1 ∧ owner_ x1 = Some 2 ∧
    queue_of 1 adopted_world = queue_of 1 w1.
Proof.
  assert (Hd : datas detached_world !! 1 = Some (mkData [] false None (Some 0) 1))
    by (by vm_compute).
  split; [exact Hd|].
  apply (proj1 (@MessagePort_New_adopt_signals quiet_user
                  (@run_script sample_codec quiet_user 3) 0 1
                  detached_world _ Hd) 2 adopted_world).
  by vm_compute.
Defined.

(** ** The queue discipline *)

(* Case analysis on the lookups in updated stores. *)
Ltac map_cases :=
  repeat match goal with
  | H : context [<[?i := _]> _ !! ?j] |- _ =>
      rewrite lookup_insert in H; destruct (decide (i = j)); simplify_eq/=
  | |- context [<[?i := _]> _ !! ?j] =>
      rewrite lookup_insert; destruct (decide (i = j)); simplify_eq/=
  end.

(* Unfold the binds of a function that returned. *)
Ltac run_binds H :=
  repeat (simplify_option_eq || case_match); simpl in *.

Ltac queues_crush :=
  intros ?; unfold queue_of, enqueued, dequeued, delivered; simpl;
  rewrite ?omap_app; simpl; rewrite ?app_nil_r;
  map_cases;
  repeat match goal with
  | H : datas _ !! _ = _ |- _ => rewrite H
  end; done.

Lemma same_queues_refl (w : World) : same_queues w w.
Proof. by intros d. Qed.

Lemma same_queues_trans (w1 w2 w3 : World) :
  same_queues w1 w2 → same_queues w2 w3 → same_queues w1 w3.
Proof.
  intros H12 H23 d. destruct (H12 d) as (<- & <- & <- & <-). apply H23.
Qed.

Lemma same_queues_fifo (w w' : World) : same_queues w w' → fifo w → fifo w'.
Proof.
  intros Hsame Hfifo d. destruct (Hsame d) as (-> & -> & -> & ->). apply Hfifo.
Qed.

Lemma Ping_same_queues d w w' :
  PingOwnerAfterDisentanglement d w = Some w' → same_queues w w'.
Proof.
  unfold PingOwnerAfterDisentanglement, TriggerAsync. intros Hrun.
  run_binds Hrun; queues_crush.
Qed.

Lemma Disentangle_same_queues d w w' :
  MessagePortData_Disentangle d w = Some w' → same_queues w w'.
Proof.
  unfold MessagePortData_Disentangle, PingOwnerAfterDisentanglement,
    TriggerAsync, upd_data.
  intros Hrun. run_binds Hrun; queues_crush.
Qed.

Lemma upd_port_same_queues p f w w' : upd_port p f w = Some w' → same_queues w w'.
Proof. unfold upd_port. intros Hrun. run_binds Hrun; queues_crush. Qed.

Lemma upd_data_same_queues d f w w' :
  (∀ x, incoming_messages_ (f x) = incoming_messages_ x) →
  upd_data d f w = Some w' → same_queues w w'.
Proof.
  unfold upd_data. intros Hf Hrun. run_binds Hrun.
  intros d'. unfold queue_of. simpl. split; [|done].
  map_cases; [by rewrite Hf, Heqo | done].
Qed.

Lemma dtor_same_queues d w w' :
  MessagePortData_dtor d w = Some w' → same_queues w w'.
Proof.
  unfold MessagePortData_dtor. intros Hrun.
  destruct (datas w !! d); [|done]. simpl in Hrun.
  destruct (negb _); [done|]. by eapply Disentangle_same_queues.
Qed.

Lemma Entangle_same_queues a b w w' :
  MessagePortData_Entangle a b w = Some w' → same_queues w w'.
Proof.
  unfold MessagePortData_Entangle. intros Hrun.
  destruct (datas w !! a) as [xa|]; [|done]. simpl in Hrun.
  destruct (datas w !! b) as [xb|]; [|done]. simpl in Hrun.
  destruct (negb _); [done|]. destruct (negb _); [done|].
  destruct (upd_data a _ w) as [w1|] eqn:H1; [|done]. simpl in Hrun.
  destruct (upd_data b _ w1) as [w2|] eqn:H2; [|done]. simpl in Hrun.
  destruct (datas w2 !! b) as [xb2|]; [|done]. simpl in Hrun.
  eapply same_queues_trans; [by (eapply upd_data_same_queues; [|eassumption])|].
  eapply same_queues_trans; [by (eapply upd_data_same_queues; [|eassumption])|].
  by (eapply upd_data_same_queues; [|eassumption]).
Qed.

Lemma MessagePort_Entangle_same_queues a b w w' :
  MessagePort_Entangle a b w = Some w' → same_queues w w'.
Proof.
  unfold MessagePort_Entangle. intros Hrun.
  destruct (ports w !! a) as [pa|]; [|done]. simpl in Hrun.
  destruct (ports w !! b) as [pb|]; [|done]. simpl in Hrun.
  destruct (data_ pa); [|done]. simpl in Hrun.
  destruct (data_ pb); [|done]. simpl in Hrun.
  by eapply Entangle_same_queues.
Qed.

Lemma Close_same_queues p w w' : Close p w = Some w' → same_queues w w'.
Proof. unfold Close. intros Hrun. run_binds Hrun; queues_crush. Qed.

Lemma set_env_same_queues e env w : same_queues w (set_env e env w).
Proof. by intros d. Qed.

Lemma TriggerAsync_same_queues p w : same_queues w (TriggerAsync p w).
Proof. unfold TriggerAsync. queues_crush. Qed.

Lemma Detach_same_queues p w d w' : Detach p w = Some (d, w') → same_queues w w'.
Proof.
  unfold Detach. intros Hrun.
  destruct (ports w !! p) as [port|]; [|done]. simpl in Hrun.
  destruct (data_ port) as [d0|]; [|done]. simpl in Hrun.
  destruct (upd_data d0 _ w) as [w1|] eqn:H1; [|done]. simpl in Hrun.
  destruct (upd_port p _ w1) as [w2|] eqn:H2; [|done]. simpl in Hrun.
  injection Hrun as <- <-.
  eapply same_queues_trans; [by (eapply upd_data_same_queues; [|eassumption])|].
  by eapply upd_port_same_queues.
Qed.

Lemma OnClose_same_queues p w w' : OnClose p w = Some w' → same_queues w w'.
Proof.
  intros Hrun. apply OnClose_inv in Hrun as (port & w0 & _ & Hrun & Hdel).
  apply delete_async_inv in Hdel as (_ & _ & _ & _ & Hd & _ & Ht).
  assert (Hlast : same_queues w0 w').
  { intros d. unfold queue_of. by rewrite Hd, Ht. }
  eapply same_queues_trans; [|exact Hlast].
  destruct (data_ port) as [d|]; simpl in Hrun.
  - destruct (upd_data d _ w) as [w1|] eqn:H1; [|done]. simpl in Hrun.
    destruct (MessagePortData_Disentangle d w1) as [w2|] eqn:H2; [|done].
    simpl in Hrun.
    destruct (upd_port p _ w2) as [w3|] eqn:H3; [|done]. simpl in Hrun.
    eapply same_queues_trans; [by (eapply upd_data_same_queues; [|eassumption])|].
    eapply same_queues_trans; [by eapply Disentangle_same_queues|].
    eapply same_queues_trans; [by eapply upd_port_same_queues|].
    by eapply dtor_same_queues.
  - injection Hrun as <-. apply same_queues_refl.
Qed.

(** Start and Stop toggle [receiving_messages_] and leave every queue as
    it is. *)
Lemma Start_same_queues p w w' : MessagePort_Start p w = Some w' → same_queues w w'.
Proof.
  unfold MessagePort_Start, TriggerAsync. intros Hrun.
  run_binds Hrun; queues_crush.
Qed.

Lemma Stop_same_queues p w w' : MessagePort_Stop p w = Some w' → same_queues w w'.
Proof.
  unfold MessagePort_Stop. intros Hrun.
  destruct (ports w !! p) as [port|]; [|done]. simpl in Hrun.
  destruct (data_ port) as [d|]; [|done]. simpl in Hrun.
  by (eapply upd_data_same_queues; [|eassumption]).
Qed.

(** Appending to a queue, and removing its head. *)
Lemma AddToIncomingQueue_fifo d message w w' :
  MessagePortData_AddToIncomingQueue d message w = Some w' → fifo w → fifo w'.
Proof.
  unfold MessagePortData_AddToIncomingQueue. intros Hrun Hfifo.
  destruct (datas w !! d) as [x|] eqn:Hx; [|done]. simpl in Hrun.
  assert (Hlog : fifo (log (emplace_back d message)
                    (set_data d (with_incoming (incoming_messages_ x ++ [message]) x) w))).
  { intros d'. destruct (Hfifo d') as [Heq Hsub].
    unfold queue_of, enqueued, dequeued, delivered in *. simpl.
    rewrite !omap_app. simpl. rewrite !app_nil_r.
    split; [|done].
    rewrite lookup_insert. destruct (decide (d = d')) as [->|Hne]; simpl.
    - rewrite Heq, Hx. by rewrite app_assoc.
    - by rewrite app_nil_r. }
  destruct (owner_ x); injection Hrun as <-; [|done].
  eapply same_queues_fifo; [apply TriggerAsync_same_queues|done].
Qed.

Lemma pop_front_fifo d x received rest w :
  datas w !! d = Some x →
  incoming_messages_ x = received :: rest →
  fifo w →
  fifo (log (pop_front d received) (set_data d (with_incoming rest x) w)).
Proof.
  intros Hx Hq Hfifo d'. destruct (Hfifo d') as [Heq Hsub].
  unfold queue_of, enqueued, dequeued, delivered in *. simpl.
  rewrite !omap_app. simpl. rewrite !app_nil_r.
  rewrite lookup_insert. destruct (decide (d = d')) as [->|Hne]; simpl.
  - split.
    + rewrite Heq, Hx, Hq. by rewrite <- app_assoc.
    + by apply sublist_inserts_r.
  - by rewrite app_nil_r.
Qed.

Lemma call_onmessage_fifo p d x received rest v w w2 :
  datas w !! d = Some x →
  incoming_messages_ x = received :: rest →
  fifo w →
  same_queues (log (pop_front d received) (set_data d (with_incoming rest x) w)) w2 →
  fifo (log (call_onmessage p d received v) w2).
Proof.
  intros Hx Hq Hfifo Hsame d'.
  destruct (Hsame d') as (Hq2 & He2 & Hd2 & Hc2).
  destruct (Hfifo d') as [Heq Hsub].
  unfold queue_of, enqueued, dequeued, delivered in *. simpl in *.
  rewrite !omap_app in *. simpl in *. rewrite !app_nil_r in *.
  rewrite Hq2, He2, Hd2, Hc2. clear Hq2 He2 Hd2 Hc2.
  rewrite lookup_insert. destruct (decide (d = d')) as [->|Hne]; simpl.
  - split.
    + rewrite Heq, Hx, Hq. by rewrite <- app_assoc.
    + by apply sublist_app.
  - by rewrite !app_nil_r.
Qed.

Section FifoPreserved.
Context `{ValueCodec} `{UserCode}.

Lemma MessagePort_Send_fifo p message w w' :
  MessagePort_Send p message w = Some w' → fifo w → fifo w'.
Proof.
  unfold MessagePort_Send. intros Hrun Hfifo.
  destruct (ports w !! p) as [port|]; [|done]. simpl in Hrun.
  destruct (data_ port) as [d|]; [|done]. simpl in Hrun.
  destruct (datas w !! d) as [x|]; [|done]. simpl in Hrun.
  destruct (sibling_ x) as [s|]; [|by injection Hrun as <-].
  by eapply AddToIncomingQueue_fifo.
Qed.

Lemma PostMessage_fifo p args w w' thrown :
  PostMessage p args w = Some (w', thrown) → fifo w → fifo w'.
Proof.
  unfold PostMessage, MessagePort_Send_args. intros Hrun Hfifo.
  destruct (ports w !! p) as [port|]; [|by injection Hrun as <- <-].
  destruct (negb _); [by injection Hrun as <- <-|].
  destruct (bool_decide _); [by injection Hrun as <- <-|].
  simpl in Hrun.
  destruct (envs w !! port_env port) as [env|]; [|done]. simpl in Hrun.
  destruct (Serialize _ _ _ _) as [[[result iso] msg]|]; [|done]. simpl in Hrun.
  assert (fifo (set_env (port_env port) (mkEnv iso (can_call_into_js env)) w))
    by (eapply same_queues_fifo; [apply set_env_same_queues|done]).
  destruct result as [b|e]; [|by injection Hrun as <- <-].
  destruct (MessagePort_Send _ _ _) as [w1|] eqn:Hsend; [|done].
  injection Hrun as <- <-. by eapply MessagePort_Send_fifo.
Qed.

Lemma Start_fifo p w w' thrown : Start p w = Some (w', thrown) → fifo w → fifo w'.
Proof.
  unfold Start. intros Hrun Hfifo.
  destruct (ports w !! p) as [port|]; [|by injection Hrun as <- <-].
  destruct (negb _); [by injection Hrun as <- <-|].
  destruct (MessagePort_Start p w) as [w1|] eqn:Hstart; [|done].
  injection Hrun as <- <-.
  eapply same_queues_fifo; [by eapply Start_same_queues|done].
Qed.

Lemma Stop_fifo p w w' thrown : Stop p w = Some (w', thrown) → fifo w → fifo w'.
Proof.
  unfold Stop. intros Hrun Hfifo.
  destruct (ports w !! p) as [port|]; [|by injection Hrun as <- <-].
  destruct (negb _); [by injection Hrun as <- <-|].
  destruct (MessagePort_Stop p w) as [w1|] eqn:Hstop; [|done].
  injection Hrun as <- <-.
  eapply same_queues_fifo; [by eapply Stop_same_queues|done].
Qed.

Lemma Close_js_fifo p w w' thrown : Close_js p w = Some (w', thrown) → fifo w → fifo w'.
Proof.
  unfold Close_js. intros Hrun Hfifo.
  destruct (ports w !! p) as [port|]; [|by injection Hrun as <- <-].
  destruct (Close p w) as [w1|] eqn:Hclose; [|done].
  injection Hrun as <- <-.
  eapply same_queues_fifo; [by eapply Close_same_queues|done].
Qed.

Section WithExec.
Variable exec : list JsCall → World → option World.
Hypothesis exec_fifo : ∀ cs w w', exec cs w = Some w' → fifo w → fifo w'.

Lemma MessagePort_ctor_fifo env w p returned w' :
  MessagePort_ctor exec env w = Some (p, returned, w') → fifo w → fifo w'.
Proof.
  unfold MessagePort_ctor, make_shared_Mutex. simpl. intros Hrun Hfifo.
  set (w1 := set_port _ _ _) in Hrun.
  assert (Hw1 : fifo w1).
  { eapply same_queues_fifo; [|done]. intros d.
    unfold queue_of, w1. simpl. split; [|done].
    rewrite lookup_insert. destruct (decide _) as [<-|]; [|done].
    simpl. by rewrite (proj1 (not_elem_of_dom _ _) (is_fresh (dom (datas w)))). }
  destruct (oninit w1 _) as [[init r]|]; [|by injection Hrun as <- <- <-].
  destruct (exec init w1) as [w2|] eqn:Hexec; [|done].
  injection Hrun as <- <- <-. by eapply exec_fifo.
Qed.

Lemma MessagePort_New_js_fifo env construct w w' thrown :
  MessagePort_New_js exec env construct w = Some (w', thrown) → fifo w → fifo w'.
Proof.
  unfold MessagePort_New_js. intros Hrun Hfifo.
  destruct (negb construct); [by injection Hrun as <- <-|].
  destruct (MessagePort_ctor exec env w) as [[[p r] w1]|] eqn:Hctor; [|done].
  injection Hrun as <- <-. by eapply MessagePort_ctor_fifo.
Qed.

Lemma MessagePort_New_fifo env data w port w' :
  MessagePort_New exec env data w = Some (port, w') → fifo w → fifo w'.
Proof.
  unfold MessagePort_New. intros Hrun Hfifo.
  destruct (MessagePort_ctor exec env w) as [[[p r] w1]|] eqn:Hctor; [|done].
  apply MessagePort_ctor_fifo in Hctor; [|done].
  destruct r, data as [d|]; try by injection Hrun as <- <-.
  - destruct (Detach p w1) as [[born_with w2]|] eqn:H2; [|done]. simpl in Hrun.
    destruct (MessagePortData_dtor born_with w2) as [w3|] eqn:H3; [|done].
    simpl in Hrun.
    destruct (upd_port p _ w3) as [w4|] eqn:H4; [|done]. simpl in Hrun.
    destruct (upd_data d _ w4) as [w5|] eqn:H5; [|done]. simpl in Hrun.
    injection Hrun as <- <-.
    eapply same_queues_fifo; [|exact Hctor].
    eapply same_queues_trans; [by eapply Detach_same_queues|].
    eapply same_queues_trans; [by eapply dtor_same_queues|].
    eapply same_queues_trans; [by eapply upd_port_same_queues|].
    eapply same_queues_trans; [by (eapply upd_data_same_queues; [|eassumption])|].
    apply TriggerAsync_same_queues.
  - destruct (MessagePortData_dtor d w1) as [w2|] eqn:H2; [|done].
    injection Hrun as <- <-.
    eapply same_queues_fifo; [by eapply dtor_same_queues|done].
Qed.

Lemma MessageChannel_fifo env construct w w' thrown :
  MessageChannel exec env construct w = Some (w', thrown) → fifo w → fifo w'.
Proof.
  unfold MessageChannel. intros Hrun Hfifo.
  destruct (negb construct); [by injection Hrun as <- <-|].
  destruct (MessagePort_New exec env None w) as [[port1 w1]|] eqn:H1; [|done].
  simpl in Hrun.
  destruct (MessagePort_New exec env None w1) as [[port2 w2]|] eqn:H2; [|done].
  simpl in Hrun.
  destruct port1 as [port1|]; [|done]. destruct port2 as [port2|]; [|done].
  simpl in Hrun.
  destruct (MessagePort_Entangle port1 port2 w2) as [w3|] eqn:H3; [|done].
  injection Hrun as <- <-.
  eapply same_queues_fifo; [by eapply MessagePort_Entangle_same_queues|].
  eapply MessagePort_New_fifo; [exact H2|].
  by eapply MessagePort_New_fifo.
Qed.

Lemma run_call_fifo c w w' thrown :
  run_call exec c w = Some (w', thrown) → fifo w → fifo w'.
Proof.
  destruct c; simpl.
  - apply MessagePort_New_js_fifo.
  - apply MessageChannel_fifo.
  - apply PostMessage_fifo.
  - apply Start_fifo.
  - apply Stop_fifo.
  - apply Close_js_fifo.
Qed.

Lemma run_calls_fifo cs : ∀ w w', run_calls exec cs w = Some w' → fifo w → fifo w'.
Proof.
  induction cs as [|c cs IH]; intros w w' Hrun Hfifo; simpl in Hrun.
  - by injection Hrun as <-.
  - destruct (run_call exec c w) as [[w1 thrown]|] eqn:Hcall; [|done].
    simpl in Hrun. eapply IH; [done|]. by eapply run_call_fifo.
Qed.

End WithExec.

Lemma run_script_fifo fuel :
  ∀ cs w w', run_script fuel cs w = Some w' → fifo w → fifo w'.
Proof.
  induction fuel as [|fuel IH]; intros cs w w' Hrun; [done|].
  simpl in Hrun. by eapply run_calls_fifo.
Qed.

Lemma reschedule_same_queues p w exit w' :
  reschedule p w = Some (exit, w') → same_queues w w'.
Proof.
  unfold reschedule. intros Hrun.
  destruct (ports w !! p) as [port|]; [|done]. simpl in Hrun.
  destruct (data_ port); injection Hrun as <- <-;
    [apply TriggerAsync_same_queues | apply same_queues_refl].
Qed.

Lemma OnMessage_loop_fifo fuel :
  ∀ p w exit w', OnMessage_loop fuel p w = Some (exit, w') → fifo w → fifo w'.
Proof.
  induction fuel as [|fuel IH]; intros p w exit w' Hrun Hfifo; [done|].
  simpl in Hrun.
  destruct (ports w !! p) as [port|] eqn:Hport; [|done]. simpl in Hrun.
  destruct (data_ port) as [d|] eqn:Hdata; [|by injection Hrun as <- <-].
  destruct (datas w !! d) as [x|] eqn:Hx; [|done]. simpl in Hrun.
  destruct (receiving_messages_ x); simpl in Hrun; [|by injection Hrun as <- <-].
  destruct (incoming_messages_ x) as [|received rest] eqn:Hq;
    [by injection Hrun as <- <-|].
  pose proof (pop_front_fifo _ _ _ _ _ Hx Hq Hfifo) as Hpop.
  destruct (envs w !! port_env port) as [env|]; [|done]. simpl in Hrun.
  destruct (can_call_into_js env); simpl in Hrun; [|by eapply IH].
  destruct (Deserialize (isolate env) received) as [[arg iso] consumed].
  set (w1 := set_env _ _ _) in Hrun.
  assert (Hsame : same_queues
            (log (pop_front d received) (set_data d (with_incoming rest x) w)) w1)
    by apply set_env_same_queues.
  pose proof (same_queues_fifo _ _ Hsame Hpop) as Hw1.
  destruct arg as [v|];
    [|by eapply same_queues_fifo; [eapply reschedule_same_queues|]].
  destruct (Has_onmessage w1 p); simpl in Hrun;
    [|by eapply same_queues_fifo; [eapply reschedule_same_queues|]].
  destruct (onmessage w1 p v) as [calls returned].
  pose proof (call_onmessage_fifo p _ _ _ _ v _ _ Hx Hq Hfifo Hsame) as Hcall.
  destruct (run_script fuel calls _) as [w2|] eqn:Hscript; [|done].
  simpl in Hrun. apply run_script_fifo in Hscript; [|done].
  destruct returned; [by eapply IH|].
  by eapply same_queues_fifo; [eapply reschedule_same_queues|].
Qed.

Lemma OnMessage_fifo fuel p w w' : OnMessage fuel p w = Some w' → fifo w → fifo w'.
Proof.
  unfold OnMessage. intros Hrun Hfifo.
  destruct (OnMessage_loop fuel p w) as [[[|] w1]|] eqn:Hloop; [| |done];
    apply OnMessage_loop_fifo in Hloop; [|done| |done].
  - destruct (ports w1 !! p) as [port|]; [|done]. simpl in Hrun.
    destruct (data_ port) as [d|]; [|by injection Hrun as <-].
    destruct (MessagePortData_IsSiblingClosed d w1) as [[|]|]; [| |done].
    + eapply same_queues_fifo; [by eapply Close_same_queues|done].
    + by injection Hrun as <-.
  - by injection Hrun as <-.
Qed.

Lemma step_fifo fuel a w w' : step fuel a w = Some w' → fifo w → fifo w'.
Proof.
  destruct a as [c|p|p|p env]; simpl; intros Hrun Hfifo.
  - by eapply run_script_fifo.
  - by eapply OnMessage_fifo.
  - destruct (upd_port p _ w) as [w1|] eqn:H1; [|done]. simpl in Hrun.
    eapply same_queues_fifo; [by eapply OnClose_same_queues|].
    eapply same_queues_fifo; [by eapply upd_port_same_queues|done].
  - destruct (Detach p w) as [[d w1]|] eqn:H1; [|done]. simpl in Hrun.
    destruct (MessagePort_New _ env (Some d) w1) as [[port w2]|] eqn:H2; [|done].
    injection Hrun as <-.
    eapply MessagePort_New_fifo; [apply run_script_fifo|exact H2|].
    eapply same_queues_fifo; [by eapply Detach_same_queues|done].
Qed.

Lemma run_fifo fuel acts : ∀ w w', run fuel acts w = Some w' → fifo w → fifo w'.
Proof.
  induction acts as [|a acts IH]; intros w w' Hrun Hfifo; simpl in Hrun.
  - by injection Hrun as <-.
  - destruct (step fuel a w) as [w1|] eqn:Hstep; [|done]. simpl in Hrun.
    eapply IH; [done|]. by eapply step_fifo.
Qed.

End FifoPreserved.

(* The elements of a sublist keep their order in the list. *)
Lemma sublist_lookup_one {A} (l1 l2 : list A) :
  sublist l1 l2 → ∀ i a, l1 !! i = Some a → ∃ i', l2 !! i' = Some a.
Proof.
  intros Hsub i a Hi. apply list_elem_of_lookup.
  eapply sublist_subseteq; [done|]. by eapply list_elem_of_lookup_2.
Qed.

Lemma sublist_lookup_pair {A} (l1 l2 : list A) :
  sublist l1 l2 →
  ∀ i j a b, i < j → l1 !! i = Some a → l1 !! j = Some b →
    ∃ i' j', i' < j' ∧ l2 !! i' = Some a ∧ l2 !! j' = Some b.
Proof.
  induction 1 as [|x l1 l2 Hsub IH|x l1 l2 Hsub IH]; intros i j a b Hij Hi Hj.
  - done.
  - destruct j as [|j]; [lia|]. destruct i as [|i]; simpl in *.
    + injection Hi as ->.
      destruct (sublist_lookup_one _ _ Hsub _ _ Hj) as [j' Hj'].
      exists 0, (S j'). split_and!; [lia|done..].
    + destruct (IH i j a b ltac:(lia) Hi Hj) as (i' & j' & Hlt & Hi' & Hj').
      exists (S i'), (S j'). split_and!; [lia|done..].
  - destruct (IH i j a b Hij Hi Hj) as (i' & j' & Hlt & Hi' & Hj').
    exists (S i'), (S j'). split_and!; [lia|done..].
Qed.

Section FifoTheorem.
Context `{ValueCodec} `{UserCode}.

(** C8.  Whatever the ports go through, in a world that kept the queue
    discipline: [AddToIncomingQueue] appends at the back; Start and Stop
    leave every queue as it is; and afterwards, for every port data, the
    messages appended to its queue are those removed from it, in the same
    order, followed by those still in it, and the messages its
    [onmessage] handler was called with are among them in the order they
    were appended: of two messages the handler saw, the first was
    appended before the second. *)
Theorem fifo_delivery (fuel : nat) (acts : list Action) (w w' : World) :
  fifo w →
  run fuel acts w = Some w' →
  (∀ d message w1 w2,
     MessagePortData_AddToIncomingQueue d message w1 = Some w2 →
     queue_of d w2 = queue_of d w1 ++ [message])
  ∧ (∀ p w1 w2,
       MessagePort_Start p w1 = Some w2 ∨ MessagePort_Stop p w1 = Some w2 →
       ∀ d, queue_of d w2 = queue_of d w1)
  ∧ ∀ d,
      enqueued d (trace w') = dequeued d (trace w') ++ queue_of d w'
      ∧ sublist (delivered d (trace w')) (enqueued d (trace w'))
      ∧ ∀ i j a b,
          i < j →
          delivered d (trace w') !! i = Some a →
          delivered d (trace w') !! j = Some b →
          ∃ i' j', i' < j' ∧ enqueued d (trace w') !! i' = Some a
                   ∧ enqueued d (trace w') !! j' = Some b.
Proof.
  intros Hfifo Hrun. split_and!.
  - intros d message w1 w2 Hadd. unfold MessagePortData_AddToIncomingQueue in Hadd.
    unfold queue_of.
    destruct (datas w1 !! d) as [x|]; [|done]. simpl in Hadd.
    destruct (owner_ x); injection Hadd as <-; simpl; by rewrite lookup_insert_eq.
  - intros p w1 w2 [Hstart|Hstop] d.
    + by destruct (Start_same_queues _ _ _ Hstart d).
    + by destruct (Stop_same_queues _ _ _ Hstop d).
  - intros d. destruct (run_fifo _ _ _ _ Hrun Hfifo d) as [Heq Hsub].
    assert (Hsub' : sublist (delivered d (trace w')) (enqueued d (trace w'))).
    { rewrite Heq. by apply sublist_inserts_r. }
    split_and!; [done..|].
    by apply sublist_lookup_pair.
Qed.

End FifoTheorem.

Lemma sample_world_fifo : fifo sample_world.
Proof. intros d. split; [done|]. apply sublist_nil_l. Qed.

Lemma channel_world_fifo : fifo channel_world.
Proof.
  eapply (@run_fifo sample_codec quiet_user 3 [RunJs (js_MessageChannel 0 true)]);
    [|apply sample_world_fifo].
  by vm_compute.
Qed.

(* The two messages are delivered in the order of the two posts. *)
Lemma fifo_delivery_witness :
  delivered 1 (trace two_posts_world) = [number_message; undefined_message] ∧
  enqueued 1 (trace two_posts_world) = [number_message; undefined_message] ∧
  sublist (delivered 1 (trace two_posts_world)) (enqueued 1 (trace two_posts_world)).
Proof.
  split; [by vm_compute|]. split; [by vm_compute|].
  apply (@fifo_delivery sample_codec quiet_user 3 two_posts
           channel_world two_posts_world channel_world_fifo).
  by vm_compute.
Defined.

(** ** Entanglement *)

Lemma closed_stays_refl w : closed_stays w w.
Proof. intros d x Hx. eauto. Qed.

Lemma closed_stays_trans w1 w2 w3 :
  closed_stays w1 w2 → closed_stays w2 w3 → closed_stays w1 w3.
Proof.
  intros H12 H23 d x Hx.
  destruct (H12 _ _ Hx) as (x2 & Hx2 & Hc2).
  destruct (H23 _ _ Hx2) as (x3 & Hx3 & Hc3). eauto.
Qed.

Lemma ports_stay_refl w : ports_stay w w.
Proof. intros p port Hp. eauto. Qed.

Lemma ports_stay_trans w1 w2 w3 :
  ports_stay w1 w2 → ports_stay w2 w3 → ports_stay w1 w3.
Proof.
  intros H12 H23 p port Hp.
  destruct (H12 _ _ Hp) as (p2 & Hp2 & Hd2).
  destruct (H23 _ _ Hp2) as (p3 & Hp3 & Hd3). exists p3. split; congruence.
Qed.

(* Updates that keep the stores of port data, or of ports, as they are. *)
Lemma same_datas_closed_stays w w' : datas w' = datas w → closed_stays w w'.
Proof. intros Heq d x Hx. rewrite Heq. eauto. Qed.

Lemma same_ports_stay w w' : ports w' = ports w → ports_stay w w'.
Proof. intros Heq p port Hp. rewrite Heq. eauto. Qed.

Lemma upd_data_closed_stays d f w w' :
  (∀ x, sibling_ x = None → sibling_ (f x) = None) →
  upd_data d f w = Some w' → closed_stays w w'.
Proof.
  unfold upd_data. intros Hf Hrun d' x' Hx'.
  destruct (datas w !! d) as [x|] eqn:Hx; [|done]. injection Hrun as <-. simpl.
  rewrite lookup_insert. destruct (decide (d = d')) as [->|]; [|eauto].
  exists (f x). split; [done|]. intros Hnone. apply Hf. congruence.
Qed.

Lemma upd_data_ports d f w w' : upd_data d f w = Some w' → ports w' = ports w.
Proof.
  unfold upd_data. intros Hrun.
  destruct (datas w !! d); [|done]. by injection Hrun as <-.
Qed.

Lemma upd_port_datas p f w w' : upd_port p f w = Some w' → datas w' = datas w.
Proof.
  unfold upd_port. intros Hrun.
  destruct (ports w !! p); [|done]. by injection Hrun as <-.
Qed.

Lemma upd_port_ports_stay p f w w' :
  (∀ x, data_ (f x) = data_ x) → upd_port p f w = Some w' → ports_stay w w'.
Proof.
  unfold upd_port. intros Hf Hrun p' port' Hp'.
  destruct (ports w !! p) as [port|] eqn:Hp; [|done]. injection Hrun as <-. simpl.
  rewrite lookup_insert. destruct (decide (p = p')) as [->|]; [|eauto].
  exists (f port). split; [done|]. rewrite Hf. congruence.
Qed.

Lemma Ping_datas d w w' :
  PingOwnerAfterDisentanglement d w = Some w' →
  datas w' = datas w ∧ ports w' = ports w.
Proof.
  unfold PingOwnerAfterDisentanglement. intros Hrun.
  destruct (datas w !! d) as [x|]; [|done]. simpl in Hrun.
  by destruct (owner_ x); injection Hrun as <-.
Qed.

Lemma Disentangle_ports d w w' :
  MessagePortData_Disentangle d w = Some w' → ports w' = ports w.
Proof.
  unfold MessagePortData_Disentangle, make_shared_Mutex. intros Hrun.
  destruct (datas w !! d) as [x|]; [|done]. simpl in Hrun.
  set (w0 := set_data _ _ _) in Hrun.
  assert (H0 : ports w0 = ports w) by done.
  destruct (sibling_ x) as [s|]; simpl in Hrun.
  - destruct (upd_data s _ w0) as [w1|] eqn:H1; [|done]. simpl in Hrun.
    destruct (upd_data d _ w1) as [w2|] eqn:H2; [|done]. simpl in Hrun.
    destruct (PingOwnerAfterDisentanglement d w2) as [w3|] eqn:H3; [|done].
    simpl in Hrun.
    apply upd_data_ports in H1, H2. apply Ping_datas in H3 as [_ H3].
    apply Ping_datas in Hrun as [_ Hrun]. congruence.
  - destruct (PingOwnerAfterDisentanglement d w0) as [w3|] eqn:H3; [|done].
    simpl in Hrun. injection Hrun as <-.
    apply Ping_datas in H3 as [_ H3]. congruence.
Qed.

Lemma Disentangle_closed_stays d w w' :
  MessagePortData_Disentangle d w = Some w' → closed_stays w w'.
Proof.
  unfold MessagePortData_Disentangle, make_shared_Mutex. intros Hrun.
  destruct (datas w !! d) as [x|] eqn:Hx; [|done]. simpl in Hrun.
  set (w0 := set_data _ _ _) in Hrun.
  assert (H0 : closed_stays w w0).
  { intros d' x' Hx'. unfold w0. simpl.
    rewrite lookup_insert. destruct (decide (d = d')) as [->|]; [|eauto].
    eexists. split; [done|]. simpl. congruence. }
  destruct (sibling_ x) as [s|]; simpl in Hrun.
  - destruct (upd_data s _ w0) as [w1|] eqn:H1; [|done]. simpl in Hrun.
    destruct (upd_data d _ w1) as [w2|] eqn:H2; [|done]. simpl in Hrun.
    destruct (PingOwnerAfterDisentanglement d w2) as [w3|] eqn:H3; [|done].
    simpl in Hrun.
    apply upd_data_closed_stays in H1; [|done].
    apply upd_data_closed_stays in H2; [|done].
    apply Ping_datas in H3 as [H3 _]. apply Ping_datas in Hrun as [Hrun _].
    eapply closed_stays_trans; [exact H0|].
    eapply closed_stays_trans; [exact H1|].
    eapply closed_stays_trans; [exact H2|].
    apply same_datas_closed_stays. congruence.
  - destruct (PingOwnerAfterDisentanglement d w0) as [w3|] eqn:H3; [|done].
    simpl in Hrun. injection Hrun as <-.
    apply Ping_datas in H3 as [H3 _].
    eapply closed_stays_trans; [exact H0|]. by apply same_datas_closed_stays.
Qed.

Lemma dtor_closed_stays d w w' :
  MessagePortData_dtor d w = Some w' → closed_stays w w' ∧ ports w' = ports w.
Proof.
  unfold MessagePortData_dtor. intros Hrun.
  destruct (datas w !! d); [|done]. simpl in Hrun.
  destruct (negb _); [done|].
  split; [by eapply Disentangle_closed_stays | by eapply Disentangle_ports].
Qed.

Lemma Close_frame p w w' :
  Close p w = Some w' → datas w' = datas w ∧ ports_stay w w'.
Proof.
  unfold Close. intros Hrun.
  destruct (ports w !! p) as [port|] eqn:Hp; [|done]. simpl in Hrun.
  destruct (state_ port); injection Hrun as <-;
    (split; [done|]); try apply ports_stay_refl.
  intros p' port' Hp'. simpl.
  rewrite lookup_insert. destruct (decide (p = p')) as [->|]; [|eauto].
  eexists. split; [done|]. simpl. congruence.
Qed.

Lemma Detach_closed_stays p w d w' :
  Detach p w = Some (d, w') → closed_stays w w'.
Proof.
  unfold Detach. intros Hrun.
  destruct (ports w !! p) as [port|]; [|done]. simpl in Hrun.
  destruct (data_ port) as [d0|]; [|done]. simpl in Hrun.
  destruct (upd_data d0 _ w) as [w1|] eqn:H1; [|done]. simpl in Hrun.
  destruct (upd_port p _ w1) as [w2|] eqn:H2; [|done]. simpl in Hrun.
  injection Hrun as <- <-.
  apply upd_data_closed_stays in H1; [|done]. apply upd_port_datas in H2.
  eapply closed_stays_trans; [exact H1|]. by apply same_datas_closed_stays.
Qed.

Lemma OnClose_closed_stays p w w' : OnClose p w = Some w' → closed_stays w w'.
Proof.
  intros Hrun. apply OnClose_inv in Hrun as (port & w0 & _ & Hrun & Hdel).
  apply delete_async_inv in Hdel as (_ & _ & _ & _ & Hd & _ & _).
  eapply closed_stays_trans; [|by apply same_datas_closed_stays].
  destruct (data_ port) as [d|]; simpl in Hrun.
  - destruct (upd_data d _ w) as [w1|] eqn:H1; [|done]. simpl in Hrun.
    destruct (MessagePortData_Disentangle d w1) as [w2|] eqn:H2; [|done].
    simpl in Hrun.
    destruct (upd_port p _ w2) as [w3|] eqn:H3; [|done]. simpl in Hrun.
    apply upd_data_closed_stays in H1; [|done].
    apply Disentangle_closed_stays in H2. apply upd_port_datas in H3.
    apply dtor_closed_stays in Hrun as [H4 _].
    eapply closed_stays_trans; [exact H1|].
    eapply closed_stays_trans; [exact H2|].
    eapply closed_stays_trans; [by apply same_datas_closed_stays|].
    exact H4.
  - injection Hrun as <-. apply closed_stays_refl.
Qed.

(* [Entangle] changes the two data it is given, and no other. *)
Lemma Entangle_others a b w w' :
  MessagePortData_Entangle a b w = Some w' →
  ports w' = ports w ∧
  ∀ d x, datas w !! d = Some x → d ≠ a → d ≠ b → datas w' !! d = Some x.
Proof.
  unfold MessagePortData_Entangle, upd_data. intros Hrun.
  destruct (datas w !! a) as [xa|]; [|done]. simpl in Hrun.
  destruct (datas w !! b) as [xb|]; [|done]. simpl in Hrun.
  destruct (negb _); [done|]. destruct (negb _); [done|]. simpl in Hrun.
  destruct (_ !! b) as [xb1|] in Hrun; [|done]. simpl in Hrun.
  destruct (_ !! b) as [xb2|] in Hrun; [|done]. simpl in Hrun.
  destruct (_ !! a) as [xa2|] in Hrun; [|done]. simpl in Hrun.
  injection Hrun as <-. split; [done|].
  intros d x Hx Ha Hb. simpl. by rewrite !lookup_insert_ne.
Qed.

Section Frame.
Context `{ValueCodec} `{UserCode}.

Lemma AddToIncomingQueue_frame d message w w' :
  MessagePortData_AddToIncomingQueue d message w = Some w' →
  closed_stays w w' ∧ ports w' = ports w.
Proof.
  unfold MessagePortData_AddToIncomingQueue. intros Hrun.
  destruct (datas w !! d) as [x|] eqn:Hx; [|done]. simpl in Hrun.
  assert (Hc : closed_stays w (set_data d
                 (with_incoming (incoming_messages_ x ++ [message]) x) w)).
  { apply (upd_data_closed_stays d (with_incoming (incoming_messages_ x ++ [message])));
      [done|]. unfold upd_data. by rewrite Hx. }
  destruct (owner_ x); injection Hrun as <-; split; try done;
    (eapply closed_stays_trans; [exact Hc|]); by apply same_datas_closed_stays.
Qed.

Lemma PostMessage_frame p args w w' thrown :
  PostMessage p args w = Some (w', thrown) → closed_stays w w' ∧ ports_stay w w'.
Proof.
  unfold PostMessage, MessagePort_Send_args, MessagePort_Send. intros Hrun.
  assert (Hrefl : closed_stays w w ∧ ports_stay w w)
    by (split; [apply closed_stays_refl | apply ports_stay_refl]).
  destruct (ports w !! p) as [port|] eqn:Hp; [|by injection Hrun as <- <-].
  destruct (negb _); [by injection Hrun as <- <-|].
  destruct (bool_decide _); [by injection Hrun as <- <-|].
  simpl in Hrun.
  destruct (envs w !! port_env port) as [env|]; [|done]. simpl in Hrun.
  destruct (Serialize _ _ _ _) as [[[result iso] msg]|]; [|done]. simpl in Hrun.
  destruct result as [b|e]; [|by injection Hrun as <- <-].
  rewrite Hp in Hrun. simpl in Hrun.
  destruct (data_ port) as [d|]; [|done]. simpl in Hrun.
  destruct (datas w !! d) as [x|]; [|done]. simpl in Hrun.
  destruct (sibling_ x) as [s|]; [|by injection Hrun as <- <-].
  destruct (MessagePortData_AddToIncomingQueue _ _ _) as [w1|] eqn:Hadd; [|done].
  injection Hrun as <- <-.
  apply AddToIncomingQueue_frame in Hadd as [Hc Hports]. split.
  - eapply closed_stays_trans; [|exact Hc]. by apply same_datas_closed_stays.
  - by apply same_ports_stay.
Qed.

Lemma Start_frame p w w' thrown :
  Start p w = Some (w', thrown) → closed_stays w w' ∧ ports_stay w w'.
Proof.
  unfold Start, MessagePort_Start. intros Hrun.
  assert (Hrefl : closed_stays w w ∧ ports_stay w w)
    by (split; [apply closed_stays_refl | apply ports_stay_refl]).
  destruct (ports w !! p) as [port|] eqn:Hp; [|by injection Hrun as <- <-].
  destruct (negb _); [by injection Hrun as <- <-|]. simpl in Hrun.
  destruct (data_ port) as [d|]; [|done]. simpl in Hrun.
  destruct (datas w !! d) as [x|] eqn:Hx; [|done]. simpl in Hrun.
  assert (Hc : closed_stays w (set_data d (with_receiving true x) w)).
  { apply (upd_data_closed_stays d (with_receiving true)); [done|].
    unfold upd_data. by rewrite Hx. }
  destruct (negb _); injection Hrun as <- <-; split;
    try (by apply same_ports_stay);
    (eapply closed_stays_trans; [exact Hc|]); by apply same_datas_closed_stays.
Qed.

Lemma Stop_frame p w w' thrown :
  Stop p w = Some (w', thrown) → closed_stays w w' ∧ ports_stay w w'.
Proof.
  unfold Stop, MessagePort_Stop. intros Hrun.
  assert (Hrefl : closed_stays w w ∧ ports_stay w w)
    by (split; [apply closed_stays_refl | apply ports_stay_refl]).
  destruct (ports w !! p) as [port|] eqn:Hp; [|by injection Hrun as <- <-].
  destruct (negb _); [by injection Hrun as <- <-|]. simpl in Hrun.
  destruct (data_ port) as [d|]; [|done]. simpl in Hrun.
  destruct (upd_data d _ w) as [w1|] eqn:H1; [|done]. injection Hrun as <- <-.
  split.
  - by eapply upd_data_closed_stays; [|exact H1].
  - apply same_ports_stay. by eapply upd_data_ports.
Qed.

Lemma Close_js_frame p w w' thrown :
  Close_js p w = Some (w', thrown) → closed_stays w w' ∧ ports_stay w w'.
Proof.
  unfold Close_js. intros Hrun.
  destruct (ports w !! p) as [port|]; [|injection Hrun as <- <-].
  - destruct (Close p w) as [w1|] eqn:Hclose; [|done]. injection Hrun as <- <-.
    apply Close_frame in Hclose as [Hd Hp].
    split; [by apply same_datas_closed_stays | done].
  - split; [apply closed_stays_refl | apply ports_stay_refl].
Qed.

Section WithExec.
Variable exec : list JsCall → World → option World.
Hypothesis exec_frame :
  ∀ cs w w', exec cs w = Some w' → closed_stays w w' ∧ ports_stay w w'.

(* The constructor adds a port and a data that were not there. *)
Lemma MessagePort_ctor_frame env w p returned w' :
  MessagePort_ctor exec env w = Some (p, returned, w') →
  closed_stays w w' ∧ ports_stay w w' ∧
  ∃ d port', datas w !! d = None ∧ ports w' !! p = Some port' ∧ data_ port' = Some d.
Proof.
  unfold MessagePort_ctor, make_shared_Mutex. simpl. intros Hrun.
  set (p0 := fresh (dom (ports w))) in *.
  set (d0 := fresh (dom (datas w))) in *.
  set (w1 := set_port _ _ _) in Hrun.
  assert (Hd0 : datas w !! d0 = None) by (apply not_elem_of_dom, is_fresh).
  assert (Hp0 : ports w !! p0 = None) by (apply not_elem_of_dom, is_fresh).
  assert (Hc1 : closed_stays w w1).
  { intros d x Hx. unfold w1. simpl. rewrite lookup_insert_ne; [eauto|]. congruence. }
  assert (Hs1 : ports_stay w w1).
  { intros p' port Hp. unfold w1. simpl. rewrite lookup_insert_ne; [eauto|]. congruence. }
  assert (Hp1 : ports w1 !! p0 = Some (mkPort env (Some d0) kInitialized)).
  { unfold w1. simpl. by rewrite lookup_insert_eq. }
  destruct (oninit w1 p0) as [[init r]|].
  - destruct (exec init w1) as [w2|] eqn:Hexec; [|done].
    injection Hrun as <- <- <-.
    destruct (exec_frame _ _ _ Hexec) as [Hc2 Hs2].
    destruct (Hs2 _ _ Hp1) as (port' & Hport' & Hdata').
    split_and!.
    + by eapply closed_stays_trans.
    + by eapply ports_stay_trans.
    + exists d0, port'. done.
  - injection Hrun as <- <- <-. split_and!; [done..|]. eauto.
Qed.

Lemma MessagePort_New_js_frame env construct w w' thrown :
  MessagePort_New_js exec env construct w = Some (w', thrown) →
  closed_stays w w' ∧ ports_stay w w'.
Proof.
  unfold MessagePort_New_js. intros Hrun.
  destruct (negb construct).
  { injection Hrun as <- <-. split; [apply closed_stays_refl | apply ports_stay_refl]. }
  destruct (MessagePort_ctor exec env w) as [[[p r] w1]|] eqn:Hctor; [|done].
  injection Hrun as <- <-.
  apply MessagePort_ctor_frame in Hctor as (? & ? & _). done.
Qed.

Lemma MessagePort_New_fresh_frame env w port w' :
  MessagePort_New exec env None w = Some (port, w') →
  closed_stays w w' ∧ ports_stay w w' ∧
  ∀ p, port = Some p →
       ∃ d port', datas w !! d = None ∧ ports w' !! p = Some port' ∧ data_ port' = Some d.
Proof.
  unfold MessagePort_New. intros Hrun.
  destruct (MessagePort_ctor exec env w) as [[[p r] w1]|] eqn:Hctor; [|done].
  apply MessagePort_ctor_frame in Hctor as (Hc & Hs & Hnew).
  destruct r; injection Hrun as <- <-; split_and!; try done.
  by intros ? [= <-].
Qed.

Lemma MessagePort_New_closed_stays env data w port w' :
  MessagePort_New exec env data w = Some (port, w') → closed_stays w w'.
Proof.
  unfold MessagePort_New. intros Hrun.
  destruct (MessagePort_ctor exec env w) as [[[p r] w1]|] eqn:Hctor; [|done].
  apply MessagePort_ctor_frame in Hctor as (Hc & _ & _).
  destruct r, data as [d|]; try by injection Hrun as <- <-.
  - destruct (Detach p w1) as [[born_with w2]|] eqn:H2; [|done]. simpl in Hrun.
    destruct (MessagePortData_dtor born_with w2) as [w3|] eqn:H3; [|done].
    simpl in Hrun.
    destruct (upd_port p _ w3) as [w4|] eqn:H4; [|done]. simpl in Hrun.
    destruct (upd_data d _ w4) as [w5|] eqn:H5; [|done]. simpl in Hrun.
    injection Hrun as <- <-.
    apply Detach_closed_stays in H2. apply dtor_closed_stays in H3 as [H3 _].
    apply upd_port_datas in H4. apply upd_data_closed_stays in H5; [|done].
    eapply closed_stays_trans; [exact Hc|].
    eapply closed_stays_trans; [exact H2|].
    eapply closed_stays_trans; [exact H3|].
    eapply closed_stays_trans; [by apply same_datas_closed_stays|].
    eapply closed_stays_trans; [exact H5|]. by apply same_datas_closed_stays.
  - destruct (MessagePortData_dtor d w1) as [w2|] eqn:H2; [|done].
    injection Hrun as <- <-. apply dtor_closed_stays in H2 as [H2 _].
    by eapply closed_stays_trans.
Qed.

(** [MessageChannel] entangles the data of its two new ports, which no
    port data of the world before is. *)
Lemma MessageChannel_frame env construct w w' thrown :
  MessageChannel exec env construct w = Some (w', thrown) →
  closed_stays w w' ∧ ports_stay w w'.
Proof.
  unfold MessageChannel, MessagePort_Entangle. intros Hrun.
  destruct (negb construct).
  { injection Hrun as <- <-. split; [apply closed_stays_refl | apply ports_stay_refl]. }
  destruct (MessagePort_New exec env None w) as [[port1 w1]|] eqn:H1; [|done].
  simpl in Hrun.
  destruct (MessagePort_New exec env None w1) as [[port2 w2]|] eqn:H2; [|done].
  simpl in Hrun.
  destruct port1 as [port1|]; [|done]. destruct port2 as [port2|]; [|done].
  simpl in Hrun.
  apply MessagePort_New_fresh_frame in H1 as (Hc1 & Hs1 & Hnew1).
  apply MessagePort_New_fresh_frame in H2 as (Hc2 & Hs2 & Hnew2).
  destruct (Hnew1 _ eq_refl) as (d1 & p1 & Hd1 & Hp1 & Hdata1).
  destruct (Hnew2 _ eq_refl) as (d2 & p2 & Hd2 & Hp2 & Hdata2).
  destruct (Hs2 _ _ Hp1) as (p1' & Hp1' & Hdata1').
  rewrite Hp1', Hp2 in Hrun. simpl in Hrun.
  rewrite Hdata1', Hdata1, Hdata2 in Hrun. simpl in Hrun.
  destruct (MessagePortData_Entangle d1 d2 w2) as [w3|] eqn:H3; [|done].
  injection Hrun as <- <-.
  apply Entangle_others in H3 as [Hports Hothers]. split.
  - intros d x Hx.
    destruct (Hc1 _ _ Hx) as (x1 & Hx1 & Hn1).
    destruct (Hc2 _ _ Hx1) as (x2 & Hx2 & Hn2).
    exists x2. split; [|by auto].
    apply Hothers; [done|congruence|congruence].
  - eapply ports_stay_trans; [exact Hs1|].
    eapply ports_stay_trans; [exact Hs2|]. by apply same_ports_stay.
Qed.

Lemma run_call_frame c w w' thrown :
  run_call exec c w = Some (w', thrown) → closed_stays w w' ∧ ports_stay w w'.
Proof.
  destruct c; simpl.
  - apply MessagePort_New_js_frame.
  - apply MessageChannel_frame.
  - apply PostMessage_frame.
  - apply Start_frame.
  - apply Stop_frame.
  - apply Close_js_frame.
Qed.

Lemma run_calls_frame cs :
  ∀ w w', run_calls exec cs w = Some w' → closed_stays w w' ∧ ports_stay w w'.
Proof.
  induction cs as [|c cs IH]; intros w w' Hrun; simpl in Hrun.
  - injection Hrun as <-. split; [apply closed_stays_refl | apply ports_stay_refl].
  - destruct (run_call exec c w) as [[w1 thrown]|] eqn:Hcall; [|done].
    simpl in Hrun. apply run_call_frame in Hcall as [Hc1 Hs1].
    apply IH in Hrun as [Hc2 Hs2].
    split; [by eapply closed_stays_trans | by eapply ports_stay_trans].
Qed.

End WithExec.

Lemma run_script_frame fuel :
  ∀ cs w w', run_script fuel cs w = Some w' → closed_stays w w' ∧ ports_stay w w'.
Proof.
  induction fuel as [|fuel IH]; intros cs w w' Hrun; [done|].
  simpl in Hrun. by eapply run_calls_frame.
Qed.

Lemma reschedule_datas p w exit w' :
  reschedule p w = Some (exit, w') → datas w' = datas w.
Proof.
  unfold reschedule. intros Hrun.
  destruct (ports w !! p) as [port|]; [|done]. simpl in Hrun.
  by destruct (data_ port); injection Hrun as <- <-.
Qed.

Lemma OnMessage_loop_closed_stays fuel :
  ∀ p w exit w', OnMessage_loop fuel p w = Some (exit, w') → closed_stays w w'.
Proof.
  induction fuel as [|fuel IH]; intros p w exit w' Hrun; [done|].
  simpl in Hrun.
  destruct (ports w !! p) as [port|] eqn:Hport; [|done]. simpl in Hrun.
  destruct (data_ port) as [d|] eqn:Hdata;
    [|injection Hrun as <- <-; apply closed_stays_refl].
  destruct (datas w !! d) as [x|] eqn:Hx; [|done]. simpl in Hrun.
  destruct (receiving_messages_ x); simpl in Hrun;
    [|injection Hrun as <- <-; apply closed_stays_refl].
  destruct (incoming_messages_ x) as [|received rest] eqn:Hq;
    [injection Hrun as <- <-; apply closed_stays_refl|].
  assert (Hpop : closed_stays w (set_data d (with_incoming rest x) w)).
  { apply (upd_data_closed_stays d (with_incoming rest)); [done|].
    unfold upd_data. by rewrite Hx. }
  destruct (envs w !! port_env port) as [env|]; [|done]. simpl in Hrun.
  destruct (can_call_into_js env); simpl in Hrun.
  2:{ apply IH in Hrun. eapply closed_stays_trans; [exact Hpop|].
      eapply closed_stays_trans; [|exact Hrun]. by apply same_datas_closed_stays. }
  destruct (Deserialize (isolate env) received) as [[arg iso] consumed].
  set (w1 := set_env _ _ _) in Hrun.
  assert (Hw1 : closed_stays w w1).
  { eapply closed_stays_trans; [exact Hpop|]. by apply same_datas_closed_stays. }
  assert (Hre : ∀ w2 exit w3, closed_stays w w2 →
                  reschedule p w2 = Some (exit, w3) → closed_stays w w3).
  { intros w2 exit' w3 Hw2 Hr. apply reschedule_datas in Hr.
    eapply closed_stays_trans; [exact Hw2|]. by apply same_datas_closed_stays. }
  destruct arg as [v|]; [|by eapply Hre].
  destruct (Has_onmessage w1 p); simpl in Hrun; [|by eapply Hre].
  destruct (onmessage w1 p v) as [calls returned].
  destruct (run_script fuel calls _) as [w2|] eqn:Hscript; [|done].
  simpl in Hrun. apply run_script_frame in Hscript as [Hscript _].
  assert (Hw2 : closed_stays w w2).
  { eapply closed_stays_trans; [exact Hw1|].
    eapply closed_stays_trans; [|exact Hscript]. by apply same_datas_closed_stays. }
  destruct returned; [|by eapply Hre].
  apply IH in Hrun. by eapply closed_stays_trans.
Qed.

Lemma OnMessage_closed_stays fuel p w w' :
  OnMessage fuel p w = Some w' → closed_stays w w'.
Proof.
  unfold OnMessage. intros Hrun.
  destruct (OnMessage_loop fuel p w) as [[[|] w1]|] eqn:Hloop; [| |done];
    apply OnMessage_loop_closed_stays in Hloop.
  - destruct (ports w1 !! p) as [port|]; [|done]. simpl in Hrun.
    destruct (data_ port) as [d|]; [|by injection Hrun as <-].
    destruct (MessagePortData_IsSiblingClosed d w1) as [[|]|]; [| |done].
    + apply Close_frame in Hrun as [Hd _].
      eapply closed_stays_trans; [exact Hloop|]. by apply same_datas_closed_stays.
    + by injection Hrun as <-.
  - by injection Hrun as <-.
Qed.

Lemma step_closed_stays fuel a w w' : step fuel a w = Some w' → closed_stays w w'.
Proof.
  destruct a as [c|p|p|p env]; simpl; intros Hrun.
  - by apply run_script_frame in Hrun as [? _].
  - by eapply OnMessage_closed_stays.
  - destruct (upd_port p _ w) as [w1|] eqn:H1; [|done]. simpl in Hrun.
    apply upd_port_datas in H1. apply OnClose_closed_stays in Hrun.
    eapply closed_stays_trans; [|exact Hrun]. by apply same_datas_closed_stays.
  - destruct (Detach p w) as [[d w1]|] eqn:H1; [|done]. simpl in Hrun.
    destruct (MessagePort_New _ env (Some d) w1) as [[port w2]|] eqn:H2; [|done].
    injection Hrun as <-.
    apply Detach_closed_stays in H1.
    apply MessagePort_New_closed_stays in H2; [|apply run_script_frame].
    by eapply closed_stays_trans.
Qed.

Lemma run_closed_stays fuel acts :
  ∀ w w', run fuel acts w = Some w' → closed_stays w w'.
Proof.
  induction acts as [|a acts IH]; intros w w' Hrun; simpl in Hrun.
  - injection Hrun as <-. apply closed_stays_refl.
  - destruct (step fuel a w) as [w1|] eqn:Hstep; [|done]. simpl in Hrun.
    apply step_closed_stays in Hstep. apply IH in Hrun.
    by eapply closed_stays_trans.
Qed.

End Frame.

Section DisentangleTheorem.
Context `{ValueCodec} `{UserCode}.

Lemma IsSiblingClosed_stays d w w' :
  closed_stays w w' →
  MessagePortData_IsSiblingClosed d w = Some true →
  MessagePortData_IsSiblingClosed d w' = Some true.
Proof.
  unfold MessagePortData_IsSiblingClosed. intros Hstay Hclosed.
  destruct (datas w !! d) as [x|] eqn:Hx; [|done]. simpl in Hclosed.
  destruct (Hstay _ _ Hx) as (x' & -> & Hnone). simpl.
  injection Hclosed as Hclosed. apply bool_decide_eq_true in Hclosed.
  by rewrite Hnone.
Qed.

(** C5, as the code has it.  [Disentangle] on [a], entangled with [b]:
    [a] gets a mutex that did not exist before the call, [b] keeps the
    one it had, so that the two do not share one; [IsSiblingClosed] is
    true on both, and stays true whatever the ports go through
    afterwards. *)
Theorem Disentangle_separates_siblings (a b : DataId) (xa xb : MessagePortData)
    (w : World) :
  datas w !! a = Some xa →
  sibling_ xa = Some b →
  datas w !! b = Some xb →
  a ≠ b →
  sibling_mutex_ xb ∈ mutexes w →
  ∃ w' xa' xb',
    MessagePortData_Disentangle a w = Some w' ∧
    datas w' !! a = Some xa' ∧ datas w' !! b = Some xb' ∧
    (sibling_mutex_ xa' ∉ mutexes w) ∧
    sibling_mutex_ xb' = sibling_mutex_ xb ∧
    sibling_mutex_ xa' ≠ sibling_mutex_ xb' ∧
    MessagePortData_IsSiblingClosed a w' = Some true ∧
    MessagePortData_IsSiblingClosed b w' = Some true ∧
    ∀ fuel acts w'',
      run fuel acts w' = Some w'' →
      MessagePortData_IsSiblingClosed a w'' = Some true ∧
      MessagePortData_IsSiblingClosed b w'' = Some true.
Proof.
  intros Ha Hsib Hb Hne Hmutex.
  set (m := fresh (mutexes w)).
  assert (Hm : m ∉ mutexes w) by apply is_fresh.
  set (xa' := with_sibling None (with_sibling_mutex m xa)).
  set (xb' := with_sibling None xb).
  assert (Hex : ∃ w', MessagePortData_Disentangle a w = Some w' ∧
                      datas w' !! a = Some xa' ∧ datas w' !! b = Some xb').
  { unfold MessagePortData_Disentangle, make_shared_Mutex,
      PingOwnerAfterDisentanglement, upd_data.
    rewrite Ha. simpl. rewrite Hsib. simpl.
    rewrite lookup_insert_ne by done. rewrite Hb. simpl.
    rewrite lookup_insert_ne by done. rewrite lookup_insert_eq. simpl.
    rewrite lookup_insert_eq. simpl.
    destruct (owner_ xa); simpl;
      (rewrite lookup_insert_ne by done); rewrite lookup_insert_eq; simpl;
      destruct (owner_ xb); simpl; eexists; (split; [reflexivity|]); simpl;
      rewrite lookup_insert_eq; (rewrite lookup_insert_ne by done);
      by rewrite lookup_insert_eq. }
  destruct Hex as (w' & Hrun & Ha' & Hb').
  assert (Hca : MessagePortData_IsSiblingClosed a w' = Some true).
  { unfold MessagePortData_IsSiblingClosed. by rewrite Ha'. }
  assert (Hcb : MessagePortData_IsSiblingClosed b w' = Some true).
  { unfold MessagePortData_IsSiblingClosed. by rewrite Hb'. }
  exists w', xa', xb'. split_and!; try done.
  - simpl. intros Heq. apply Hm. by rewrite Heq.
  - intros fuel acts w'' Hacts. apply run_closed_stays in Hacts.
    split; by eapply IsSiblingClosed_stays.
Qed.

End DisentangleTheorem.

(** C5 as the specification has it fails: after [Disentangle] on the data
    of port 0, the data of port 1 holds the mutex 1 it held before, which
    the two shared; only the data of port 0 has a new one. *)
Lemma Disentangle_keeps_mutex_of_sibling :
  sibling_mutex_ <$> datas channel_world !! 0 = Some 1 ∧
  sibling_mutex_ <$> datas channel_world !! 1 = Some 1 ∧
  1 ∈ mutexes channel_world ∧
  ∃ w', MessagePortData_Disentangle 0 channel_world = Some w' ∧
        sibling_mutex_ <$> datas w' !! 1 = Some 1 ∧
        sibling_mutex_ <$> datas w' !! 0 = Some 2.
Proof.
  split_and!; [by vm_compute..| |].
  - apply (bool_decide_unpack _). by vm_compute.
  - eexists. split_and!; by vm_compute.
Qed.

Lemma Disentangle_separates_siblings_witness :
  ∃ w' xa' xb',
    MessagePortData_Disentangle 0 channel_world = Some w' ∧
    datas w' !! 0 = Some xa' ∧ datas w' !! 1 = Some xb' ∧
    (sibling_mutex_ xa' ∉ mutexes channel_world) ∧
    sibling_mutex_ xb' = 1 ∧
    sibling_mutex_ xa' ≠ sibling_mutex_ xb' ∧
    MessagePortData_IsSiblingClosed 0 w' = Some true ∧
    MessagePortData_IsSiblingClosed 1 w' = Some true ∧
    ∀ fuel acts w'',
      @run sample_codec quiet_user fuel acts w' = Some w'' →
      MessagePortData_IsSiblingClosed 0 w'' = Some true ∧
      MessagePortData_IsSiblingClosed 1 w'' = Some true.
Proof.
  apply (@Disentangle_separates_siblings sample_codec quiet_user 0 1
           (mkData [] false (Some 0) (Some 1) 1)
           (mkData [] false (Some 1) (Some 0) 1) channel_world).
  - by vm_compute.
  - done.
  - by vm_compute.
  - done.
  - apply (bool_decide_unpack _). by vm_compute.
Defined.

(** * More of the file *)

(** ** Serialize and Deserialize together *)

Lemma zip_seq_imap {A} (l : list A) :
  ∀ i, zip (seq i (length l)) l = imap (λ k x, (i + k, x)) l.
Proof.
  induction l as [|x l IH]; intros i; [done|].
  simpl. rewrite Nat.add_0_r. f_equal. rewrite IH.
  apply imap_ext. intros k y _. simpl. f_equal. lia.
Qed.

(* What the transfer loop adds to its two accumulators. *)
Lemma transfer_loop_ids (iso : Isolate) (entries : list (option Value)) :
  ∀ array_buffers serializer array_buffers' serializer',
    transfer_loop entries array_buffers serializer iso
      = Some (Just (array_buffers', serializer')) →
    ∃ new,
      array_buffers' = array_buffers ++ new ∧
      ser_transfers serializer' =
        ser_transfers serializer ++ imap (λ k ab, (length array_buffers + k, ab)) new ∧
      ser_buffer serializer' = ser_buffer serializer.
Proof.
  induction entries as [|e rest IH]; intros abs ser abs' ser' Hrun; simpl in Hrun.
  - injection Hrun as <- <-. exists []. by rewrite !app_nil_r.
  - destruct e as [[| |ab|]|]; try done.
    destruct (iso !! ab) as [b|]; [|done]. simpl in Hrun.
    destruct (negb (is_neuterable b) || is_external b); [by apply IH|].
    apply IH in Hrun as (new & -> & Htr & Hbuf).
    exists (ab :: new). split_and!.
    + by rewrite <- app_assoc.
    + rewrite Htr. simpl. rewrite <- app_assoc. simpl. rewrite Nat.add_0_r.
      do 2 f_equal. rewrite length_app. simpl.
      apply imap_ext. intros k x _. simpl. f_equal. lia.
    + done.
Qed.

Section RoundTrip.
Context `{ValueCodec}.

(** X1.  A message that [Serialize] filled, given to [Deserialize] in any
    isolate: the blob is the header followed by the body the encoder
    wrote with the ids 0, 1, 2, ... of the transferred buffers; the
    decoder is given that blob with the same ids, now naming new buffers
    of the receiving isolate; and the k-th new buffer holds the bytes the
    k-th transferred buffer had, which the sending isolate has lost. *)
Theorem transferred_buffers_round_trip (input transfer_list_v : Value)
    (iso_s : Isolate) (msg0 : Message) (iso_s' : Isolate) (msg : Message)
    (iso_r : Isolate) :
  array_buffer_contents_ msg0 = [] →
  Serialize input transfer_list_v iso_s msg0 = Some (Just true, iso_s', msg) →
  let iso_r' : Isolate := (Deserialize iso_r msg).1.2 in
  ∃ (abs : list AbId) (body : list byte) (new_abs : list AbId),
    WriteValue_body iso_s (imap (λ k ab, (k, ab)) abs) input = Some body ∧
    main_message_buf_ msg = Some (WriteHeader_bytes ++ body) ∧
    length new_abs = length abs ∧
    (Deserialize iso_r msg).1.1 =
      (if ReadHeader_ok (WriteHeader_bytes ++ body)
       then ReadValue_body iso_r' (imap (λ k ab, (k, ab)) new_abs)
                           (WriteHeader_bytes ++ body)
       else None) ∧
    ∀ k ab, abs !! k = Some ab →
      ∃ b ab',
        iso_s !! ab = Some b ∧
        iso_s' !! ab = Some (mkArrayBuffer (is_neuterable b) true true []) ∧
        new_abs !! k = Some ab' ∧
        iso_r !! ab' = None ∧
        iso_r' !! ab' = Some (mkArrayBuffer true false false (backing_store b)).
Proof.
  intros Hcont0 Hser iso_r'. unfold Serialize in Hser.
  destruct (negb _); [done|]. simpl in Hser.
  destruct (register_transfers _ _ _) as [[[abs ser]|e]|] eqn:Hreg;
    simpl in Hser; [|done..].
  assert (Hids : ser_transfers ser = imap (λ k ab, (k, ab)) abs ∧ ser_buffer ser = []).
  { destruct transfer_list_v as [| | |entries]; simpl in Hreg;
      try (by injection Hreg as <- <-).
    apply transfer_loop_ids in Hreg as (new & -> & Htr & Hbuf). done. }
  destruct Hids as [Htr Hbuf].
  unfold WriteValue, WriteHeader in Hser. simpl in Hser.
  rewrite Htr, Hbuf in Hser. simpl in Hser.
  destruct (WriteValue_body iso_s _ input) as [body|] eqn:Hbody; [|done].
  destruct (externalize_loop abs iso_s msg0) as [[iso1 msg1]|] eqn:Hext; [|done].
  simpl in Hser. injection Hser as <- <-.
  apply externalize_loop_spec in Hext as (_ & _ & Hcont & Hin & _).
  rewrite Hcont0 in Hcont. simpl in Hcont.
  unfold iso_r', Deserialize. simpl. rewrite Hcont.
  destruct (attach_array_buffers _ _ _ _) as [[released de'] iso2] eqn:Hatt.
  apply attach_array_buffers_spec in Hatt
    as (new_abs & Hlen & _ & Hde & Hdebuf & Hnew & _).
  rewrite length_fmap in Hlen, Hde. simpl in Hde, Hdebuf.
  rewrite <- Hlen, zip_seq_imap in Hde.
  exists abs, body, new_abs. split_and!; [done..| |].
  - rewrite Hdebuf, Hde. simpl.
    by destruct (ReadHeader_ok _).
  - intros k ab Hk.
    destruct (Hin ab) as (b & Hb & _ & Hb'); [by eapply list_elem_of_lookup_2|].
    destruct (lookup_lt_is_Some_2 new_abs k) as [ab' Hab'].
    { rewrite Hlen. by eapply lookup_lt_Some. }
    destruct (Hnew _ _ Hab') as (Hfresh & c & Hc & Hiso).
    rewrite list_lookup_fmap, Hk in Hc. simpl in Hc. rewrite Hb in Hc.
    injection Hc as <-.
    exists b, ab'. split_and!; try done.
    destruct (ReadHeader_ok _); exact Hiso.
Qed.

(** X2.  A transfer list that is not an array, or of which no entry
    survives (an empty array, or array buffers that are all external or
    not neuterable), is passed over in silence: [Serialize] succeeds
    exactly when the encoder does, copies nothing out of the isolate, and
    the message gets the blob and no region. *)
Theorem Serialize_without_survivors (input transfer_list_v : Value)
    (iso : Isolate) (msg : Message) :
  is_empty (main_message_buf_ msg) = true →
  (IsArrayBuffer transfer_list_v = true ∨ transfer_list_v = Undefined ∨
   (∃ tag, transfer_list_v = Other tag) ∨
   ∃ entries, transfer_list_v = ArrayRef entries ∧
              Forall (array_buffer_entry iso) entries ∧
              surviving_list iso entries = []) →
  Serialize input transfer_list_v iso msg =
    match WriteValue_body iso [] input with
    | Some body =>
        Some (Just true, iso,
              mkMessage (Some (WriteHeader_bytes ++ body)) (array_buffer_contents_ msg))
    | None => Some (Nothing DataCloneError, iso, msg)
    end.
Proof.
  intros Hempty Htl. unfold Serialize. rewrite Hempty. simpl.
  assert (Hreg : register_transfers transfer_list_v new_ValueSerializer iso
                 = Some (Just ([], new_ValueSerializer))).
  { destruct Htl as [Hab|[->|[[tag ->]|(entries & -> & Hall & Hnone)]]].
    - by destruct transfer_list_v.
    - done.
    - done.
    - simpl. rewrite transfer_loop_array_buffers by done.
      rewrite Hnone. done. }
  rewrite Hreg. simpl. unfold WriteValue. simpl.
  by destruct (WriteValue_body iso [] input).
Qed.

(** X3.  An element of the transfer list whose getter throws, after array
    buffers only: [Serialize] fails with that exception, whatever comes
    after the element, and isolate and message stay as they were. *)
Theorem Serialize_throwing_getter (input : Value) (iso : Isolate) (msg : Message)
    (pre post : list (option Value)) :
  is_empty (main_message_buf_ msg) = true →
  Forall (array_buffer_entry iso) pre →
  Serialize input (ArrayRef (pre ++ None :: post)) iso msg
    = Some (Nothing JsException, iso, msg).
Proof.
  intros Hempty Hall. unfold Serialize. rewrite Hempty. simpl.
  assert (Hloop : ∀ abs ser,
            transfer_loop (pre ++ None :: post) abs ser iso = Some (Nothing JsException)).
  { induction pre as [|e rest IH]; intros abs ser; [done|].
    apply Forall_cons in Hall as [(ab & -> & [b Hb]) Hrest]. simpl.
    rewrite Hb. simpl.
    destruct (negb (is_neuterable b) || is_external b); by apply IH. }
  by rewrite Hloop.
Qed.

End RoundTrip.

(** ** Entangling *)

(* What [Entangle] does to two different port data without siblings. *)
Lemma Entangle_result (a b : DataId) (xa xb : MessagePortData) (w : World) :
  datas w !! a = Some xa →
  datas w !! b = Some xb →
  a ≠ b →
  sibling_ xa = None →
  sibling_ xb = None →
  MessagePortData_Entangle a b w =
    Some (set_data a (with_sibling_mutex (sibling_mutex_ xb) (with_sibling (Some b) xa))
            (set_data b (with_sibling (Some a) xb)
               (set_data a (with_sibling (Some b) xa) w))).
Proof.
  intros Ha Hb Hne Hsa Hsb. unfold MessagePortData_Entangle, upd_data.
  rewrite Ha. simpl. rewrite Hb. simpl. rewrite Hsa, Hsb. simpl.
  rewrite lookup_insert_ne by done. rewrite Hb. simpl.
  rewrite lookup_insert_eq. simpl.
  rewrite lookup_insert_ne by done. rewrite lookup_insert_eq. simpl.
  done.
Qed.

(** X4.  [Entangle] on two different port data.  When neither has a
    sibling, each becomes the sibling of the other, [a] takes over the
    mutex of [b], [IsSiblingClosed] is false on both, and nothing else
    changes: no queue, no owner, no other port data, no wake-up.  When
    one of them has a sibling already, the CHECK aborts. *)
Theorem Entangle_links (a b : DataId) (xa xb : MessagePortData) (w : World) :
  datas w !! a = Some xa →
  datas w !! b = Some xb →
  a ≠ b →
  match sibling_ xa, sibling_ xb with
  | None, None =>
      ∃ w', MessagePortData_Entangle a b w = Some w' ∧
            datas w' !! a =
              Some (mkData (incoming_messages_ xa) (receiving_messages_ xa) (owner_ xa)
                           (Some b) (sibling_mutex_ xb)) ∧
            datas w' !! b =
              Some (mkData (incoming_messages_ xb) (receiving_messages_ xb) (owner_ xb)
                           (Some a) (sibling_mutex_ xb)) ∧
            (∀ d, d ≠ a → d ≠ b → datas w' !! d = datas w !! d) ∧
            ports w' = ports w ∧ trace w' = trace w ∧ mutexes w' = mutexes w ∧
            MessagePortData_IsSiblingClosed a w' = Some false ∧
            MessagePortData_IsSiblingClosed b w' = Some false
  | _, _ => MessagePortData_Entangle a b w = None
  end.
Proof.
  intros Ha Hb Hne.
  destruct (sibling_ xa) as [sa|] eqn:Hsa.
  { unfold MessagePortData_Entangle. rewrite Ha. simpl. rewrite Hb. simpl.
    by rewrite Hsa. }
  destruct (sibling_ xb) as [sb|] eqn:Hsb.
  { unfold MessagePortData_Entangle. rewrite Ha. simpl. rewrite Hb. simpl.
    by rewrite Hsa, Hsb. }
  eexists. split; [by apply Entangle_result|].
  unfold MessagePortData_IsSiblingClosed. simpl.
  rewrite lookup_insert_eq.
  rewrite (lookup_insert_ne _ a b) by done. rewrite lookup_insert_eq. simpl.
  split_and!; try done.
  intros d Hda Hdb. by rewrite !lookup_insert_ne.
Qed.

Section ChannelFacts.
Context `{UserCode}.
Variable exec : list JsCall → World → option World.

(** X5.  [new MessageChannel()] when there is no [oninit] hook: two ports
    and two port data that were not there, each port owning one of the
    data, the two data entangled and sharing one new mutex, with empty
    queues and not receiving; every other port and port data is as it
    was, and no wake-up is signalled.  Called without [new], it throws
    ERR_CONSTRUCT_CALL_REQUIRED and changes nothing. *)
Theorem MessageChannel_creates_entangled_pair (env : EnvId) (w : World) :
  (∀ w0 p0, oninit w0 p0 = None) →
  MessageChannel exec env false w = Some (w, Some ERR_CONSTRUCT_CALL_REQUIRED) ∧
  ∃ w' p1 p2 d1 d2 m,
    MessageChannel exec env true w = Some (w', None) ∧
    p1 ≠ p2 ∧ d1 ≠ d2 ∧
    ports w !! p1 = None ∧ ports w !! p2 = None ∧
    datas w !! d1 = None ∧ datas w !! d2 = None ∧
    (m ∉ mutexes w) ∧
    ports w' !! p1 = Some (mkPort env (Some d1) kInitialized) ∧
    ports w' !! p2 = Some (mkPort env (Some d2) kInitialized) ∧
    datas w' !! d1 = Some (mkData [] false (Some p1) (Some d2) m) ∧
    datas w' !! d2 = Some (mkData [] false (Some p2) (Some d1) m) ∧
    (∀ p, p ≠ p1 → p ≠ p2 → ports w' !! p = ports w !! p) ∧
    (∀ d, d ≠ d1 → d ≠ d2 → datas w' !! d = datas w !! d) ∧
    trace w' = trace w ∧ envs w' = envs w.
Proof.
  intros Hinit. split; [done|].
  unfold MessageChannel, MessagePort_New, MessagePort_ctor, make_shared_Mutex.
  simpl. rewrite !Hinit. simpl. rewrite !Hinit. simpl.
  set (p1 := fresh (dom (ports w))).
  set (d1 := fresh (dom (datas w))).
  set (m1 := fresh (mutexes w)).
  set (x1 := mkData [] false (Some p1) None m1).
  set (p2 := fresh (dom (<[p1 := mkPort env (Some d1) kInitialized]> (ports w)))).
  set (d2 := fresh (dom (<[d1 := x1]> (datas w)))).
  set (m2 := fresh ({[m1]} ∪ mutexes w)).
  set (x2 := mkData [] false (Some p2) None m2).
  assert (Hp1 : ports w !! p1 = None) by (apply not_elem_of_dom, is_fresh).
  assert (Hd1 : datas w !! d1 = None) by (apply not_elem_of_dom, is_fresh).
  assert (Hp2 : <[p1 := mkPort env (Some d1) kInitialized]> (ports w) !! p2 = None)
    by (apply not_elem_of_dom, is_fresh).
  assert (Hd2 : <[d1 := x1]> (datas w) !! d2 = None)
    by (apply not_elem_of_dom, is_fresh).
  apply lookup_insert_None in Hp2 as [Hp2 Hp12].
  apply lookup_insert_None in Hd2 as [Hd2 Hd12].
  assert (Hm2 : m2 ∉ {[m1]} ∪ mutexes w) by apply is_fresh.
  unfold MessagePort_Entangle. simpl.
  rewrite (lookup_insert_ne _ p2 p1) by done. rewrite !lookup_insert_eq. simpl.
  erewrite (Entangle_result d1 d2 x1 x2); [|simpl..]; cycle 1.
  { rewrite lookup_insert_ne by done. by rewrite lookup_insert_eq. }
  { by rewrite lookup_insert_eq. }
  { done. }
  { done. }
  { done. }
  simpl.
  eexists. exists p1, p2, d1, d2, m2. split; [reflexivity|]. simpl.
  split_and!; try done.
  - set_solver.
  - rewrite lookup_insert_ne by done. by rewrite lookup_insert_eq.
  - by rewrite lookup_insert_eq.
  - by rewrite lookup_insert_eq.
  - rewrite lookup_insert_ne by done. by rewrite lookup_insert_eq.
  - intros p Hn1 Hn2. by rewrite !lookup_insert_ne.
  - intros d Hn1 Hn2. by rewrite !lookup_insert_ne.
Qed.

End ChannelFacts.

(** ** More on the delivery loop *)

Lemma with_incoming_same (x : MessagePortData) :
  with_incoming (incoming_messages_ x) x = x.
Proof. by destruct x. Qed.

(* The queue events a list of events adds for the port data [d']. *)
Lemma dequeued_app d t1 t2 : dequeued d (t1 ++ t2) = dequeued d t1 ++ dequeued d t2.
Proof. apply omap_app. Qed.

Lemma delivered_app d t1 t2 : delivered d (t1 ++ t2) = delivered d t1 ++ delivered d t2.
Proof. apply omap_app. Qed.

Lemma enqueued_app d t1 t2 : enqueued d (t1 ++ t2) = enqueued d t1 ++ enqueued d t2.
Proof. apply omap_app. Qed.

Section MoreDelivery.
Context `{ValueCodec} `{UserCode}.

(* After the loop: [Close] or nothing, which leaves queues, queue events
   and environments alone. *)
Lemma OnMessage_after_loop fuel p w w1 port d x :
  OnMessage_loop fuel p w = Some (LoopEnd, w1) →
  ports w1 !! p = Some port →
  data_ port = Some d →
  datas w1 !! d = Some x →
  ∃ w2, OnMessage fuel p w = Some w2 ∧
        datas w2 = datas w1 ∧ envs w2 = envs w1 ∧
        (trace w2 = trace w1 ∨ trace w2 = trace w1 ++ [uv_close p]).
Proof.
  intros Hloop Hport Hdata Hx. unfold OnMessage. rewrite Hloop, Hport. simpl.
  rewrite Hdata. unfold MessagePortData_IsSiblingClosed. rewrite Hx. simpl.
  destruct (bool_decide _).
  - unfold Close. rewrite Hport. simpl.
    destruct (state_ port); eexists; (split; [reflexivity|]); simpl;
      split_and!; auto.
  - exists w1. split_and!; auto.
Qed.

(** X6.  A port that is stopped: the callback removes nothing from the
    queue and calls no handler, whatever the queue holds; messages that
    arrive stay in the queue.  Start afterwards makes the port receive
    again and signals the wake-up exactly when the queue is not empty. *)
Theorem stopped_port_delivers_nothing (fuel : nat) (p : PortId) (w : World)
    (port : MessagePort) (d : DataId) (x : MessagePortData) :
  ports w !! p = Some port →
  data_ port = Some d →
  datas w !! d = Some x →
  ∃ w1 w2 w3,
    MessagePort_Stop p w = Some w1 ∧
    OnMessage (S fuel) p w1 = Some w2 ∧
    queue_of d w2 = incoming_messages_ x ∧
    (∀ d', dequeued d' (trace w2) = dequeued d' (trace w) ∧
           delivered d' (trace w2) = delivered d' (trace w)) ∧
    envs w2 = envs w ∧
    MessagePort_Start p w1 = Some w3 ∧
    datas w3 !! d = Some (with_receiving true x) ∧
    trace w3 = trace w ++ (if bool_decide (incoming_messages_ x = [])
                           then [] else [uv_async_send p]).
Proof.
  intros Hport Hdata Hx.
  set (w1 := set_data d (with_receiving false x) w).
  assert (Hstop : MessagePort_Stop p w = Some w1).
  { unfold MessagePort_Stop, upd_data. rewrite Hport. simpl. rewrite Hdata. simpl.
    by rewrite Hx. }
  assert (Hx1 : datas w1 !! d = Some (with_receiving false x))
    by (unfold w1; simpl; apply lookup_insert_eq).
  assert (Hloop : OnMessage_loop (S fuel) p w1 = Some (LoopEnd, w1)).
  { simpl. rewrite Hport. simpl. rewrite Hdata.
    rewrite lookup_insert_eq. done. }
  destruct (OnMessage_after_loop _ _ _ _ _ _ _ Hloop Hport Hdata Hx1)
    as (w2 & Hrun & Hd2 & He2 & Ht2).
  set (w3 := set_data d (with_receiving true (with_receiving false x)) w1).
  exists w1, w2,
    (if bool_decide (incoming_messages_ x = []) then w3 else TriggerAsync p w3).
  split_and!; [done|done|..].
  - unfold queue_of. by rewrite Hd2, Hx1.
  - intros d'. destruct Ht2 as [->| ->]; [done|].
    rewrite dequeued_app, delivered_app. simpl. by rewrite !app_nil_r.
  - by rewrite He2.
  - unfold MessagePort_Start. simpl. rewrite Hport. simpl. rewrite Hdata. simpl.
    rewrite lookup_insert_eq. simpl.
    destruct (bool_decide (incoming_messages_ x = [])) eqn:Hq; simpl; reflexivity.
  - destruct (bool_decide (incoming_messages_ x = [])); simpl;
      rewrite lookup_insert_eq; by destruct x.
  - destruct (bool_decide (incoming_messages_ x = [])); simpl; [|done].
    by rewrite app_nil_r.
Qed.

(* The loop when the environment cannot call into JavaScript. *)
Lemma OnMessage_loop_drains (p : PortId) (port : MessagePort) (d : DataId)
    (env : Environment) (ms : list Message) :
  can_call_into_js env = false →
  data_ port = Some d →
  ∀ fuel w x,
    length ms < fuel →
    ports w !! p = Some port →
    datas w !! d = Some x →
    receiving_messages_ x = true →
    incoming_messages_ x = ms →
    envs w !! port_env port = Some env →
    ∃ w', OnMessage_loop fuel p w = Some (LoopEnd, w') ∧
          ports w' = ports w ∧ envs w' = envs w ∧
          datas w' = <[d := with_incoming [] x]> (datas w) ∧
          (∀ d', dequeued d' (trace w') =
                   dequeued d' (trace w) ++ (if decide (d = d') then ms else []) ∧
                 delivered d' (trace w') = delivered d' (trace w) ∧
                 enqueued d' (trace w') = enqueued d' (trace w)).
Proof.
  intros Hcan Hdata.
  induction ms as [|m rest IH]; intros fuel w x Hfuel Hport Hx Hrecv Hq Henv.
  - destruct fuel as [|fuel]; [simpl in Hfuel; lia|].
    exists w. simpl. rewrite Hport. simpl. rewrite Hdata, Hx. simpl.
    rewrite Hrecv, Hq. simpl. split_and!; try done.
    + rewrite <- Hq, with_incoming_same. by rewrite insert_id.
    + intros d'. by destruct (decide (d = d')); rewrite app_nil_r.
  - destruct fuel as [|fuel]; [simpl in Hfuel; lia|]. simpl in Hfuel.
    set (w1 := log (pop_front d m) (set_data d (with_incoming rest x) w)).
    destruct (IH fuel w1 (with_incoming rest x)) as (w' & Hloop & Hp & He & Hd & Ht).
    { lia. }
    { done. }
    { unfold w1. simpl. apply lookup_insert_eq. }
    { done. }
    { done. }
    { done. }
    exists w'. split_and!.
    + simpl. rewrite Hport. simpl. rewrite Hdata, Hx. simpl.
      rewrite Hrecv, Hq. simpl. rewrite Henv. simpl. rewrite Hcan. simpl.
      exact Hloop.
    + done.
    + done.
    + rewrite Hd. unfold w1. simpl. by rewrite insert_insert_eq.
    + intros d'. destruct (Ht d') as (Hde & Hdl & Hen).
      rewrite Hde, Hdl, Hen. unfold w1. simpl.
      rewrite dequeued_app, delivered_app, enqueued_app. simpl.
      rewrite !app_nil_r. split; [|done].
      destruct (decide (d = d')); simpl; by rewrite <- app_assoc.
Qed.

(** X7.  Shutdown: when the environment cannot call into JavaScript, one
    run of the callback of a receiving port empties its queue.  All the
    messages are removed in order, none is deserialized (the array
    buffers of the isolate are untouched) and no handler is called. *)
Theorem OnMessage_drains_at_shutdown (fuel : nat) (p : PortId) (w : World)
    (port : MessagePort) (d : DataId) (x : MessagePortData) (env : Environment) :
  ports w !! p = Some port →
  data_ port = Some d →
  datas w !! d = Some x →
  receiving_messages_ x = true →
  envs w !! port_env port = Some env →
  can_call_into_js env = false →
  length (incoming_messages_ x) < fuel →
  ∃ w', OnMessage fuel p w = Some w' ∧
        queue_of d w' = [] ∧
        dequeued d (trace w') = dequeued d (trace w) ++ incoming_messages_ x ∧
        (∀ d', delivered d' (trace w') = delivered d' (trace w)) ∧
        envs w' = envs w.
Proof.
  intros Hport Hdata Hx Hrecv Henv Hcan Hfuel.
  destruct (OnMessage_loop_drains p port d env (incoming_messages_ x) Hcan Hdata
              fuel w x Hfuel Hport Hx Hrecv eq_refl Henv)
    as (w1 & Hloop & Hp1 & He1 & Hd1 & Ht1).
  assert (Hx1 : datas w1 !! d = Some (with_incoming [] x))
    by (rewrite Hd1; apply lookup_insert_eq).
  rewrite <- Hp1 in Hport.
  destruct (OnMessage_after_loop _ _ _ _ _ _ _ Hloop Hport Hdata Hx1)
    as (w2 & Hrun & Hd2 & He2 & Ht2).
  exists w2. split_and!; [done|..].
  - unfold queue_of. by rewrite Hd2, Hx1.
  - destruct (Ht1 d) as (Hde & _ & _).
    destruct Ht2 as [->| ->]; rewrite ?dequeued_app; simpl;
      rewrite ?app_nil_r, Hde; by destruct (decide (d = d)).
  - intros d'. destruct (Ht1 d') as (_ & Hdl & _).
    destruct Ht2 as [->| ->]; rewrite ?delivered_app; simpl;
      by rewrite ?app_nil_r, Hdl.
  - by rewrite He2, He1.
Qed.


(* The loop with a handler that makes no call and returns. *)
Lemma OnMessage_loop_delivers_all (p : PortId) (port : MessagePort) (d : DataId)
    (ms : list Message) :
  (∀ w0, Has_onmessage w0 p = true) →
  (∀ w0 v, onmessage w0 p v = ([], true)) →
  data_ port = Some d →
  ∀ fuel w x env,
    length ms < fuel →
    ports w !! p = Some port →
    datas w !! d = Some x →
    receiving_messages_ x = true →
    incoming_messages_ x = ms →
    envs w !! port_env port = Some env →
    can_call_into_js env = true →
    (∀ (iso : Isolate) m, m ∈ ms → is_Some (Deserialize iso m).1.1) →
    ∃ w', OnMessage_loop fuel p w = Some (LoopEnd, w') ∧
          ports w' = ports w ∧
          datas w' = <[d := with_incoming [] x]> (datas w) ∧
          (∀ d', dequeued d' (trace w') =
                   dequeued d' (trace w) ++ (if decide (d = d') then ms else []) ∧
                 delivered d' (trace w') =
                   delivered d' (trace w) ++ (if decide (d = d') then ms else []) ∧
                 enqueued d' (trace w') = enqueued d' (trace w)).
Proof.
  intros Hhas Hquiet Hdata.
  induction ms as [|m rest IH];
    intros fuel w x env Hfuel Hport Hx Hrecv Hq Henv Hcan Hread.
  - destruct fuel as [|fuel]; [simpl in Hfuel; lia|].
    exists w. simpl. rewrite Hport. simpl. rewrite Hdata, Hx. simpl.
    rewrite Hrecv, Hq. simpl. split_and!; try done.
    + rewrite <- Hq, with_incoming_same. by rewrite insert_id.
    + intros d'. by destruct (decide (d = d')); rewrite !app_nil_r.
  - destruct fuel as [|[|fuel]]; [simpl in Hfuel; lia..|]. simpl in Hfuel.
    destruct (Hread (isolate env) m) as [v Hv]; [by left|].
    destruct (Deserialize (isolate env) m) as [[arg iso] consumed] eqn:Hde.
    simpl in Hv. subst arg.
    set (w1 := set_env (port_env port) (mkEnv iso true)
                 (log (pop_front d m) (set_data d (with_incoming rest x) w))).
    set (w2 := log (call_onmessage p d m v) w1).
    destruct (IH (S fuel) w2 (with_incoming rest x) (mkEnv iso true))
      as (w' & Hloop & Hp & Hd & Ht).
    { lia. }
    { done. }
    { unfold w2, w1. simpl. apply lookup_insert_eq. }
    { done. }
    { done. }
    { unfold w2, w1. simpl. apply lookup_insert_eq. }
    { done. }
    { intros iso' m' Hm'. apply Hread. by right. }
    exists w'. split_and!.
    + change (OnMessage_loop (S (S fuel)) p w) with
        (port ← ports w !! p;
         match data_ port with
         | None => Some (LoopEnd, w)
         | Some d =>
             x ← datas w !! d;
             if negb (receiving_messages_ x) then Some (LoopEnd, w) else
             match incoming_messages_ x with
             | [] => Some (LoopEnd, w)
             | received :: rest =>
                 let w := set_data d (with_incoming rest x) w in
                 let w := log (pop_front d received) w in
                 env ← envs w !! port_env port;
                 if negb (can_call_into_js env)
                 then OnMessage_loop (S fuel) p w else
                 let '(arg, iso, consumed) := Deserialize (isolate env) received in
                 let w := set_env (port_env port)
                            (mkEnv iso (can_call_into_js env)) w in
                 match arg with
                 | None => reschedule p w
                 | Some v =>
                     if negb (Has_onmessage w p) then reschedule p w else
                     let '(calls, returned) := onmessage w p v in
                     let w := log (call_onmessage p d received v) w in
                     w ← run_script (S fuel) calls w;
                     if returned then OnMessage_loop (S fuel) p w
                     else reschedule p w
                 end
             end
         end).
      rewrite Hport. cbn -[OnMessage_loop]. rewrite Hdata, Hx.
      cbn -[OnMessage_loop]. rewrite Hrecv, Hq. cbn -[OnMessage_loop].
      rewrite Henv. cbn -[OnMessage_loop]. rewrite Hcan, Hde.
      cbn -[OnMessage_loop]. rewrite Hhas, Hquiet. cbn -[OnMessage_loop].
      exact Hloop.
    + done.
    + rewrite Hd. unfold w2, w1. simpl. by rewrite insert_insert_eq.
    + intros d'. destruct (Ht d') as (Hde' & Hdl & Hen).
      rewrite Hde', Hdl, Hen. unfold w2, w1. simpl.
      rewrite !dequeued_app, !delivered_app, !enqueued_app. simpl.
      rewrite !app_nil_r.
      destruct (decide (d = d')); simpl; rewrite ?app_nil_r;
        by rewrite <- ?app_assoc.
Qed.

(** X8.  A receiving port whose handler makes no call and returns, and
    messages the decoder can read: one run of the callback removes every
    message of the queue, in order, and calls the handler with each of
    them, in that order; the queue is empty afterwards. *)
Theorem OnMessage_delivers_whole_queue (fuel : nat) (p : PortId) (w : World)
    (port : MessagePort) (d : DataId) (x : MessagePortData) (env : Environment) :
  (∀ w0, Has_onmessage w0 p = true) →
  (∀ w0 v, onmessage w0 p v = ([], true)) →
  ports w !! p = Some port →
  data_ port = Some d →
  datas w !! d = Some x →
  receiving_messages_ x = true →
  envs w !! port_env port = Some env →
  can_call_into_js env = true →
  (∀ (iso : Isolate) m, m ∈ incoming_messages_ x → is_Some (Deserialize iso m).1.1) →
  length (incoming_messages_ x) < fuel →
  ∃ w', OnMessage fuel p w = Some w' ∧
        queue_of d w' = [] ∧
        dequeued d (trace w') = dequeued d (trace w) ++ incoming_messages_ x ∧
        delivered d (trace w') = delivered d (trace w) ++ incoming_messages_ x.
Proof.
  intros Hhas Hquiet Hport Hdata Hx Hrecv Henv Hcan Hread Hfuel.
  destruct (OnMessage_loop_delivers_all p port d (incoming_messages_ x)
              Hhas Hquiet Hdata fuel w x env Hfuel Hport Hx Hrecv eq_refl
              Henv Hcan Hread)
    as (w1 & Hloop & Hp1 & Hd1 & Ht1).
  assert (Hx1 : datas w1 !! d = Some (with_incoming [] x))
    by (rewrite Hd1; apply lookup_insert_eq).
  rewrite <- Hp1 in Hport.
  destruct (OnMessage_after_loop _ _ _ _ _ _ _ Hloop Hport Hdata Hx1)
    as (w2 & Hrun & Hd2 & He2 & Ht2).
  exists w2. split_and!; [done|..].
  - unfold queue_of. by rewrite Hd2, Hx1.
  - destruct (Ht1 d) as (Hde & _ & _).
    destruct Ht2 as [->| ->]; rewrite ?dequeued_app; simpl;
      rewrite ?app_nil_r, Hde; by destruct (decide (d = d)).
  - destruct (Ht1 d) as (_ & Hdl & _).
    destruct Ht2 as [->| ->]; rewrite ?delivered_app; simpl;
      rewrite ?app_nil_r, Hdl; by destruct (decide (d = d)).
Qed.

(** X9.  A receiving port without an [onmessage] property, in an
    environment that can call into JavaScript: a run of the callback
    removes the message at the head of the queue, attaches its array
    buffers to the isolate, calls nothing, signals the wake-up again and
    returns without closing the port; the other messages stay in the
    queue. *)
Theorem OnMessage_without_handler (fuel : nat) (p : PortId) (w : World)
    (port : MessagePort) (d : DataId) (x : MessagePortData)
    (received : Message) (rest : list Message) (env : Environment) :
  (∀ w0, Has_onmessage w0 p = false) →
  ports w !! p = Some port →
  data_ port = Some d →
  datas w !! d = Some x →
  receiving_messages_ x = true →
  incoming_messages_ x = received :: rest →
  envs w !! port_env port = Some env →
  can_call_into_js env = true →
  ∃ w', OnMessage (S fuel) p w = Some w' ∧
        queue_of d w' = rest ∧
        trace w' = trace w ++ [pop_front d received; uv_async_send p] ∧
        ports w' = ports w ∧
        envs w' !! port_env port =
          Some (mkEnv (Deserialize (isolate env) received).1.2 true).
Proof.
  intros Hhas Hport Hdata Hx Hrecv Hq Henv Hcan.
  destruct (Deserialize (isolate env) received) as [[arg iso] consumed] eqn:Hde.
  exists (TriggerAsync p
            (set_env (port_env port) (mkEnv iso true)
               (log (pop_front d received) (set_data d (with_incoming rest x) w)))).
  split_and!.
  - unfold OnMessage. simpl. rewrite Hport. simpl. rewrite Hdata, Hx. simpl.
    rewrite Hrecv, Hq. simpl. rewrite Henv. simpl. rewrite Hcan, Hde. simpl.
    unfold reschedule. simpl.
    destruct arg; rewrite ?Hhas; simpl; rewrite Hport; simpl; by rewrite Hdata.
  - unfold queue_of. simpl. by rewrite lookup_insert_eq.
  - simpl. by rewrite <- app_assoc.
  - done.
  - simpl. by rewrite lookup_insert_eq.
Qed.

(** X10.  A handler that throws, having made no call: the message it was
    called with is gone from the queue, the other messages stay, the
    wake-up is signalled again and the callback returns without closing
    the port. *)
Theorem OnMessage_handler_throws (fuel : nat) (p : PortId) (w : World)
    (port : MessagePort) (d : DataId) (x : MessagePortData)
    (received : Message) (rest : list Message) (env : Environment) (v : Value) :
  (∀ w0, Has_onmessage w0 p = true) →
  (∀ w0 v0, onmessage w0 p v0 = ([], false)) →
  ports w !! p = Some port →
  data_ port = Some d →
  datas w !! d = Some x →
  receiving_messages_ x = true →
  incoming_messages_ x = received :: rest →
  envs w !! port_env port = Some env →
  can_call_into_js env = true →
  (Deserialize (isolate env) received).1.1 = Some v →
  ∃ w', OnMessage (S (S fuel)) p w = Some w' ∧
        queue_of d w' = rest ∧
        trace w' = trace w ++ [pop_front d received;
                               call_onmessage p d received v;
                               uv_async_send p] ∧
        ports w' = ports w.
Proof.
  intros Hhas Hthrow Hport Hdata Hx Hrecv Hq Henv Hcan Hread.
  destruct (Deserialize (isolate env) received) as [[arg iso] consumed] eqn:Hde.
  simpl in Hread. subst arg.
  exists (TriggerAsync p
            (log (call_onmessage p d received v)
               (set_env (port_env port) (mkEnv iso true)
                  (log (pop_front d received)
                       (set_data d (with_incoming rest x) w))))).
  split_and!.
  - unfold OnMessage.
    assert (Hloop : OnMessage_loop (S (S fuel)) p w =
              Some (LoopReturn,
                    TriggerAsync p
                      (log (call_onmessage p d received v)
                         (set_env (port_env port) (mkEnv iso true)
                            (log (pop_front d received)
                                 (set_data d (with_incoming rest x) w)))))).
    { cbn [OnMessage_loop]. rewrite Hport. simpl. rewrite Hdata, Hx. simpl.
      rewrite Hrecv, Hq. simpl. rewrite Henv. simpl. rewrite Hcan, Hde. simpl.
      rewrite Hhas, Hthrow. simpl. unfold reschedule. simpl.
      rewrite Hport. simpl. by rewrite Hdata. }
    by rewrite Hloop.
  - unfold queue_of. simpl. by rewrite lookup_insert_eq.
  - simpl. by rewrite <- !app_assoc.
  - done.
Qed.

End MoreDelivery.

(** ** Disentangling, closing, moving *)

Lemma Ping_result d x w :
  datas w !! d = Some x →
  ∃ w', PingOwnerAfterDisentanglement d w = Some w' ∧
        trace w' = trace w ++ wake (owner_ x) ∧
        datas w' = datas w ∧ ports w' = ports w ∧ envs w' = envs w ∧
        mutexes w' = mutexes w.
Proof.
  intros Hx. unfold PingOwnerAfterDisentanglement. rewrite Hx. simpl.
  destruct (owner_ x); eexists; (split; [reflexivity|]); simpl;
    by rewrite ?app_nil_r.
Qed.

(* [Disentangle] on a port data with a sibling, and on one without. *)
Lemma Disentangle_pair_result a b xa xb w :
  datas w !! a = Some xa →
  sibling_ xa = Some b →
  datas w !! b = Some xb →
  a ≠ b →
  ∃ w', MessagePortData_Disentangle a w = Some w' ∧
        datas w' = <[a := with_sibling None (with_sibling_mutex (fresh (mutexes w)) xa)]>
                     (<[b := with_sibling None xb]> (datas w)) ∧
        trace w' = trace w ++ wake (owner_ xa) ++ wake (owner_ xb) ∧
        ports w' = ports w ∧ envs w' = envs w ∧
        mutexes w' = {[fresh (mutexes w)]} ∪ mutexes w.
Proof.
  intros Ha Hsib Hb Hne.
  unfold MessagePortData_Disentangle, make_shared_Mutex, upd_data.
  rewrite Ha. simpl. rewrite Hsib. simpl.
  rewrite lookup_insert_ne by done. rewrite Hb. simpl.
  rewrite lookup_insert_ne by done. rewrite lookup_insert_eq. simpl.
  set (w2 := set_data a _ _).
  destruct (Ping_result a (with_sibling None
              (with_sibling_mutex (fresh (mutexes w)) xa)) w2)
    as (w3 & -> & Ht3 & Hd3 & Hp3 & He3 & Hm3).
  { unfold w2. simpl. apply lookup_insert_eq. }
  simpl.
  destruct (Ping_result b (with_sibling None xb) w3)
    as (w4 & -> & Ht4 & Hd4 & Hp4 & He4 & Hm4).
  { rewrite Hd3. unfold w2. simpl. rewrite lookup_insert_ne by done.
    apply lookup_insert_eq. }
  exists w4. split; [done|].
  rewrite Ht4, Ht3, Hd4, Hd3, Hp4, Hp3, He4, He3, Hm4, Hm3. unfold w2. simpl.
  split_and!; try done.
  - rewrite (insert_insert_ne _ b a) by done. by rewrite insert_insert_eq.
  - by rewrite <- app_assoc.
Qed.

Lemma Disentangle_lone_result a xa w :
  datas w !! a = Some xa →
  sibling_ xa = None →
  ∃ w', MessagePortData_Disentangle a w = Some w' ∧
        datas w' = <[a := with_sibling_mutex (fresh (mutexes w)) xa]> (datas w) ∧
        trace w' = trace w ++ wake (owner_ xa) ∧
        ports w' = ports w ∧ envs w' = envs w ∧
        mutexes w' = {[fresh (mutexes w)]} ∪ mutexes w.
Proof.
  intros Ha Hsib.
  unfold MessagePortData_Disentangle, make_shared_Mutex.
  rewrite Ha. simpl. rewrite Hsib. simpl.
  set (w2 := set_data a _ _).
  destruct (Ping_result a (with_sibling_mutex (fresh (mutexes w)) xa) w2)
    as (w3 & -> & Ht3 & Hd3 & Hp3 & He3 & Hm3).
  { unfold w2. simpl. apply lookup_insert_eq. }
  exists w3. split; [done|].
  by rewrite Ht3, Hd3, Hp3, He3, Hm3.
Qed.

(** X11.  [Disentangle] wakes the owners: on a port data with a sibling,
    the wake-up of its own owner and then that of the owner of the
    sibling are signalled, each if there is an owner; on a port data
    without sibling, only its own.  Queues, owners and the
    receiving flags are left as they are, and so is every port. *)
Theorem Disentangle_wakes_owners (a : DataId) (xa : MessagePortData) (w : World) :
  datas w !! a = Some xa →
  (sibling_ xa = None →
   ∃ w', MessagePortData_Disentangle a w = Some w' ∧
         trace w' = trace w ++ wake (owner_ xa) ∧
         ports w' = ports w ∧
         (∀ d, d ≠ a → datas w' !! d = datas w !! d) ∧
         datas w' !! a = Some (with_sibling_mutex (fresh (mutexes w)) xa))
  ∧ (∀ b xb,
       sibling_ xa = Some b → datas w !! b = Some xb → a ≠ b →
       ∃ w', MessagePortData_Disentangle a w = Some w' ∧
             trace w' = trace w ++ wake (owner_ xa) ++ wake (owner_ xb) ∧
             ports w' = ports w ∧
             (∀ d, queue_of d w' = queue_of d w) ∧
             (∀ d, owner_ <$> datas w' !! d = owner_ <$> datas w !! d) ∧
             (∀ d, receiving_messages_ <$> datas w' !! d
                   = receiving_messages_ <$> datas w !! d)).
Proof.
  intros Ha. split.
  - intros Hsib.
    destruct (Disentangle_lone_result a xa w Ha Hsib)
      as (w' & Hrun & Hd & Ht & Hp & _ & _).
    exists w'. rewrite Hd. split_and!; try done.
    + intros d Hne. by rewrite lookup_insert_ne.
    + by rewrite lookup_insert_eq.
  - intros b xb Hsib Hb Hne.
    destruct (Disentangle_pair_result a b xa xb w Ha Hsib Hb Hne)
      as (w' & Hrun & Hd & Ht & Hp & _ & _).
    exists w'. unfold queue_of. rewrite Hd. split_and!; try done.
    + intros d. rewrite !lookup_insert.
      destruct (decide (a = d)) as [<-|]; [by rewrite Ha|].
      destruct (decide (b = d)) as [<-|]; [by rewrite Hb|done].
    + intros d. rewrite !lookup_insert.
      destruct (decide (a = d)) as [<-|]; [by rewrite Ha|].
      destruct (decide (b = d)) as [<-|]; [by rewrite Hb|done].
    + intros d. rewrite !lookup_insert.
      destruct (decide (a = d)) as [<-|]; [by rewrite Ha|].
      destruct (decide (b = d)) as [<-|]; [by rewrite Hb|done].
Qed.

(** X12.  The close callback of a port whose data is entangled, in a
    well-formed world: the port loses its data and its async handle is
    deleted; the sibling loses its sibling and keeps everything else, and
    the wake-up of the owner of the sibling is the only one signalled, so
    that it can close in turn; every other port and port data is as it
    was.  The port data of the port is destroyed, and nothing points to
    what is destroyed: no port holds it and no port data has it as its
    sibling. *)
Theorem OnClose_tears_pair_apart (p : PortId) (w : World) (port : MessagePort)
    (d s : DataId) (xd xs : MessagePortData) :
  well_formed w →
  p ∈ asyncs w →
  ports w !! p = Some port →
  data_ port = Some d →
  datas w !! d = Some xd →
  sibling_ xd = Some s →
  datas w !! s = Some xs →
  ∃ w',
    OnClose p w = Some w' ∧
    ports w' !! p = Some (with_data None port) ∧
    (∀ q, q ≠ p → ports w' !! q = ports w !! q) ∧
    asyncs w' = asyncs w ∖ {[p]} ∧
    datas w' !! s = Some (with_sibling None xs) ∧
    (∀ d', d' ≠ d → d' ≠ s → datas w' !! d' = datas w !! d') ∧
    (∀ q port', ports w' !! q = Some port' → data_ port' ≠ Some d) ∧
    (∀ d' x', datas w' !! d' = Some x' → sibling_ x' ≠ Some d) ∧
    trace w' = trace w ++ wake (owner_ xs).
Proof.
  intros (Hpairs & _ & [Hholds _]) Hasync Hport Hdata Hd Hsib Hs.
  destruct (Hpairs _ _ _ Hd Hsib) as (Hne & xs' & Hs' & _).
  destruct (Hholds _ _ _ Hport Hdata) as (xd0 & Hd0 & Hown).
  rewrite Hd in Hd0. injection Hd0 as <-.
  unfold OnClose. rewrite Hport. simpl. rewrite Hdata.
  unfold upd_data at 1. rewrite Hd. simpl.
  set (w1 := set_data d (with_owner None xd) w).
  destruct (Disentangle_pair_result d s (with_owner None xd) xs w1)
    as (w2 & Hrun2 & Hd2 & Ht2 & Hp2 & He2 & Hm2); try done.
  { unfold w1. simpl. apply lookup_insert_eq. }
  { unfold w1. simpl. by rewrite lookup_insert_ne. }
  rewrite Hrun2. simpl. unfold upd_port. rewrite Hp2. simpl. rewrite Hport. simpl.
  set (w3 := set_port p (with_data None port) w2).
  set (xd2 := with_sibling None (with_sibling_mutex (fresh (mutexes w1))
                                   (with_owner None xd))).
  assert (Hd3 : datas w3 !! d = Some xd2).
  { unfold w3. simpl. rewrite Hd2. apply lookup_insert_eq. }
  unfold MessagePortData_dtor. rewrite Hd3. simpl.
  destruct (Disentangle_lone_result d xd2 w3 Hd3 eq_refl)
    as (w4 & Hrun4 & Hd4 & Ht4 & Hp4 & He4 & Hm4).
  rewrite Hrun4. simpl.
  assert (Ha4 : asyncs w4 = asyncs w).
  { rewrite (Disentangle_asyncs _ _ _ Hrun4). unfold w3. simpl.
    by rewrite (Disentangle_asyncs _ _ _ Hrun2). }
  unfold delete_async. rewrite bool_decide_eq_true_2 by (by rewrite Ha4).
  eexists. split; [reflexivity|]. simpl.
  split_and!.
  - rewrite Hp4. unfold w3. simpl. apply lookup_insert_eq.
  - intros q Hq. rewrite Hp4. unfold w3. simpl. rewrite lookup_insert_ne by done.
    by rewrite Hp2.
  - by rewrite Ha4.
  - rewrite Hd4. rewrite lookup_insert_ne by done. unfold w3. simpl.
    rewrite Hd2. rewrite lookup_insert_ne by done. rewrite lookup_insert_eq.
    done.
  - intros d' Hn1 Hn2. rewrite Hd4. rewrite lookup_insert_ne by done.
    unfold w3. simpl. rewrite Hd2. rewrite !lookup_insert_ne by done.
    unfold w1. simpl. by rewrite lookup_insert_ne.
  - intros q port' Hq Hqd. rewrite Hp4 in Hq. unfold w3 in Hq. simpl in Hq.
    destruct (decide (q = p)) as [->|Hqp].
    + rewrite lookup_insert_eq in Hq. by injection Hq as <-.
    + rewrite lookup_insert_ne in Hq by done. rewrite Hp2 in Hq.
      destruct (Hholds _ _ _ Hq Hqd) as (xd0 & Hd0 & Hown0). congruence.
  - intros d' x' Hx' Hsd. rewrite Hd4 in Hx'.
    destruct (decide (d' = d)) as [->|Hdd].
    { rewrite lookup_insert_eq in Hx'. by injection Hx' as <-. }
    rewrite lookup_insert_ne in Hx' by done. unfold w3 in Hx'. simpl in Hx'.
    rewrite Hd2 in Hx'. rewrite lookup_insert_ne in Hx' by done.
    destruct (decide (d' = s)) as [->|Hds].
    { rewrite lookup_insert_eq in Hx'. by injection Hx' as <-. }
    rewrite lookup_insert_ne in Hx' by done. unfold w1 in Hx'. simpl in Hx'.
    rewrite lookup_insert_ne in Hx' by done.
    destruct (Hpairs _ _ _ Hx' Hsd) as (_ & xd0 & Hd0 & Hsib0 & _). congruence.
  - rewrite Ht4. simpl. rewrite app_nil_r. unfold w3. simpl. rewrite Ht2.
    simpl. done.
Qed.

Section MoveFacts.
Context `{ValueCodec} `{UserCode}.

(* [MessagePort::New] with a port data, when there is no [oninit] hook. *)
Lemma MessagePort_New_adopt_result (exec : list JsCall → World → option World)
    (env : EnvId) (d : DataId) (x : MessagePortData) (w : World) :
  (∀ w0 p0, oninit w0 p0 = None) →
  datas w !! d = Some x →
  ∃ w' p',
    MessagePort_New exec env (Some d) w = Some (Some p', w') ∧
    ports w !! p' = None ∧
    ports w' = <[p' := mkPort env (Some d) kInitialized]> (ports w) ∧
    datas w' !! d = Some (with_owner (Some p') x) ∧
    (∀ d' x', datas w !! d' = Some x' → d' ≠ d → datas w' !! d' = Some x') ∧
    trace w' = trace w ++ [uv_async_send p'] ∧
    envs w' = envs w.
Proof.
  intros Hinit Hd.
  unfold MessagePort_New, MessagePort_ctor, make_shared_Mutex. simpl.
  rewrite Hinit.
  set (p0 := fresh (dom (ports w))).
  set (d0 := fresh (dom (datas w))).
  set (m0 := fresh (mutexes w)).
  assert (Hp0 : ports w !! p0 = None) by (apply not_elem_of_dom, is_fresh).
  assert (Hd0 : datas w !! d0 = None) by (apply not_elem_of_dom, is_fresh).
  assert (Hne : d0 ≠ d) by congruence.
  unfold Detach, upd_data, upd_port. simpl.
  rewrite lookup_insert_eq. simpl. rewrite lookup_insert_eq. simpl.
  rewrite lookup_insert_eq. simpl.
  set (w2 := set_port p0 _ _).
  set (x0 := with_owner None (mkData [] false (Some p0) None m0)).
  assert (Hx0 : datas w2 !! d0 = Some x0).
  { unfold w2. simpl. apply lookup_insert_eq. }
  unfold MessagePortData_dtor. rewrite Hx0. simpl.
  destruct (Disentangle_lone_result d0 x0 w2 Hx0 eq_refl)
    as (w3 & -> & Hd3 & Ht3 & Hp3 & He3 & Hm3).
  simpl. rewrite Hp3. unfold w2 at 1. simpl. rewrite lookup_insert_eq. simpl.
  rewrite Hd3. rewrite lookup_insert_ne by done. unfold w2 at 1. simpl.
  rewrite !lookup_insert_ne by done. rewrite Hd. simpl.
  eexists. exists p0. split; [reflexivity|]. simpl.
  split_and!; try done.
  - rewrite Hp3. unfold w2. simpl. by rewrite !insert_insert_eq.
  - by rewrite lookup_insert_eq.
  - intros d' x' Hx' Hn. rewrite lookup_insert_ne by done. rewrite Hd3.
    assert (d0 ≠ d') by congruence.
    rewrite lookup_insert_ne by done. unfold w2. simpl.
    by rewrite !lookup_insert_ne.
  - rewrite Ht3. simpl. rewrite app_nil_r. done.
Qed.

Lemma Detach_result (p : PortId) (w : World) (port : MessagePort) (d : DataId)
    (x : MessagePortData) :
  ports w !! p = Some port →
  data_ port = Some d →
  datas w !! d = Some x →
  Detach p w = Some (d, set_port p (with_data None port)
                          (set_data d (with_owner None x) w)).
Proof.
  intros Hport Hdata Hx. unfold Detach, upd_data, upd_port.
  rewrite Hport. simpl. rewrite Hdata. simpl. rewrite Hx. simpl.
  by rewrite Hport.
Qed.

(** X13.  A port data on its way from one port to another.  After
    [Detach] it has no owner: a message that arrives is put at the back
    of its queue and no wake-up is signalled.  [MessagePort::New] with
    the data then gives it to a new port and signals the wake-up of that
    port, with the message in the queue. *)
Theorem messages_in_transit_are_kept (exec : list JsCall → World → option World)
    (env : EnvId) (p : PortId) (w : World) (port : MessagePort) (d : DataId)
    (x : MessagePortData) (message : Message) :
  (∀ w0 p0, oninit w0 p0 = None) →
  ports w !! p = Some port →
  data_ port = Some d →
  datas w !! d = Some x →
  ∃ w1 w2 w3 p',
    Detach p w = Some (d, w1) ∧
    MessagePortData_AddToIncomingQueue d message w1 = Some w2 ∧
    trace w2 = trace w ++ [emplace_back d message] ∧
    MessagePort_New exec env (Some d) w2 = Some (Some p', w3) ∧
    ports w !! p' = None ∧
    datas w3 !! d =
      Some (mkData (incoming_messages_ x ++ [message]) (receiving_messages_ x)
                   (Some p') (sibling_ x) (sibling_mutex_ x)) ∧
    trace w3 = trace w ++ [emplace_back d message; uv_async_send p'].
Proof.
  intros Hinit Hport Hdata Hx.
  set (w1 := set_port p (with_data None port) (set_data d (with_owner None x) w)).
  set (x2 := with_incoming (incoming_messages_ x ++ [message]) (with_owner None x)).
  set (w2 := log (emplace_back d message) (set_data d x2 w1)).
  assert (Hx1 : datas w1 !! d = Some (with_owner None x)).
  { unfold w1. simpl. apply lookup_insert_eq. }
  assert (Hx2 : datas w2 !! d = Some x2).
  { unfold w2. simpl. apply lookup_insert_eq. }
  destruct (MessagePort_New_adopt_result exec env d x2 w2 Hinit Hx2)
    as (w3 & p' & Hrun & Hfresh & Hp3 & Hd3 & _ & Ht3 & _).
  exists w1, w2, w3, p'. split_and!; try done.
  - by apply Detach_result.
  - unfold MessagePortData_AddToIncomingQueue. rewrite Hx1. done.
  - unfold w2, w1 in Hfresh. simpl in Hfresh.
    apply lookup_insert_None in Hfresh. tauto.
  - rewrite Ht3. unfold w2, w1. simpl. by rewrite <- app_assoc.
Qed.

(** X14.  The move of a port data to a new port, when there is no
    [oninit] hook: the old port is left without data, a port that did
    not exist owns the data, the data names that port as its owner and
    keeps its queue, its receiving flag, its sibling and its mutex; every
    other port data is as it was, so that the sibling still sends to
    the data; the wake-up of the new port is the only event. *)
Theorem Transfer_moves_data (fuel : nat) (p : PortId) (env : EnvId) (w : World)
    (port : MessagePort) (d : DataId) (x : MessagePortData) :
  (∀ w0 p0, oninit w0 p0 = None) →
  ports w !! p = Some port →
  data_ port = Some d →
  datas w !! d = Some x →
  ∃ w' p',
    step fuel (Transfer p env) w = Some w' ∧
    ports w !! p' = None ∧
    ports w' !! p = Some (with_data None port) ∧
    ports w' !! p' = Some (mkPort env (Some d) kInitialized) ∧
    (∀ q, q ≠ p → q ≠ p' → ports w' !! q = ports w !! q) ∧
    datas w' !! d = Some (with_owner (Some p') x) ∧
    (∀ d' x', datas w !! d' = Some x' → d' ≠ d → datas w' !! d' = Some x') ∧
    trace w' = trace w ++ [uv_async_send p'].
Proof.
  intros Hinit Hport Hdata Hx.
  set (w1 := set_port p (with_data None port) (set_data d (with_owner None x) w)).
  assert (Hx1 : datas w1 !! d = Some (with_owner None x)).
  { unfold w1. simpl. apply lookup_insert_eq. }
  destruct (MessagePort_New_adopt_result (run_script fuel) env d _ w1 Hinit Hx1)
    as (w3 & p' & Hrun & Hfresh & Hp3 & Hd3 & Hothers & Ht3 & _).
  unfold w1 in Hfresh. simpl in Hfresh.
  apply lookup_insert_None in Hfresh as [Hfresh Hpp].
  exists w3, p'. split_and!.
  - simpl. rewrite (Detach_result p w port d x) by done. simpl.
    fold w1. by rewrite Hrun.
  - done.
  - rewrite Hp3. rewrite lookup_insert_ne by done. unfold w1. simpl.
    apply lookup_insert_eq.
  - rewrite Hp3. apply lookup_insert_eq.
  - intros q Hq1 Hq2. rewrite Hp3. rewrite lookup_insert_ne by done.
    unfold w1. simpl. by rewrite lookup_insert_ne.
  - rewrite Hd3. by destruct x.
  - intros d' x' Hx' Hn. apply Hothers; [|done].
    unfold w1. simpl. by rewrite lookup_insert_ne.
  - done.
Qed.

(** X15.  [postMessage] with at least one argument on a port whose data
    has a sibling, when [Serialize] succeeds: no exception; the message
    is the last of the queue of the sibling; the wake-up of the owner of
    the sibling is signalled if it has an owner; the isolate of the
    sender is the one [Serialize] left; nothing else changes. *)
Theorem PostMessage_reaches_sibling (p : PortId) (args : list Value) (w : World)
    (port : MessagePort) (d s : DataId) (x xs : MessagePortData)
    (env : Environment) (iso' : Isolate) (msg : Message) :
  ports w !! p = Some port →
  data_ port = Some d →
  datas w !! d = Some x →
  sibling_ x = Some s →
  datas w !! s = Some xs →
  envs w !! port_env port = Some env →
  args ≠ [] →
  Serialize (nth 0 args Undefined) (nth 1 args Undefined) (isolate env) empty_Message
    = Some (Just true, iso', msg) →
  ∃ w', PostMessage p args w = Some (w', None) ∧
        datas w' = <[s := with_incoming (incoming_messages_ xs ++ [msg]) xs]> (datas w) ∧
        trace w' = trace w ++ emplace_back s msg :: wake (owner_ xs) ∧
        envs w' = <[port_env port := mkEnv iso' (can_call_into_js env)]> (envs w) ∧
        ports w' = ports w.
Proof.
  intros Hport Hdata Hx Hsib Hs Henv Hargs Hser.
  unfold PostMessage. rewrite Hport, Hdata.
  rewrite bool_decide_eq_true_2 by eauto. simpl.
  rewrite bool_decide_eq_false_2 by (by destruct args).
  unfold MessagePort_Send_args. rewrite Hport. simpl. rewrite Henv. simpl.
  rewrite Hser. simpl. unfold MessagePort_Send. simpl.
  rewrite Hport. simpl. rewrite Hdata. simpl. rewrite Hx. simpl. rewrite Hsib.
  unfold MessagePortData_AddToIncomingQueue. simpl. rewrite Hs. simpl.
  destruct (owner_ xs); simpl; eexists; (split; [reflexivity|]); simpl;
    by rewrite ?app_nil_r, <- ?app_assoc.
Qed.

(** X16.  [postMessage] with a transfer list on a port whose data has no
    sibling: the message is dropped, and the buffers it was to carry are
    gone all the same: each registered buffer of the sender is external
    and neutered afterwards, and no queue holds its bytes. *)
Theorem PostMessage_without_sibling_loses_buffers (p : PortId) (v : Value)
    (entries : list (option Value)) (w : World) (port : MessagePort)
    (d : DataId) (x : MessagePortData) (env : Environment)
    (iso' : Isolate) (msg : Message) :
  ports w !! p = Some port →
  data_ port = Some d →
  datas w !! d = Some x →
  sibling_ x = None →
  envs w !! port_env port = Some env →
  Forall (array_buffer_entry (isolate env)) entries →
  Serialize v (ArrayRef entries) (isolate env) empty_Message
    = Some (Just true, iso', msg) →
  ∃ w', PostMessage p [v; ArrayRef entries] w = Some (w', None) ∧
        datas w' = datas w ∧ trace w' = trace w ∧
        envs w' !! port_env port = Some (mkEnv iso' (can_call_into_js env)) ∧
        ∀ ab, Some (ArrayBufferRef ab) ∈ entries →
              transferable (isolate env) ab = true →
              ∃ b, isolate env !! ab = Some b ∧
                   iso' !! ab = Some (mkArrayBuffer (is_neuterable b) true true []).
Proof.
  intros Hport Hdata Hx Hsib Henv Hall Hser.
  unfold PostMessage. rewrite Hport, Hdata.
  rewrite bool_decide_eq_true_2 by eauto. simpl.
  unfold MessagePort_Send_args. rewrite Hport. simpl. rewrite Henv. simpl.
  rewrite Hser. simpl. unfold MessagePort_Send. simpl.
  rewrite Hport. simpl. rewrite Hdata. simpl. rewrite Hx. simpl. rewrite Hsib.
  eexists. split; [reflexivity|]. simpl. split_and!; try done.
  - by rewrite lookup_insert_eq.
  - intros ab Hin Htr.
    unfold Serialize in Hser. simpl in Hser.
    rewrite transfer_loop_array_buffers in Hser by done. simpl in Hser.
    destruct (WriteValue _ _ _); [|done].
    destruct (externalize_loop _ _ _) as [[iso1 msg1]|] eqn:Hext; [|done].
    simpl in Hser. injection Hser as <- <-.
    apply externalize_loop_spec in Hext as (_ & _ & _ & Hin' & _).
    destruct (Hin' ab) as (b & Hb & _ & Hb').
    { by apply surviving_list_transferable. }
    eauto.
Qed.

End MoveFacts.

(** ** What every world keeps *)

Lemma same_links_refl w : same_links w w.
Proof. by split. Qed.

Lemma same_links_trans w1 w2 w3 :
  same_links w1 w2 → same_links w2 w3 → same_links w1 w3.
Proof.
  intros [H12 Hm12] [H23 Hm23]. split.
  - intros d. by rewrite H23, H12.
  - set_solver.
Qed.

Lemma same_owners_refl w : same_owners w w.
Proof. by split. Qed.

Lemma same_owners_trans w1 w2 w3 :
  same_owners w1 w2 → same_owners w2 w3 → same_owners w1 w3.
Proof.
  intros [Hd12 Hp12] [Hd23 Hp23]. split.
  - intros d. by rewrite Hd23, Hd12.
  - intros p. by rewrite Hp23, Hp12.
Qed.

Lemma link_of_Some d w x :
  datas w !! d = Some x → link_of d w = Some (sibling_ x, sibling_mutex_ x).
Proof. unfold link_of. by intros ->. Qed.

Lemma link_of_inv d w s m :
  link_of d w = Some (s, m) →
  ∃ x, datas w !! d = Some x ∧ sibling_ x = s ∧ sibling_mutex_ x = m.
Proof.
  unfold link_of. destruct (datas w !! d) as [x|]; [|done].
  simpl. intros [= <- <-]. eauto.
Qed.

(* A port data of [w'], seen in a world [w] with the same links. *)
Lemma same_links_lookup w w' d x' :
  same_links w w' → datas w' !! d = Some x' →
  ∃ x, datas w !! d = Some x ∧ sibling_ x = sibling_ x' ∧
       sibling_mutex_ x = sibling_mutex_ x'.
Proof.
  intros [Hl _] Hx'. apply link_of_inv. rewrite <- Hl. by apply link_of_Some.
Qed.

Lemma same_links_lookup_r w w' d x :
  same_links w w' → datas w !! d = Some x →
  ∃ x', datas w' !! d = Some x' ∧ sibling_ x' = sibling_ x ∧
        sibling_mutex_ x' = sibling_mutex_ x.
Proof.
  intros [Hl _] Hx. apply link_of_inv. rewrite Hl. by apply link_of_Some.
Qed.

Lemma same_links_pairs_wf w w' : same_links w w' → pairs_wf w → pairs_wf w'.
Proof.
  intros Hsame Hwf a b xa' Ha' Hsib.
  destruct (same_links_lookup _ _ _ _ Hsame Ha') as (xa & Ha & Hs & Hm).
  destruct (Hwf a b xa Ha) as (Hne & xb & Hb & Hsb & Hmb); [congruence|].
  split; [done|].
  destruct (same_links_lookup_r _ _ _ _ Hsame Hb) as (xb' & Hb' & Hs' & Hm').
  exists xb'. split_and!; congruence.
Qed.

Lemma same_links_mutexes_wf w w' : same_links w w' → mutexes_wf w → mutexes_wf w'.
Proof.
  intros Hsame [Halloc Hexcl]. split.
  - intros d x' Hx'.
    destruct (same_links_lookup _ _ _ _ Hsame Hx') as (x & Hx & _ & Hm).
    rewrite <- Hm. destruct Hsame as [_ Hsub]. apply Hsub. by eapply Halloc.
  - intros a b xa' xb' Ha' Hb' Heq.
    destruct (same_links_lookup _ _ _ _ Hsame Ha') as (xa & Ha & Hsa & Hma).
    destruct (same_links_lookup _ _ _ _ Hsame Hb') as (xb & Hb & Hsb & Hmb).
    destruct (Hexcl a b xa xb Ha Hb) as [?|?]; [congruence|by left|].
    right. congruence.
Qed.

Lemma same_owners_wf w w' : same_owners w w' → owners_wf w → owners_wf w'.
Proof.
  intros [Hd Hp] [Hown1 Hown2]. split.
  - intros p port' d Hport' Hdata.
    assert (∃ port, ports w !! p = Some port ∧ data_ port = Some d)
      as (port & Hport & Hdata0).
    { specialize (Hp p). rewrite Hport' in Hp. simpl in Hp.
      destruct (ports w !! p) as [port|]; [|done]. simpl in Hp.
      exists port. split; [done|]. congruence. }
    destruct (Hown1 _ _ _ Hport Hdata0) as (x & Hx & Hox).
    specialize (Hd d). rewrite Hx in Hd. simpl in Hd.
    destruct (datas w' !! d) as [x'|]; [|done]. simpl in Hd.
    exists x'. split; [done|]. congruence.
  - intros d x' p Hx' Hox.
    assert (∃ x, datas w !! d = Some x ∧ owner_ x = Some p) as (x & Hx & Hox0).
    { specialize (Hd d). rewrite Hx' in Hd. simpl in Hd.
      destruct (datas w !! d) as [x|]; [|done]. simpl in Hd.
      exists x. split; [done|]. congruence. }
    destruct (Hown2 _ _ _ Hx Hox0) as (port & Hport & Hdata).
    specialize (Hp p). rewrite Hport in Hp. simpl in Hp.
    destruct (ports w' !! p) as [port'|]; [|done]. simpl in Hp.
    exists port'. split; [done|]. congruence.
Qed.

(* Updates of one port data or one port. *)
Lemma upd_data_same_links d f w w' :
  (∀ x, sibling_ (f x) = sibling_ x ∧ sibling_mutex_ (f x) = sibling_mutex_ x) →
  upd_data d f w = Some w' → same_links w w'.
Proof.
  unfold upd_data. intros Hf Hrun.
  destruct (datas w !! d) as [x|] eqn:Hx; [|done]. injection Hrun as <-.
  split; [|done]. intros d'. unfold link_of. simpl.
  rewrite lookup_insert. destruct (decide (d = d')) as [<-|]; [|done].
  rewrite Hx. simpl. destruct (Hf x) as [-> ->]. done.
Qed.

Lemma upd_data_same_owners d f w w' :
  (∀ x, owner_ (f x) = owner_ x) →
  upd_data d f w = Some w' → same_owners w w'.
Proof.
  unfold upd_data. intros Hf Hrun.
  destruct (datas w !! d) as [x|] eqn:Hx; [|done]. injection Hrun as <-.
  split; [|done]. intros d'. simpl.
  rewrite lookup_insert. destruct (decide (d = d')) as [<-|]; [|done].
  rewrite Hx. simpl. by rewrite Hf.
Qed.

Lemma upd_port_same_links p f w w' : upd_port p f w = Some w' → same_links w w'.
Proof.
  unfold upd_port. intros Hrun.
  destruct (ports w !! p); [|done]. by injection Hrun as <-.
Qed.

Lemma upd_port_same_owners p f w w' :
  (∀ x, data_ (f x) = data_ x) →
  upd_port p f w = Some w' → same_owners w w'.
Proof.
  unfold upd_port. intros Hf Hrun.
  destruct (ports w !! p) as [port|] eqn:Hport; [|done]. injection Hrun as <-.
  split; [done|]. intros p'. simpl.
  rewrite lookup_insert. destruct (decide (p = p')) as [<-|]; [|done].
  rewrite Hport. simpl. by rewrite Hf.
Qed.

(* Worlds that differ in environments and trace only. *)
Lemma same_stores_links w w' :
  datas w' = datas w → mutexes w' = mutexes w → same_links w w'.
Proof. intros Hd Hm. split; [|by rewrite Hm]. intros d. unfold link_of. by rewrite Hd. Qed.

Lemma same_stores_owners w w' :
  datas w' = datas w → ports w' = ports w → same_owners w w'.
Proof. intros Hd Hp. split; [intros d; by rewrite Hd | intros p; by rewrite Hp]. Qed.

(* Functions that change neither links nor owners. *)
Lemma set_data_shape d x x' w :
  datas w !! d = Some x →
  sibling_ x' = sibling_ x → sibling_mutex_ x' = sibling_mutex_ x →
  owner_ x' = owner_ x →
  same_links w (set_data d x' w) ∧ same_owners w (set_data d x' w).
Proof.
  intros Hx Hs Hm Ho. split.
  - split; [|done]. intros d'. unfold link_of. simpl.
    rewrite lookup_insert. destruct (decide (d = d')) as [<-|]; [|done].
    rewrite Hx. simpl. by rewrite Hs, Hm.
  - split; [|done]. intros d'. simpl.
    rewrite lookup_insert. destruct (decide (d = d')) as [<-|]; [|done].
    rewrite Hx. simpl. by rewrite Ho.
Qed.

Lemma same_stores_shape w w' :
  datas w' = datas w → ports w' = ports w → mutexes w' = mutexes w →
  same_links w w' ∧ same_owners w w'.
Proof.
  intros Hd Hp Hm. split; [by apply same_stores_links | by apply same_stores_owners].
Qed.

Lemma shape_trans w1 w2 w3 :
  same_links w1 w2 ∧ same_owners w1 w2 →
  same_links w2 w3 ∧ same_owners w2 w3 →
  same_links w1 w3 ∧ same_owners w1 w3.
Proof.
  intros [? ?] [? ?].
  split; [by eapply same_links_trans | by eapply same_owners_trans].
Qed.

Lemma shape_refl w : same_links w w ∧ same_owners w w.
Proof. split; [apply same_links_refl | apply same_owners_refl]. Qed.

Lemma shape_well_formed w w' :
  same_links w w' ∧ same_owners w w' → well_formed w → well_formed w'.
Proof.
  intros [Hl Ho] (Hp & Hm & Hw). split_and!.
  - by eapply same_links_pairs_wf.
  - by eapply same_links_mutexes_wf.
  - by eapply same_owners_wf.
Qed.

Lemma AddToIncomingQueue_shape d message w w' :
  MessagePortData_AddToIncomingQueue d message w = Some w' →
  same_links w w' ∧ same_owners w w'.
Proof.
  unfold MessagePortData_AddToIncomingQueue. intros Hrun.
  destruct (datas w !! d) as [x|] eqn:Hx; [|done]. simpl in Hrun.
  eapply shape_trans.
  - by apply (set_data_shape d x
               (with_incoming (incoming_messages_ x ++ [message]) x) w).
  - destruct (owner_ x); injection Hrun as <-; by apply same_stores_shape.
Qed.

Lemma Ping_shape d w w' :
  PingOwnerAfterDisentanglement d w = Some w' →
  same_links w w' ∧ same_owners w w'.
Proof.
  unfold PingOwnerAfterDisentanglement. intros Hrun.
  destruct (datas w !! d) as [x|]; [|done]. simpl in Hrun.
  destruct (owner_ x); injection Hrun as <-; by apply same_stores_shape.
Qed.

Lemma Close_shape p w w' : Close p w = Some w' → same_links w w' ∧ same_owners w w'.
Proof.
  unfold Close. intros Hrun.
  destruct (ports w !! p) as [port|] eqn:Hport; [|done]. simpl in Hrun.
  destruct (state_ port); injection Hrun as <-; try apply shape_refl.
  split; [by apply same_stores_links|].
  split; [done|]. intros p'. simpl.
  rewrite lookup_insert. destruct (decide (p = p')) as [<-|]; [|done].
  by rewrite Hport.
Qed.

Lemma reschedule_shape p w exit w' :
  reschedule p w = Some (exit, w') → same_links w w' ∧ same_owners w w'.
Proof.
  unfold reschedule. intros Hrun.
  destruct (ports w !! p) as [port|]; [|done]. simpl in Hrun.
  destruct (data_ port); injection Hrun as <- <-; by apply same_stores_shape.
Qed.

Section ShapeOfCalls.
Context `{ValueCodec}.

Lemma PostMessage_shape p args w w' thrown :
  PostMessage p args w = Some (w', thrown) → same_links w w' ∧ same_owners w w'.
Proof.
  unfold PostMessage, MessagePort_Send_args, MessagePort_Send. intros Hrun.
  destruct (ports w !! p) as [port|] eqn:Hp;
    [|injection Hrun as <- <-; apply shape_refl].
  destruct (negb _); [injection Hrun as <- <-; apply shape_refl|].
  destruct (bool_decide _); [injection Hrun as <- <-; apply shape_refl|].
  simpl in Hrun.
  destruct (envs w !! port_env port) as [env|]; [|done]. simpl in Hrun.
  destruct (Serialize _ _ _ _) as [[[result iso] msg]|]; [|done]. simpl in Hrun.
  destruct result as [b|e];
    [|injection Hrun as <- <-; by apply same_stores_shape].
  rewrite Hp in Hrun. simpl in Hrun.
  destruct (data_ port) as [d|]; [|done]. simpl in Hrun.
  destruct (datas w !! d) as [x|]; [|done]. simpl in Hrun.
  destruct (sibling_ x) as [s|];
    [|injection Hrun as <- <-; by apply same_stores_shape].
  destruct (MessagePortData_AddToIncomingQueue _ _ _) as [w1|] eqn:Hadd; [|done].
  injection Hrun as <- <-.
  eapply shape_trans; [|by eapply AddToIncomingQueue_shape].
  by apply same_stores_shape.
Qed.

End ShapeOfCalls.

Lemma Start_shape p w w' thrown :
  Start p w = Some (w', thrown) → same_links w w' ∧ same_owners w w'.
Proof.
  unfold Start, MessagePort_Start. intros Hrun.
  destruct (ports w !! p) as [port|] eqn:Hp;
    [|injection Hrun as <- <-; apply shape_refl].
  destruct (negb _); [injection Hrun as <- <-; apply shape_refl|]. simpl in Hrun.
  destruct (data_ port) as [d|]; [|done]. simpl in Hrun.
  destruct (datas w !! d) as [x|] eqn:Hx; [|done]. simpl in Hrun.
  eapply shape_trans.
  - by apply (set_data_shape d x (with_receiving true x) w).
  - destruct (negb _); injection Hrun as <- <-; by apply same_stores_shape.
Qed.

Lemma Stop_shape p w w' thrown :
  Stop p w = Some (w', thrown) → same_links w w' ∧ same_owners w w'.
Proof.
  unfold Stop, MessagePort_Stop, upd_data. intros Hrun.
  destruct (ports w !! p) as [port|] eqn:Hp;
    [|injection Hrun as <- <-; apply shape_refl].
  destruct (negb _); [injection Hrun as <- <-; apply shape_refl|]. simpl in Hrun.
  destruct (data_ port) as [d|]; [|done]. simpl in Hrun.
  destruct (datas w !! d) as [x|] eqn:Hx; [|done]. simpl in Hrun.
  injection Hrun as <- <-.
  by apply (set_data_shape d x (with_receiving false x) w).
Qed.

Lemma Close_js_shape p w w' thrown :
  Close_js p w = Some (w', thrown) → same_links w w' ∧ same_owners w w'.
Proof.
  unfold Close_js. intros Hrun.
  destruct (ports w !! p) as [port|]; [|injection Hrun as <- <-; apply shape_refl].
  destruct (Close p w) as [w1|] eqn:Hclose; [|done]. injection Hrun as <- <-.
  by eapply Close_shape.
Qed.

(* [Disentangle], [Entangle] and the destructor leave the owners alone;
   [Detach] leaves the links alone. *)
Lemma Disentangle_same_owners d w w' :
  MessagePortData_Disentangle d w = Some w' → same_owners w w'.
Proof.
  unfold MessagePortData_Disentangle, make_shared_Mutex. intros Hrun.
  destruct (datas w !! d) as [x|] eqn:Hx; [|done]. simpl in Hrun.
  set (w0 := set_data _ _ _) in Hrun.
  assert (H0 : same_owners w w0).
  { split; [|done]. intros d'. unfold w0. simpl.
    rewrite lookup_insert. destruct (decide (d = d')) as [<-|]; [|done].
    by rewrite Hx. }
  destruct (sibling_ x) as [s|]; simpl in Hrun.
  - destruct (upd_data s _ w0) as [w1|] eqn:H1; [|done]. simpl in Hrun.
    destruct (upd_data d _ w1) as [w2|] eqn:H2; [|done]. simpl in Hrun.
    destruct (PingOwnerAfterDisentanglement d w2) as [w3|] eqn:H3; [|done].
    simpl in Hrun.
    apply upd_data_same_owners in H1; [|done].
    apply upd_data_same_owners in H2; [|done].
    apply Ping_shape in H3 as [_ H3]. apply Ping_shape in Hrun as [_ Hrun].
    eapply same_owners_trans; [exact H0|].
    eapply same_owners_trans; [exact H1|].
    eapply same_owners_trans; [exact H2|].
    by eapply same_owners_trans.
  - destruct (PingOwnerAfterDisentanglement d w0) as [w3|] eqn:H3; [|done].
    simpl in Hrun. injection Hrun as <-.
    apply Ping_shape in H3 as [_ H3]. by eapply same_owners_trans.
Qed.

Lemma dtor_same_owners d w w' :
  MessagePortData_dtor d w = Some w' → same_owners w w'.
Proof.
  unfold MessagePortData_dtor. intros Hrun.
  destruct (datas w !! d); [|done]. simpl in Hrun.
  destruct (negb _); [done|]. by eapply Disentangle_same_owners.
Qed.

Lemma Entangle_same_owners a b w w' :
  MessagePortData_Entangle a b w = Some w' → same_owners w w'.
Proof.
  unfold MessagePortData_Entangle. intros Hrun.
  destruct (datas w !! a) as [xa|]; [|done]. simpl in Hrun.
  destruct (datas w !! b) as [xb|]; [|done]. simpl in Hrun.
  destruct (negb _); [done|]. destruct (negb _); [done|].
  destruct (upd_data a _ w) as [w1|] eqn:H1; [|done]. simpl in Hrun.
  destruct (upd_data b _ w1) as [w2|] eqn:H2; [|done]. simpl in Hrun.
  destruct (datas w2 !! b) as [xb2|]; [|done]. simpl in Hrun.
  apply upd_data_same_owners in H1; [|done].
  apply upd_data_same_owners in H2; [|done].
  apply upd_data_same_owners in Hrun; [|done].
  eapply same_owners_trans; [exact H1|]. by eapply same_owners_trans.
Qed.

Lemma Detach_same_links p w d w' : Detach p w = Some (d, w') → same_links w w'.
Proof.
  unfold Detach. intros Hrun.
  destruct (ports w !! p) as [port|]; [|done]. simpl in Hrun.
  destruct (data_ port) as [d0|]; [|done]. simpl in Hrun.
  destruct (upd_data d0 _ w) as [w1|] eqn:H1; [|done]. simpl in Hrun.
  destruct (upd_port p _ w1) as [w2|] eqn:H2; [|done]. simpl in Hrun.
  injection Hrun as <- <-.
  apply upd_data_same_links in H1; [|done]. apply upd_port_same_links in H2.
  by eapply same_links_trans.
Qed.

(** ** What [Disentangle], [Entangle] and the constructor do to the links *)

Lemma Disentangle_links_wf d w w' :
  pairs_wf w → mutexes_wf w →
  MessagePortData_Disentangle d w = Some w' →
  pairs_wf w' ∧ mutexes_wf w'.
Proof.
  intros Hpairs [Halloc Hexcl] Hrun.
  destruct (datas w !! d) as [x|] eqn:Hx.
  2:{ unfold MessagePortData_Disentangle in Hrun. by rewrite Hx in Hrun. }
  pose proof (is_fresh (mutexes w)) as Hfresh.
  assert (Hcases : ∃ s' : option DataId,
    mutexes w' = {[fresh (mutexes w)]} ∪ mutexes w ∧
    (∀ xd', datas w' !! d = Some xd' →
        sibling_ xd' = None ∧ sibling_mutex_ xd' = fresh (mutexes w)) ∧
    (∀ a xa', datas w' !! a = Some xa' → a ≠ d →
        ∃ xa, datas w !! a = Some xa ∧ sibling_mutex_ xa' = sibling_mutex_ xa ∧
              (sibling_ xa = Some d ∧ sibling_ xa' = None ∨
               sibling_ xa ≠ Some d ∧ xa' = xa)) ∧
    (∀ a xa, datas w !! a = Some xa → sibling_ xa ≠ Some d → a ≠ d →
        datas w' !! a = Some xa)).
  { destruct (sibling_ x) as [s|] eqn:Hs.
    - destruct (Hpairs _ _ _ Hx Hs) as (Hne & xs & Hxs & Hsd & Hsm).
      destruct (Disentangle_pair_result d s x xs w Hx Hs Hxs Hne)
        as (w'' & Hrun' & Hd & _ & _ & _ & Hm).
      rewrite Hrun in Hrun'. injection Hrun' as <-.
      exists (Some s). split_and!; [done|..].
      + intros xd' Hd'. rewrite Hd, lookup_insert_eq in Hd'. by injection Hd' as <-.
      + intros a xa' Ha Had. rewrite Hd in Ha. rewrite lookup_insert_ne in Ha by done.
        destruct (decide (a = s)) as [->|Has].
        * rewrite lookup_insert_eq in Ha. injection Ha as <-.
          exists xs. split_and!; auto.
        * rewrite lookup_insert_ne in Ha by done. exists xa'. split_and!; auto.
          right. split; [|done]. intros Hsa.
          destruct (Hpairs _ _ _ Ha Hsa) as (_ & x0 & Hx0 & Hx0s & _).
          congruence.
      + intros a xa Ha Hsa Had. rewrite Hd. rewrite lookup_insert_ne by done.
        rewrite lookup_insert_ne; [done|]. congruence.
    - destruct (Disentangle_lone_result d x w Hx Hs)
        as (w'' & Hrun' & Hd & _ & _ & _ & Hm).
      rewrite Hrun in Hrun'. injection Hrun' as <-.
      exists None. split_and!; [done|..].
      + intros xd' Hd'. rewrite Hd, lookup_insert_eq in Hd'. by injection Hd' as <-.
      + intros a xa' Ha Had. rewrite Hd in Ha. rewrite lookup_insert_ne in Ha by done.
        exists xa'. split_and!; auto.
        right. split; [|done]. intros Hsa.
        destruct (Hpairs _ _ _ Ha Hsa) as (_ & x0 & Hx0 & Hx0s & _).
        congruence.
      + intros a xa Ha Hsa Had. rewrite Hd. by rewrite lookup_insert_ne. }
  destruct Hcases as (_ & Hm & Hnew & Hold & Hkeep).
  split; [|split].
  - intros a b xa' Ha Hsib.
    destruct (decide (a = d)) as [->|Had].
    { apply Hnew in Ha as [Ha _]. congruence. }
    destruct (Hold _ _ Ha Had) as (xa & Hxa & _ & [[_ Hnone]|[Hnd ->]]); [congruence|].
    destruct (Hpairs _ _ _ Hxa Hsib) as (Hab & xb & Hxb & Hba & Hbm).
    split; [done|]. exists xb. split; [|done].
    apply Hkeep; [done|congruence|]. intros ->. congruence.
  - intros a xa' Ha. rewrite Hm.
    destruct (decide (a = d)) as [->|Had].
    { apply Hnew in Ha as [_ ->]. set_solver. }
    destruct (Hold _ _ Ha Had) as (xa & Hxa & -> & _).
    apply elem_of_union_r. by eapply Halloc.
  - intros a b xa' xb' Ha Hb Hmm.
    destruct (decide (a = d)) as [->|Had]; destruct (decide (b = d)) as [->|Hbd];
      [by left|..].
    + exfalso. apply Hnew in Ha as [_ Ha].
      destruct (Hold _ _ Hb Hbd) as (xb & Hxb & Hmb & _).
      apply Hfresh. rewrite <- Ha, Hmm, Hmb. by eapply Halloc.
    + exfalso. apply Hnew in Hb as [_ Hb].
      destruct (Hold _ _ Ha Had) as (xa & Hxa & Hma & _).
      apply Hfresh. rewrite <- Hb, <- Hmm, Hma. by eapply Halloc.
    + destruct (Hold _ _ Ha Had) as (xa & Hxa & Hma & Hca).
      destruct (Hold _ _ Hb Hbd) as (xb & Hxb & Hmb & Hcb).
      assert (Hmw : sibling_mutex_ xa = sibling_mutex_ xb) by congruence.
      destruct (Hexcl _ _ _ _ Hxa Hxb Hmw) as [->|Hsab]; [by left|].
      destruct Hca as [[Hsd _]|[_ ->]]; [congruence|by right].
Qed.

Lemma Entangle_links_wf a b w w' :
  pairs_wf w → mutexes_wf w → a ≠ b →
  MessagePortData_Entangle a b w = Some w' →
  pairs_wf w' ∧ mutexes_wf w'.
Proof.
  intros Hpairs [Halloc Hexcl] Hne Hrun.
  destruct (datas w !! a) as [xa|] eqn:Hxa.
  2:{ unfold MessagePortData_Entangle in Hrun. by rewrite Hxa in Hrun. }
  destruct (datas w !! b) as [xb|] eqn:Hxb.
  2:{ unfold MessagePortData_Entangle in Hrun. rewrite Hxa in Hrun. simpl in Hrun.
      by rewrite Hxb in Hrun. }
  destruct (sibling_ xa) as [sa|] eqn:Hsa.
  { unfold MessagePortData_Entangle in Hrun. rewrite Hxa in Hrun. simpl in Hrun.
    rewrite Hxb in Hrun. simpl in Hrun. by rewrite Hsa in Hrun. }
  destruct (sibling_ xb) as [sb|] eqn:Hsb.
  { unfold MessagePortData_Entangle in Hrun. rewrite Hxa in Hrun. simpl in Hrun.
    rewrite Hxb in Hrun. simpl in Hrun. by rewrite Hsa, Hsb in Hrun. }
  rewrite (Entangle_result a b xa xb w Hxa Hxb Hne Hsa Hsb) in Hrun.
  injection Hrun as <-.
  set (xa2 := with_sibling_mutex (sibling_mutex_ xb) (with_sibling (Some b) xa)).
  set (xb2 := with_sibling (Some a) xb).
  set (w' := set_data a xa2 _).
  assert (Fa : datas w' !! a = Some xa2) by (unfold w'; simpl; apply lookup_insert_eq).
  assert (Fb : datas w' !! b = Some xb2).
  { unfold w'. simpl. rewrite lookup_insert_ne by done. apply lookup_insert_eq. }
  assert (Fo : ∀ c, c ≠ a → c ≠ b → datas w' !! c = datas w !! c).
  { intros c Hca Hcb. unfold w'. simpl. by rewrite !lookup_insert_ne. }
  assert (Hno : ∀ c xc, datas w !! c = Some xc → sibling_ xc ≠ Some a ∧ sibling_ xc ≠ Some b).
  { intros c xc Hc. split; intros Hs;
      destruct (Hpairs _ _ _ Hc Hs) as (_ & x0 & Hx0 & Hx0s & _); congruence. }
  assert (Hlone : ∀ c xc, datas w !! c = Some xc →
                    sibling_mutex_ xc = sibling_mutex_ xb → c = b).
  { intros c xc Hc Hm. destruct (Hexcl _ _ _ _ Hc Hxb Hm) as [|Hs]; [done|].
    by destruct (Hno c xc Hc). }
  split; [|split].
  - intros c e xc' Hc Hsib.
    destruct (decide (c = a)) as [->|Hca].
    { rewrite Fa in Hc. injection Hc as <-. simpl in Hsib. injection Hsib as <-.
      split; [done|]. by exists xb2. }
    destruct (decide (c = b)) as [->|Hcb].
    { rewrite Fb in Hc. injection Hc as <-. simpl in Hsib. injection Hsib as <-.
      split; [done|]. by exists xa2. }
    rewrite Fo in Hc by done.
    destruct (Hpairs _ _ _ Hc Hsib) as (Hce & xe & Hxe & Hec & Hem).
    split; [done|]. exists xe. split; [|done].
    rewrite Fo; [done|intros ->; congruence|intros ->; congruence].
  - intros c xc' Hc.
    destruct (decide (c = a)) as [->|Hca].
    { rewrite Fa in Hc. injection Hc as <-. simpl. by eapply Halloc. }
    destruct (decide (c = b)) as [->|Hcb].
    { rewrite Fb in Hc. injection Hc as <-. simpl. by eapply Halloc. }
    rewrite Fo in Hc by done. by eapply Halloc.
  - intros c e xc' xe' Hc He Hm.
    destruct (decide (c = a)) as [->|Hca]; [|destruct (decide (c = b)) as [->|Hcb]].
    + rewrite Fa in Hc. injection Hc as <-. simpl in *.
      destruct (decide (e = a)) as [->|Hea]; [by left|].
      destruct (decide (e = b)) as [->|Heb]; [by right|].
      rewrite Fo in He by done. symmetry in Hm. by apply (Hlone e xe' He) in Hm.
    + rewrite Fb in Hc. injection Hc as <-. simpl in *.
      destruct (decide (e = b)) as [->|Heb]; [by left|].
      destruct (decide (e = a)) as [->|Hea]; [by right|].
      rewrite Fo in He by done. symmetry in Hm. by apply (Hlone e xe' He) in Hm.
    + rewrite Fo in Hc by done.
      destruct (decide (e = a)) as [->|Hea].
      { rewrite Fa in He. injection He as <-. simpl in Hm.
        by apply (Hlone c xc' Hc) in Hm. }
      destruct (decide (e = b)) as [->|Heb].
      { rewrite Fb in He. injection He as <-. simpl in Hm.
        by apply (Hlone c xc' Hc) in Hm. }
      rewrite Fo in He by done. by eapply Hexcl.
Qed.

(* The allocation at the head of the constructor. *)
Lemma allocation_well_formed env w :
  well_formed w →
  well_formed
    (set_port (fresh (dom (ports w)))
       (mkPort env (Some (fresh (dom (datas w)))) kInitialized)
       (set_data (fresh (dom (datas w)))
          (mkData [] false (Some (fresh (dom (ports w)))) None (fresh (mutexes w)))
          (snd (make_shared_Mutex (new_uv_async (fresh (dom (ports w))) w))))).
Proof.
  intros (Hpairs & [Halloc Hexcl] & [Hport Hdata]).
  set (p0 := fresh (dom (ports w))).
  set (d0 := fresh (dom (datas w))).
  set (m0 := fresh (mutexes w)).
  assert (Hp0 : ports w !! p0 = None) by (apply not_elem_of_dom, is_fresh).
  assert (Hd0 : datas w !! d0 = None) by (apply not_elem_of_dom, is_fresh).
  pose proof (is_fresh (mutexes w)) as Hm0. fold m0 in Hm0.
  set (w1 := set_port _ _ _).
  assert (Fd : ∀ d x, datas w1 !! d = Some x →
            d = d0 ∧ x = mkData [] false (Some p0) None m0 ∨
            d ≠ d0 ∧ datas w !! d = Some x).
  { intros d x. unfold w1. simpl. rewrite lookup_insert.
    destruct (decide (d0 = d)) as [<-|]; [intros [= <-]; by left|]. right. by split. }
  assert (Fp : ∀ p port, ports w1 !! p = Some port →
            p = p0 ∧ port = mkPort env (Some d0) kInitialized ∨
            p ≠ p0 ∧ ports w !! p = Some port).
  { intros p port. unfold w1. simpl. rewrite lookup_insert.
    destruct (decide (p0 = p)) as [<-|]; [intros [= <-]; by left|]. right. by split. }
  assert (Kd : ∀ d x, datas w !! d = Some x → datas w1 !! d = Some x).
  { intros d x Hx. unfold w1. simpl. rewrite lookup_insert_ne; [done|]. congruence. }
  assert (Kp : ∀ p port, ports w !! p = Some port → ports w1 !! p = Some port).
  { intros p port Hx. unfold w1. simpl. rewrite lookup_insert_ne; [done|]. congruence. }
  split_and!.
  - intros a b xa Ha Hsib.
    destruct (Fd _ _ Ha) as [[-> ->]|[Had Hxa]]; [done|].
    destruct (Hpairs _ _ _ Hxa Hsib) as (Hab & xb & Hxb & Hrest).
    split; [done|]. exists xb. split; [by apply Kd | done].
  - split.
    + intros d x Hx. change (mutexes w1) with ({[m0]} ∪ mutexes w).
      destruct (Fd _ _ Hx) as [[-> ->]|[Had Hxa]]; [set_solver|].
      apply elem_of_union_r. by eapply Halloc.
    + intros a b xa xb Ha Hb Hm.
      destruct (Fd _ _ Ha) as [[-> ->]|[Had Hxa]];
        destruct (Fd _ _ Hb) as [[-> ->]|[Hbd Hxb]]; [by left|..].
      * exfalso. apply Hm0. simpl in Hm. rewrite Hm. by eapply Halloc.
      * exfalso. apply Hm0. simpl in Hm. rewrite <- Hm. by eapply Halloc.
      * by eapply Hexcl.
  - split.
    + intros p port d Hp Hd.
      destruct (Fp _ _ Hp) as [[-> ->]|[Hpp Hxp]].
      * simpl in Hd. injection Hd as <-.
        exists (mkData [] false (Some p0) None m0). split; [|reflexivity].
        unfold w1. simpl. apply lookup_insert_eq.
      * destruct (Hport _ _ _ Hxp Hd) as (x & Hx & Ho). exists x. split; [by apply Kd|done].
    + intros d x p Hx Ho.
      destruct (Fd _ _ Hx) as [[-> ->]|[Hdd Hxd]].
      * simpl in Ho. injection Ho as <-.
        exists (mkPort env (Some d0) kInitialized). split; [|reflexivity].
        unfold w1. simpl. apply lookup_insert_eq.
      * destruct (Hdata _ _ _ Hxd Ho) as (port & Hp & Hpd).
        exists port. split; [by apply Kp|done].
Qed.

(** ** What [Detach], [OnClose] and the adoption do to the owners *)

Lemma owners_stay_refl w : owners_stay w w.
Proof. intros d x Hx. eauto. Qed.

Lemma owners_stay_trans w1 w2 w3 :
  owners_stay w1 w2 → owners_stay w2 w3 → owners_stay w1 w3.
Proof.
  intros H12 H23 d x Hx.
  destruct (H12 _ _ Hx) as (x2 & Hx2 & Ho2).
  destruct (H23 _ _ Hx2) as (x3 & Hx3 & Ho3).
  exists x3. split; [done|congruence].
Qed.

Lemma same_owners_stay w w' : same_owners w w' → owners_stay w w'.
Proof.
  intros [Hd _] d x Hx. specialize (Hd d). rewrite Hx in Hd. simpl in Hd.
  destruct (datas w' !! d) as [x'|]; [|done]. simpl in Hd.
  exists x'. split; [done|congruence].
Qed.

(* A port lets go of its data. *)
Lemma owners_wf_release p d w w' :
  owners_wf w →
  (∃ port, ports w !! p = Some port ∧ data_ port = Some d) →
  (∀ d', owner_ <$> datas w' !! d' =
         (λ x, if decide (d' = d) then None else owner_ x) <$> datas w !! d') →
  (∀ q, data_ <$> ports w' !! q =
        (λ x, if decide (q = p) then None else data_ x) <$> ports w !! q) →
  owners_wf w'.
Proof.
  intros [Hport Hdata] (port & Hp & Hpd) Hd' Hp'.
  destruct (Hport _ _ _ Hp Hpd) as (x & Hx & Hxo).
  split.
  - intros q port' e Hq He.
    specialize (Hp' q). rewrite Hq in Hp'. simpl in Hp'.
    destruct (ports w !! q) as [port0|] eqn:Hq0; [|done]. simpl in Hp'.
    destruct (decide (q = p)) as [->|Hqp]; [congruence|].
    assert (Hpe : data_ port0 = Some e) by congruence.
    destruct (Hport _ _ _ Hq0 Hpe) as (x0 & Hx0 & Hx0o).
    assert (Hed : e ≠ d) by (intros ->; congruence).
    specialize (Hd' e). rewrite Hx0 in Hd'. simpl in Hd'.
    destruct (decide (e = d)); [done|].
    destruct (datas w' !! e) as [x'|]; [|done]. simpl in Hd'.
    exists x'. split; [done|congruence].
  - intros e x' q He Ho.
    specialize (Hd' e). rewrite He in Hd'. simpl in Hd'.
    destruct (datas w !! e) as [x0|] eqn:He0; [|done]. simpl in Hd'.
    destruct (decide (e = d)) as [->|Hed]; [congruence|].
    assert (Hxq : owner_ x0 = Some q) by congruence.
    destruct (Hdata _ _ _ He0 Hxq) as (port0 & Hq0 & Hq0d).
    assert (Hqp : q ≠ p) by (intros ->; congruence).
    specialize (Hp' q). rewrite Hq0 in Hp'. simpl in Hp'.
    destruct (decide (q = p)); [done|].
    destruct (ports w' !! q) as [port'|]; [|done]. simpl in Hp'.
    exists port'. split; [done|congruence].
Qed.

(* A port without data takes a data without owner. *)
Lemma owners_wf_adopt p d w w' :
  owners_wf w →
  (∃ port, ports w !! p = Some port ∧ data_ port = None) →
  (∃ x, datas w !! d = Some x ∧ owner_ x = None) →
  (∀ d', owner_ <$> datas w' !! d' =
         (λ x, if decide (d' = d) then Some p else owner_ x) <$> datas w !! d') →
  (∀ q, data_ <$> ports w' !! q =
        (λ x, if decide (q = p) then Some d else data_ x) <$> ports w !! q) →
  owners_wf w'.
Proof.
  intros [Hport Hdata] (port & Hp & Hpd) (x & Hx & Hxo) Hd' Hp'.
  assert (Hd1 : ∃ x', datas w' !! d = Some x' ∧ owner_ x' = Some p).
  { specialize (Hd' d). rewrite Hx in Hd'. simpl in Hd'.
    destruct (decide (d = d)); [|done].
    destruct (datas w' !! d) as [x'|]; [|done]. simpl in Hd'.
    exists x'. split; [done|congruence]. }
  assert (Hp1 : ∃ port', ports w' !! p = Some port' ∧ data_ port' = Some d).
  { specialize (Hp' p). rewrite Hp in Hp'. simpl in Hp'.
    destruct (decide (p = p)); [|done].
    destruct (ports w' !! p) as [port'|]; [|done]. simpl in Hp'.
    exists port'. split; [done|congruence]. }
  split.
  - intros q port' e Hq He.
    specialize (Hp' q). rewrite Hq in Hp'. simpl in Hp'.
    destruct (ports w !! q) as [port0|] eqn:Hq0; [|done]. simpl in Hp'.
    destruct (decide (q = p)) as [->|Hqp].
    { assert (e = d) as -> by congruence. done. }
    assert (Hpe : data_ port0 = Some e) by congruence.
    destruct (Hport _ _ _ Hq0 Hpe) as (x0 & Hx0 & Hx0o).
    assert (Hed : e ≠ d) by (intros ->; congruence).
    specialize (Hd' e). rewrite Hx0 in Hd'. simpl in Hd'.
    destruct (decide (e = d)); [done|].
    destruct (datas w' !! e) as [x'|]; [|done]. simpl in Hd'.
    exists x'. split; [done|congruence].
  - intros e x' q He Ho.
    specialize (Hd' e). rewrite He in Hd'. simpl in Hd'.
    destruct (datas w !! e) as [x0|] eqn:He0; [|done]. simpl in Hd'.
    destruct (decide (e = d)) as [->|Hed].
    { assert (q = p) as -> by congruence. done. }
    assert (Hxq : owner_ x0 = Some q) by congruence.
    destruct (Hdata _ _ _ He0 Hxq) as (port0 & Hq0 & Hq0d).
    assert (Hqp : q ≠ p) by (intros ->; congruence).
    specialize (Hp' q). rewrite Hq0 in Hp'. simpl in Hp'.
    destruct (decide (q = p)); [done|].
    destruct (ports w' !! q) as [port'|]; [|done]. simpl in Hp'.
    exists port'. split; [done|congruence].
Qed.

Lemma Detach_inv p w d w' :
  Detach p w = Some (d, w') →
  ∃ port x, ports w !! p = Some port ∧ data_ port = Some d ∧
            datas w !! d = Some x ∧
            w' = set_port p (with_data None port) (set_data d (with_owner None x) w).
Proof.
  unfold Detach, upd_data, upd_port. intros Hrun.
  destruct (ports w !! p) as [port|] eqn:Hp; [|done]. simpl in Hrun.
  destruct (data_ port) as [d0|] eqn:Hd; [|done]. simpl in Hrun.
  destruct (datas w !! d0) as [x|] eqn:Hx; [|done]. simpl in Hrun.
  rewrite Hp in Hrun. simpl in Hrun. injection Hrun as <- <-.
  by exists port, x.
Qed.

Lemma Detach_well_formed p w d w' :
  Detach p w = Some (d, w') → well_formed w →
  well_formed w' ∧
  (∃ x', datas w' !! d = Some x' ∧ owner_ x' = None) ∧
  (∃ port', ports w' !! p = Some port' ∧ data_ port' = None) ∧
  (∀ d' x, d' ≠ d → datas w !! d' = Some x → datas w' !! d' = Some x).
Proof.
  intros Hrun (Hpairs & Hmutex & Howners).
  pose proof (Detach_same_links _ _ _ _ Hrun) as Hlinks.
  apply Detach_inv in Hrun as (port & x & Hp & Hpd & Hx & ->).
  split_and!.
  - split_and!.
    + by eapply same_links_pairs_wf.
    + by eapply same_links_mutexes_wf.
    + apply (owners_wf_release p d w); [done|by eauto|..].
      * intros d'. simpl. rewrite lookup_insert.
        destruct (decide (d = d')) as [<-|Hne].
        -- rewrite Hx. simpl. by destruct (decide (d = d)).
        -- destruct (decide (d' = d)); [congruence|]. done.
      * intros q. simpl. rewrite lookup_insert.
        destruct (decide (p = q)) as [<-|Hne].
        -- rewrite Hp. simpl. by destruct (decide (p = p)).
        -- destruct (decide (q = p)); [congruence|]. done.
  - simpl. rewrite lookup_insert_eq. by eexists.
  - simpl. rewrite lookup_insert_eq. by eexists.
  - intros d' x' Hne Hx'. simpl. by rewrite lookup_insert_ne.
Qed.

Lemma dtor_well_formed d w w' :
  MessagePortData_dtor d w = Some w' → well_formed w → well_formed w'.
Proof.
  intros Hrun (Hpairs & Hmutex & Howners).
  pose proof (dtor_same_owners _ _ _ Hrun) as Ho.
  unfold MessagePortData_dtor in Hrun.
  destruct (datas w !! d); [|done]. simpl in Hrun.
  destruct (negb _); [done|].
  destruct (Disentangle_links_wf _ _ _ Hpairs Hmutex Hrun) as [? ?].
  split_and!; [done|done|]. by eapply same_owners_wf.
Qed.

Lemma OnClose_well_formed p w w' :
  OnClose p w = Some w' → well_formed w → well_formed w'.
Proof.
  intros Hrun Hw. apply OnClose_inv in Hrun as (port & w0 & Hp & Hrun & Hdel).
  apply delete_async_inv in Hdel as (_ & _ & _ & Hdp & Hdd & Hdm & _).
  eapply shape_well_formed; [by apply (same_stores_shape w0 w')|].
  clear Hdp Hdd Hdm. destruct Hw as (Hpairs & Hmutex & Howners).
  destruct (data_ port) as [d|] eqn:Hpd;
    [|injection Hrun as <-; by split_and!].
  destruct (upd_data d _ w) as [w1|] eqn:H1; [|done]. simpl in Hrun.
  destruct (MessagePortData_Disentangle d w1) as [w2|] eqn:H2; [|done].
  simpl in Hrun.
  destruct (upd_port p _ w2) as [w3|] eqn:H3; [|done]. simpl in Hrun.
  pose proof (dtor_same_owners _ _ _ Hrun) as Ho4.
  pose proof (Disentangle_same_owners _ _ _ H2) as [Ho2d Ho2p].
  assert (Hl1 : same_links w w1) by (by eapply upd_data_same_links; [|exact H1]).
  pose proof (upd_port_same_links _ _ _ _ H3) as Hl3.
  assert (Hlinks1 : pairs_wf w1 ∧ mutexes_wf w1).
  { split; [by eapply same_links_pairs_wf | by eapply same_links_mutexes_wf]. }
  destruct Hlinks1 as [Hpairs1 Hmutex1].
  destruct (Disentangle_links_wf _ _ _ Hpairs1 Hmutex1 H2) as [Hpairs2 Hmutex2].
  assert (Hpairs3 : pairs_wf w3) by by eapply same_links_pairs_wf.
  assert (Hmutex3 : mutexes_wf w3) by by eapply same_links_mutexes_wf.
  assert (Howners3 : owners_wf w3).
  { apply (owners_wf_release p d w); [done|by eauto|..].
    - intros d'. rewrite (upd_port_datas _ _ _ _ H3), Ho2d.
      unfold upd_data in H1. destruct (datas w !! d) as [x|] eqn:Hx; [|done].
      injection H1 as <-. simpl. rewrite lookup_insert.
      destruct (decide (d = d')) as [<-|Hne].
      + rewrite Hx. simpl. by destruct (decide (d = d)).
      + destruct (decide (d' = d)); [congruence|]. done.
    - intros q. unfold upd_port in H3.
      destruct (ports w2 !! p) as [port2|] eqn:Hp2; [|done].
      injection H3 as <-. simpl. rewrite lookup_insert.
      destruct (decide (p = q)) as [<-|Hne].
      + rewrite Hp. simpl. by destruct (decide (p = p)).
      + destruct (decide (q = p)); [congruence|].
        by rewrite Ho2p, (upd_data_ports _ _ _ _ H1). }
  eapply dtor_well_formed; [exact Hrun|]. by split_and!.
Qed.

(** ** Well-formed worlds stay well-formed *)

Section WellFormedRuns.
Context `{ValueCodec} `{UserCode}.

Section WithExec.
Variable exec : list JsCall → World → option World.
Hypothesis exec_frame :
  ∀ cs w w', exec cs w = Some w' → closed_stays w w' ∧ ports_stay w w'.
Hypothesis exec_well_formed :
  ∀ cs w w', exec cs w = Some w' → well_formed w → well_formed w'.
Hypothesis exec_owners_stay :
  ∀ cs w w', exec cs w = Some w' → owners_stay w w'.

Lemma MessagePort_ctor_well_formed env w p returned w' :
  MessagePort_ctor exec env w = Some (p, returned, w') →
  (well_formed w → well_formed w') ∧ owners_stay w w'.
Proof.
  intros Hrun. pose proof (allocation_well_formed env w) as Halloc.
  unfold MessagePort_ctor, make_shared_Mutex in *. simpl in *.
  set (p0 := fresh (dom (ports w))) in *.
  set (d0 := fresh (dom (datas w))) in *.
  set (w1 := set_port _ _ _) in *.
  assert (Hd0 : datas w !! d0 = None) by (apply not_elem_of_dom, is_fresh).
  assert (Hs1 : owners_stay w w1).
  { intros d x Hx. exists x. split; [|done]. unfold w1. simpl.
    rewrite lookup_insert_ne; [done|]. congruence. }
  destruct (oninit w1 p0) as [[init r]|].
  - destruct (exec init w1) as [w2|] eqn:Hexec; [|done].
    injection Hrun as <- <- <-. split.
    + intros Hw. eapply exec_well_formed; [exact Hexec|]. by apply Halloc.
    + eapply owners_stay_trans; [exact Hs1|]. by eapply exec_owners_stay.
  - injection Hrun as <- <- <-. split; [exact Halloc | exact Hs1].
Qed.

Lemma MessagePort_New_js_well_formed env construct w w' thrown :
  MessagePort_New_js exec env construct w = Some (w', thrown) →
  (well_formed w → well_formed w') ∧ owners_stay w w'.
Proof.
  unfold MessagePort_New_js. intros Hrun.
  destruct (negb construct).
  { injection Hrun as <- <-. split; [done | apply owners_stay_refl]. }
  destruct (MessagePort_ctor exec env w) as [[[p r] w1]|] eqn:Hctor; [|done].
  injection Hrun as <- <-. by eapply MessagePort_ctor_well_formed.
Qed.

Lemma MessagePort_New_fresh_well_formed env w port w' :
  MessagePort_New exec env None w = Some (port, w') →
  (well_formed w → well_formed w') ∧ owners_stay w w'.
Proof.
  unfold MessagePort_New. intros Hrun.
  destruct (MessagePort_ctor exec env w) as [[[p r] w1]|] eqn:Hctor; [|done].
  apply MessagePort_ctor_well_formed in Hctor.
  by destruct r; injection Hrun as <- <-.
Qed.

Lemma MessagePort_New_adopt_well_formed env d w port w' :
  MessagePort_New exec env (Some d) w = Some (port, w') →
  well_formed w →
  (∃ x, datas w !! d = Some x ∧ owner_ x = None) →
  well_formed w'.
Proof.
  unfold MessagePort_New. intros Hrun Hw (x & Hx & Hxo).
  destruct (MessagePort_ctor exec env w) as [[[p r] w1]|] eqn:Hctor; [|done].
  destruct (MessagePort_ctor_frame exec exec_frame _ _ _ _ _ Hctor)
    as (_ & _ & d0 & port1 & Hd0 & Hp1 & Hp1d).
  apply MessagePort_ctor_well_formed in Hctor as [Hw1 Hs1].
  specialize (Hw1 Hw).
  destruct (Hs1 _ _ Hx) as (x1 & Hx1 & Hx1o).
  assert (Hne : d ≠ d0) by congruence.
  destruct r.
  - destruct (Detach p w1) as [[born_with w2]|] eqn:H2; [|done]. simpl in Hrun.
    destruct (MessagePortData_dtor born_with w2) as [w3|] eqn:H3; [|done].
    simpl in Hrun.
    destruct (upd_port p _ w3) as [w4|] eqn:H4; [|done]. simpl in Hrun.
    destruct (upd_data d _ w4) as [w5|] eqn:H5; [|done]. simpl in Hrun.
    injection Hrun as <- <-.
    assert (born_with = d0) as ->.
    { apply Detach_inv in H2 as (port2 & ? & Hp2 & Hp2d & _). congruence. }
    destruct (Detach_well_formed _ _ _ _ H2 Hw1) as (Hw2 & _ & Hp2 & Hkeep).
    pose proof (Hkeep _ _ Hne Hx1) as Hx2.
    pose proof (dtor_well_formed _ _ _ H3 Hw2) as (Hpairs3 & Hmutex3 & Howners3).
    pose proof (dtor_same_owners _ _ _ H3) as [Ho3d Ho3p].
    assert (Hl : same_links w3 (TriggerAsync p w5)).
    { eapply same_links_trans; [by eapply upd_port_same_links|].
      eapply same_links_trans; [by eapply upd_data_same_links; [|exact H5]|].
      by apply same_stores_links. }
    split_and!.
    + by eapply same_links_pairs_wf.
    + by eapply same_links_mutexes_wf.
    + apply (owners_wf_adopt p d w3); [done|..].
      * destruct Hp2 as (port2 & Hport2 & Hport2d).
        specialize (Ho3p p). rewrite Hport2 in Ho3p. simpl in Ho3p.
        destruct (ports w3 !! p) as [port3|]; [|done]. simpl in Ho3p.
        exists port3. split; [done|congruence].
      * specialize (Ho3d d). rewrite Hx2 in Ho3d. simpl in Ho3d.
        destruct (datas w3 !! d) as [x3|]; [|done]. simpl in Ho3d.
        exists x3. split; [done|congruence].
      * intros d'. simpl.
        unfold upd_data in H5. destruct (datas w4 !! d) as [x4|] eqn:Hx4; [|done].
        injection H5 as <-. simpl. rewrite lookup_insert.
        rewrite (upd_port_datas _ _ _ _ H4) in Hx4 |- *.
        destruct (decide (d = d')) as [<-|Hdd].
        -- rewrite Hx4. simpl. by destruct (decide (d = d)).
        -- destruct (decide (d' = d)); [congruence|]. done.
      * intros q. simpl. rewrite (upd_data_ports _ _ _ _ H5).
        unfold upd_port in H4. destruct (ports w3 !! p) as [port3|] eqn:Hp3; [|done].
        injection H4 as <-. simpl. rewrite lookup_insert.
        destruct (decide (p = q)) as [<-|Hpq].
        -- rewrite Hp3. simpl. by destruct (decide (p = p)).
        -- destruct (decide (q = p)); [congruence|]. done.
  - destruct (MessagePortData_dtor d w1) as [w2|] eqn:H2; [|done].
    injection Hrun as <- <-. by eapply dtor_well_formed.
Qed.

Lemma MessageChannel_well_formed env construct w w' thrown :
  MessageChannel exec env construct w = Some (w', thrown) →
  (well_formed w → well_formed w') ∧ owners_stay w w'.
Proof.
  unfold MessageChannel, MessagePort_Entangle. intros Hrun.
  destruct (negb construct).
  { injection Hrun as <- <-. split; [done | apply owners_stay_refl]. }
  destruct (MessagePort_New exec env None w) as [[port1 w1]|] eqn:H1; [|done].
  simpl in Hrun.
  destruct (MessagePort_New exec env None w1) as [[port2 w2]|] eqn:H2; [|done].
  simpl in Hrun.
  destruct port1 as [port1|]; [|done]. destruct port2 as [port2|]; [|done].
  simpl in Hrun.
  destruct (MessagePort_New_fresh_frame exec exec_frame _ _ _ _ H1)
    as (_ & _ & Hnew1).
  destruct (MessagePort_New_fresh_frame exec exec_frame _ _ _ _ H2)
    as (_ & Hs2 & Hnew2).
  apply MessagePort_New_fresh_well_formed in H1 as [Hw1 Ho1].
  apply MessagePort_New_fresh_well_formed in H2 as [Hw2 Ho2].
  destruct (Hnew1 _ eq_refl) as (d1 & p1 & Hd1 & Hp1 & Hdata1).
  destruct (Hnew2 _ eq_refl) as (d2 & p2 & Hd2 & Hp2 & Hdata2).
  destruct (Hs2 _ _ Hp1) as (p1' & Hp1' & Hdata1').
  rewrite Hp1', Hp2 in Hrun. simpl in Hrun.
  rewrite Hdata1', Hdata1, Hdata2 in Hrun. simpl in Hrun.
  destruct (MessagePortData_Entangle d1 d2 w2) as [w3|] eqn:H3; [|done].
  injection Hrun as <- <-.
  pose proof (Entangle_same_owners _ _ _ _ H3) as Ho3.
  split.
  - intros Hw. specialize (Hw1 Hw). specialize (Hw2 Hw1).
    assert (Hne : d1 ≠ d2).
    { destruct Hw1 as (_ & _ & [Hport _]).
      destruct (Hport _ _ _ Hp1 Hdata1) as (x1 & Hx1 & _). congruence. }
    destruct Hw2 as (Hpairs2 & Hmutex2 & Howners2).
    destruct (Entangle_links_wf _ _ _ _ Hpairs2 Hmutex2 Hne H3) as [? ?].
    split_and!; [done|done|]. by eapply same_owners_wf.
  - eapply owners_stay_trans; [exact Ho1|].
    eapply owners_stay_trans; [exact Ho2|]. by apply same_owners_stay.
Qed.

Lemma run_call_well_formed c w w' thrown :
  run_call exec c w = Some (w', thrown) →
  (well_formed w → well_formed w') ∧ owners_stay w w'.
Proof.
  assert (Hshape : ∀ w0 w1, same_links w0 w1 ∧ same_owners w0 w1 →
            (well_formed w0 → well_formed w1) ∧ owners_stay w0 w1).
  { intros w0 w1 Hs. split; [by apply shape_well_formed|].
    apply same_owners_stay, Hs. }
  destruct c; simpl; intros Hrun.
  - by eapply MessagePort_New_js_well_formed.
  - by eapply MessageChannel_well_formed.
  - apply Hshape. by eapply PostMessage_shape.
  - apply Hshape. by eapply Start_shape.
  - apply Hshape. by eapply Stop_shape.
  - apply Hshape. by eapply Close_js_shape.
Qed.

Lemma run_calls_well_formed cs :
  ∀ w w', run_calls exec cs w = Some w' →
          (well_formed w → well_formed w') ∧ owners_stay w w'.
Proof.
  induction cs as [|c cs IH]; intros w w' Hrun; simpl in Hrun.
  - injection Hrun as <-. split; [done | apply owners_stay_refl].
  - destruct (run_call exec c w) as [[w1 thrown]|] eqn:Hcall; [|done].
    simpl in Hrun. apply run_call_well_formed in Hcall as [Hw1 Ho1].
    apply IH in Hrun as [Hw2 Ho2].
    split; [by auto | by eapply owners_stay_trans].
Qed.

End WithExec.

Lemma run_script_well_formed fuel :
  ∀ cs w w', run_script fuel cs w = Some w' →
             (well_formed w → well_formed w') ∧ owners_stay w w'.
Proof.
  induction fuel as [|fuel IH]; intros cs w w' Hrun; [done|].
  simpl in Hrun. eapply run_calls_well_formed; [| | |exact Hrun].
  - apply run_script_frame.
  - intros cs0 w0 w1 Hr. by apply IH in Hr as [? _].
  - intros cs0 w0 w1 Hr. by apply IH in Hr as [_ ?].
Qed.

Lemma OnMessage_loop_well_formed fuel :
  ∀ p w exit w', OnMessage_loop fuel p w = Some (exit, w') →
                 well_formed w → well_formed w'.
Proof.
  induction fuel as [|fuel IH]; intros p w exit w' Hrun Hw; [done|].
  simpl in Hrun.
  destruct (ports w !! p) as [port|] eqn:Hport; [|done]. simpl in Hrun.
  destruct (data_ port) as [d|] eqn:Hdata; [|by injection Hrun as <- <-].
  destruct (datas w !! d) as [x|] eqn:Hx; [|done]. simpl in Hrun.
  destruct (receiving_messages_ x); simpl in Hrun; [|by injection Hrun as <- <-].
  destruct (incoming_messages_ x) as [|received rest] eqn:Hq;
    [by injection Hrun as <- <-|].
  assert (Hpop : ∀ w0, datas w0 = <[d := with_incoming rest x]> (datas w) →
                   ports w0 = ports w → mutexes w0 = mutexes w → well_formed w0).
  { intros w0 Hd0 Hp0 Hm0. eapply shape_well_formed; [|exact Hw].
    eapply shape_trans; [by apply (set_data_shape d x (with_incoming rest x) w)|].
    by apply same_stores_shape. }
  destruct (envs w !! port_env port) as [env|]; [|done]. simpl in Hrun.
  destruct (can_call_into_js env); simpl in Hrun;
    [|eapply IH; [exact Hrun | by apply Hpop]].
  destruct (Deserialize (isolate env) received) as [[arg iso] consumed].
  set (w1 := set_env _ _ _) in Hrun.
  assert (Hw1 : well_formed w1) by by apply Hpop.
  assert (Hre : ∀ w2 exit w3, well_formed w2 →
                  reschedule p w2 = Some (exit, w3) → well_formed w3).
  { intros w2 exit' w3 Hw2 Hr. apply reschedule_shape in Hr.
    by eapply shape_well_formed. }
  destruct arg as [v|]; [|by eapply Hre].
  destruct (Has_onmessage w1 p); simpl in Hrun; [|by eapply Hre].
  destruct (onmessage w1 p v) as [calls returned].
  destruct (run_script fuel calls _) as [w2|] eqn:Hscript; [|done].
  simpl in Hrun. apply run_script_well_formed in Hscript as [Hscript _].
  assert (Hw2 : well_formed w2) by by apply Hscript, Hpop.
  destruct returned; [eapply IH; [exact Hrun | exact Hw2] | by eapply Hre].
Qed.

Lemma OnMessage_well_formed fuel p w w' :
  OnMessage fuel p w = Some w' → well_formed w → well_formed w'.
Proof.
  unfold OnMessage. intros Hrun Hw.
  destruct (OnMessage_loop fuel p w) as [[[|] w1]|] eqn:Hloop; [| |done];
    apply OnMessage_loop_well_formed in Hloop; try done.
  - destruct (ports w1 !! p) as [port|]; [|done]. simpl in Hrun.
    destruct (data_ port) as [d|]; [|by injection Hrun as <-].
    destruct (MessagePortData_IsSiblingClosed d w1) as [[|]|]; [| |done].
    + apply Close_shape in Hrun. by eapply shape_well_formed.
    + by injection Hrun as <-.
  - by injection Hrun as <-.
Qed.

Lemma step_well_formed fuel a w w' :
  step fuel a w = Some w' → well_formed w → well_formed w'.
Proof.
  destruct a as [c|p|p|p env]; simpl; intros Hrun Hw.
  - apply run_script_well_formed in Hrun as [Hrun _]. auto.
  - by eapply OnMessage_well_formed.
  - destruct (upd_port p _ w) as [w1|] eqn:H1; [|done]. simpl in Hrun.
    eapply OnClose_well_formed; [exact Hrun|].
    eapply shape_well_formed; [|exact Hw].
    split; [by eapply upd_port_same_links |].
    by eapply upd_port_same_owners; [|exact H1].
  - destruct (Detach p w) as [[d w1]|] eqn:H1; [|done]. simpl in Hrun.
    destruct (MessagePort_New _ env (Some d) w1) as [[port w2]|] eqn:H2; [|done].
    injection Hrun as <-.
    destruct (Detach_well_formed _ _ _ _ H1 Hw) as (Hw1 & Hd & _).
    eapply MessagePort_New_adopt_well_formed; [| | |exact H2|done|done].
    + apply run_script_frame.
    + intros cs0 w0 w3 Hr. by apply run_script_well_formed in Hr as [? _].
    + intros cs0 w0 w3 Hr. by apply run_script_well_formed in Hr as [_ ?].
Qed.

Lemma run_well_formed fuel acts :
  ∀ w w', run fuel acts w = Some w' → well_formed w → well_formed w'.
Proof.
  induction acts as [|a acts IH]; intros w w' Hrun Hw; simpl in Hrun.
  - by injection Hrun as <-.
  - destruct (step fuel a w) as [w1|] eqn:Hstep; [|done]. simpl in Hrun.
    eapply IH; [exact Hrun|]. by eapply step_well_formed.
Qed.

End WellFormedRuns.

(** ** What every run keeps *)

Section Invariants.
Context `{ValueCodec} `{UserCode}.

(** X17.  Entanglement stays mutual.  In every world a run of the event
    loop reaches from a well-formed world, a port data with a sibling is
    the sibling of its sibling, the two are different port data, and
    they hold the same mutex. *)
Theorem entanglement_stays_mutual (fuel : nat) (acts : list Action) (w w' : World)
    (a b : DataId) (xa : MessagePortData) :
  well_formed w →
  run fuel acts w = Some w' →
  datas w' !! a = Some xa →
  sibling_ xa = Some b →
  a ≠ b ∧
  ∃ xb, datas w' !! b = Some xb ∧ sibling_ xb = Some a ∧
        sibling_mutex_ xb = sibling_mutex_ xa.
Proof.
  intros Hw Hrun Ha Hsib.
  destruct (run_well_formed _ _ _ _ Hrun Hw) as (Hpairs & _ & _).
  by eapply Hpairs.
Qed.

(** X18.  A mutex is shared by siblings only.  In every world a run
    reaches from a well-formed world, two different port data that hold
    the same mutex are entangled with each other; so [Disentangle], which
    gives the port data a new mutex, and the constructor never hand out
    a mutex that is in use. *)
Theorem mutex_shared_by_siblings_only (fuel : nat) (acts : list Action) (w w' : World)
    (a b : DataId) (xa xb : MessagePortData) :
  well_formed w →
  run fuel acts w = Some w' →
  datas w' !! a = Some xa →
  datas w' !! b = Some xb →
  a ≠ b →
  sibling_mutex_ xa = sibling_mutex_ xb →
  sibling_ xa = Some b ∧ sibling_ xb = Some a.
Proof.
  intros Hw Hrun Ha Hb Hne Hm.
  destruct (run_well_formed _ _ _ _ Hrun Hw) as (Hpairs & [_ Hexcl] & _).
  destruct (Hexcl _ _ _ _ Ha Hb Hm) as [|Hsib]; [done|].
  split; [done|].
  destruct (Hpairs _ _ _ Ha Hsib) as (_ & xb' & Hb' & Hba & _). congruence.
Qed.

(** X19.  A port and its data name each other.  In every world a run
    reaches from a well-formed world, a port holds a port data exactly
    when that port data names the port as its owner; hence no port data
    is held by two ports. *)
Theorem port_and_data_name_each_other (fuel : nat) (acts : list Action) (w w' : World)
    (p : PortId) (d : DataId) :
  well_formed w →
  run fuel acts w = Some w' →
  ((∃ port, ports w' !! p = Some port ∧ data_ port = Some d) ↔
   (∃ x, datas w' !! d = Some x ∧ owner_ x = Some p)) ∧
  (∀ q port port',
     ports w' !! p = Some port → data_ port = Some d →
     ports w' !! q = Some port' → data_ port' = Some d → p = q).
Proof.
  intros Hw Hrun.
  destruct (run_well_formed _ _ _ _ Hrun Hw) as (_ & _ & [Hport Hdata]).
  split; [split|].
  - intros (port & Hp & Hd). by eapply Hport.
  - intros (x & Hx & Ho). by eapply Hdata.
  - intros q port port' Hp Hd Hq Hd'.
    destruct (Hport _ _ _ Hp Hd) as (x & Hx & Ho).
    destruct (Hport _ _ _ Hq Hd') as (x' & Hx' & Ho'). congruence.
Qed.

End Invariants.

(* A world without ports. *)
Lemma sample_world_well_formed : well_formed sample_world.
Proof.
  unfold well_formed, pairs_wf, mutexes_wf, owners_wf, sample_world. simpl.
  split_and!.
  - intros a b xa Ha. by rewrite lookup_empty in Ha.
  - intros d x Hx. by rewrite lookup_empty in Hx.
  - intros a b xa xb Ha. by rewrite lookup_empty in Ha.
  - intros p port d Hp. by rewrite lookup_empty in Hp.
  - intros d x p Hx. by rewrite lookup_empty in Hx.
Qed.

(** ** The properties above on the example worlds *)

(* Buffer 5 is sent along with itself; the receiving isolate is the
   sending one as it was. *)
Lemma transferred_buffers_round_trip_witness :
  array_buffer_contents_ empty_Message = [] ∧
  @Serialize sample_codec (ArrayBufferRef 5) (ArrayRef [Some (ArrayBufferRef 5)])
             sample_isolate empty_Message
    = Some (Just true, sent_isolate, sent_message) ∧
  ∃ (abs : list AbId) (body : list byte) (new_abs : list AbId),
    main_message_buf_ sent_message = Some (@WriteHeader_bytes sample_codec ++ body) ∧
    length new_abs = length abs.
Proof.
  assert (Hs : @Serialize sample_codec (ArrayBufferRef 5)
                 (ArrayRef [Some (ArrayBufferRef 5)]) sample_isolate empty_Message
               = Some (Just true, sent_isolate, sent_message)) by (by vm_compute).
  split; [reflexivity|]. split; [exact Hs|].
  destruct (@transferred_buffers_round_trip sample_codec (ArrayBufferRef 5)
              (ArrayRef [Some (ArrayBufferRef 5)]) sample_isolate empty_Message
              sent_isolate sent_message sample_isolate eq_refl Hs)
    as (abs & body & new_abs & _ & Hbuf & Hlen & _).
  by exists abs, body, new_abs.
Defined.

(* Buffer 6 is external: it does not survive, and nothing is taken. *)
Lemma Serialize_without_survivors_witness :
  is_empty (main_message_buf_ empty_Message) = true ∧
  surviving_list sample_isolate [Some (ArrayBufferRef 6)] = [] ∧
  @Serialize sample_codec (Other 1) (ArrayRef [Some (ArrayBufferRef 6)])
             sample_isolate empty_Message
    = Some (Just true, sample_isolate, number_message).
Proof.
  split; [reflexivity|]. split; [reflexivity|].
  apply (@Serialize_without_survivors sample_codec (Other 1)
           (ArrayRef [Some (ArrayBufferRef 6)]) sample_isolate empty_Message eq_refl).
  right. right. right. exists [Some (ArrayBufferRef 6)].
  split; [reflexivity|]. split; [|reflexivity].
  apply Forall_cons. split; [|apply Forall_nil_2].
  exists 6. split; [reflexivity|]. vm_compute. eauto.
Defined.

Lemma Serialize_throwing_getter_witness :
  is_empty (main_message_buf_ empty_Message) = true ∧
  @Serialize sample_codec (Other 1) (ArrayRef [Some (ArrayBufferRef 5); None])
             sample_isolate empty_Message
    = Some (Nothing JsException, sample_isolate, empty_Message).
Proof.
  split; [reflexivity|].
  apply (@Serialize_throwing_getter sample_codec (Other 1) sample_isolate
           empty_Message [Some (ArrayBufferRef 5)] [] eq_refl).
  apply Forall_cons. split; [|apply Forall_nil_2].
  exists 5. split; [reflexivity|]. vm_compute. eauto.
Defined.

(* The data of two ports made by [new MessagePort()] are entangled. *)
Lemma Entangle_links_witness :
  datas lone_ports_world !! 0 = Some (mkData [] false (Some 0) None 0) ∧
  datas lone_ports_world !! 1 = Some (mkData [] false (Some 1) None 1) ∧
  ∃ w', MessagePortData_Entangle 0 1 lone_ports_world = Some w' ∧
        datas w' !! 0 = Some (mkData [] false (Some 0) (Some 1) 1) ∧
        datas w' !! 1 = Some (mkData [] false (Some 1) (Some 0) 1).
Proof.
  assert (H0 : datas lone_ports_world !! 0 = Some (mkData [] false (Some 0) None 0))
    by (by vm_compute).
  assert (H1 : datas lone_ports_world !! 1 = Some (mkData [] false (Some 1) None 1))
    by (by vm_compute).
  split; [exact H0|]. split; [exact H1|].
  destruct (Entangle_links 0 1 _ _ lone_ports_world H0 H1 ltac:(lia))
    as (w' & Hrun & Ha & Hb & _).
  by exists w'.
Defined.

Lemma MessageChannel_creates_entangled_pair_witness :
  (∀ w0 p0, @oninit quiet_user w0 p0 = None) ∧
  ∃ w' p1 p2 d1 d2 m,
    @MessageChannel quiet_user (@run_script sample_codec quiet_user 3) 0 true
                    sample_world = Some (w', None) ∧
    datas w' !! d1 = Some (mkData [] false (Some p1) (Some d2) m) ∧
    datas w' !! d2 = Some (mkData [] false (Some p2) (Some d1) m).
Proof.
  split; [reflexivity|].
  destruct (@MessageChannel_creates_entangled_pair quiet_user
              (@run_script sample_codec quiet_user 3) 0 sample_world
              (λ _ _, eq_refl))
    as (_ & w' & p1 & p2 & d1 & d2 & m & Hrun & _ & _ & _ & _ & _ & _ & _ & _ & _ &
        Hd1 & Hd2 & _).
  by exists w', p1, p2, d1, d2, m.
Defined.

(* Port 1 is stopped with two messages in its queue. *)
Lemma stopped_port_delivers_nothing_witness :
  ports pending_world !! 1 = Some (mkPort 0 (Some 1) kInitialized) ∧
  datas pending_world !! 1 =
    Some (mkData [number_message; undefined_message] true (Some 1) (Some 0) 1) ∧
  ∃ w1 w2,
    MessagePort_Stop 1 pending_world = Some w1 ∧
    @OnMessage sample_codec quiet_user 1 1 w1 = Some w2 ∧
    queue_of 1 w2 = [number_message; undefined_message].
Proof.
  assert (Hp : ports pending_world !! 1 = Some (mkPort 0 (Some 1) kInitialized))
    by (by vm_compute).
  assert (Hd : datas pending_world !! 1 =
            Some (mkData [number_message; undefined_message] true (Some 1) (Some 0) 1))
    by (by vm_compute).
  split; [exact Hp|]. split; [exact Hd|].
  destruct (@stopped_port_delivers_nothing sample_codec quiet_user 0 1 pending_world
              _ 1 _ Hp eq_refl Hd)
    as (w1 & w2 & w3 & Hstop & Hrun & Hq & _).
  by exists w1, w2.
Defined.

Lemma OnMessage_drains_at_shutdown_witness :
  envs shutdown_world !! 0 = Some (mkEnv sample_isolate false) ∧
  datas shutdown_world !! 1 =
    Some (mkData [number_message; undefined_message] true (Some 1) (Some 0) 1) ∧
  ∃ w', @OnMessage sample_codec quiet_user 3 1 shutdown_world = Some w' ∧
        queue_of 1 w' = [] ∧
        (∀ d', delivered d' (trace w') = delivered d' (trace shutdown_world)).
Proof.
  assert (Hp : ports shutdown_world !! 1 = Some (mkPort 0 (Some 1) kInitialized))
    by (by vm_compute).
  assert (Hd : datas shutdown_world !! 1 =
            Some (mkData [number_message; undefined_message] true (Some 1) (Some 0) 1))
    by (by vm_compute).
  assert (He : envs shutdown_world !! 0 = Some (mkEnv sample_isolate false))
    by (by vm_compute).
  split; [exact He|]. split; [exact Hd|].
  destruct (@OnMessage_drains_at_shutdown sample_codec quiet_user 3 1 shutdown_world
              _ 1 _ _ Hp eq_refl Hd eq_refl He eq_refl ltac:(simpl; lia))
    as (w' & Hrun & Hq & _ & Hdel & _).
  by exists w'.
Defined.

Lemma OnMessage_delivers_whole_queue_witness :
  datas pending_world !! 1 =
    Some (mkData [number_message; undefined_message] true (Some 1) (Some 0) 1) ∧
  ∃ w', @OnMessage sample_codec quiet_user 3 1 pending_world = Some w' ∧
        queue_of 1 w' = [] ∧
        delivered 1 (trace w') =
          delivered 1 (trace pending_world) ++ [number_message; undefined_message].
Proof.
  assert (Hp : ports pending_world !! 1 = Some (mkPort 0 (Some 1) kInitialized))
    by (by vm_compute).
  assert (Hd : datas pending_world !! 1 =
            Some (mkData [number_message; undefined_message] true (Some 1) (Some 0) 1))
    by (by vm_compute).
  assert (He : envs pending_world !! 0 = Some (mkEnv sample_isolate true))
    by (by vm_compute).
  split; [exact Hd|].
  destruct (@OnMessage_delivers_whole_queue sample_codec quiet_user 3 1 pending_world
              _ 1 _ _ (λ _, eq_refl) (λ _ _, eq_refl) Hp eq_refl Hd eq_refl He eq_refl)
    as (w' & Hrun & Hq & _ & Hdel).
  - intros iso m Hm. simpl in Hm.
    apply elem_of_cons in Hm as [->|Hm]; [vm_compute; eauto|].
    apply elem_of_cons in Hm as [->|Hm]; [vm_compute; eauto|].
    by apply elem_of_nil in Hm.
  - simpl. lia.
  - by exists w'.
Defined.

Lemma OnMessage_without_handler_witness :
  (∀ w0, @Has_onmessage deaf_user w0 1 = false) ∧
  ∃ w', @OnMessage sample_codec deaf_user 1 1 pending_world = Some w' ∧
        queue_of 1 w' = [undefined_message] ∧
        trace w' = trace pending_world ++ [pop_front 1 number_message; uv_async_send 1].
Proof.
  assert (Hp : ports pending_world !! 1 = Some (mkPort 0 (Some 1) kInitialized))
    by (by vm_compute).
  assert (Hd : datas pending_world !! 1 =
            Some (mkData [number_message; undefined_message] true (Some 1) (Some 0) 1))
    by (by vm_compute).
  assert (He : envs pending_world !! 0 = Some (mkEnv sample_isolate true))
    by (by vm_compute).
  split; [reflexivity|].
  destruct (@OnMessage_without_handler sample_codec deaf_user 0 1 pending_world
              _ 1 _ _ _ _ (λ _, eq_refl) Hp eq_refl Hd eq_refl eq_refl He eq_refl)
    as (w' & Hrun & Hq & Ht & _).
  by exists w'.
Defined.

Lemma OnMessage_handler_throws_witness :
  (∀ w0 v0, @onmessage throwing_user w0 1 v0 = ([], false)) ∧
  ∃ w', @OnMessage sample_codec throwing_user 2 1 pending_world = Some w' ∧
        queue_of 1 w' = [undefined_message] ∧
        trace w' = trace pending_world ++
                     [pop_front 1 number_message;
                      call_onmessage 1 1 number_message (Other 1);
                      uv_async_send 1].
Proof.
  assert (Hp : ports pending_world !! 1 = Some (mkPort 0 (Some 1) kInitialized))
    by (by vm_compute).
  assert (Hd : datas pending_world !! 1 =
            Some (mkData [number_message; undefined_message] true (Some 1) (Some 0) 1))
    by (by vm_compute).
  assert (He : envs pending_world !! 0 = Some (mkEnv sample_isolate true))
    by (by vm_compute).
  split; [reflexivity|].
  destruct (@OnMessage_handler_throws sample_codec throwing_user 0 1 pending_world
              _ 1 _ _ _ _ (Other 1) (λ _, eq_refl) (λ _ _, eq_refl)
              Hp eq_refl Hd eq_refl eq_refl He eq_refl ltac:(by vm_compute))
    as (w' & Hrun & Hq & Ht & _).
  by exists w'.
Defined.

(* Both ports of a channel are woken up. *)
Lemma Disentangle_wakes_owners_witness :
  datas channel_world !! 0 = Some (mkData [] false (Some 0) (Some 1) 1) ∧
  ∃ w', MessagePortData_Disentangle 0 channel_world = Some w' ∧
        trace w' = trace channel_world ++ [uv_async_send 0; uv_async_send 1].
Proof.
  assert (H0 : datas channel_world !! 0 = Some (mkData [] false (Some 0) (Some 1) 1))
    by (by vm_compute).
  assert (H1 : datas channel_world !! 1 = Some (mkData [] false (Some 1) (Some 0) 1))
    by (by vm_compute).
  split; [exact H0|].
  destruct (proj2 (Disentangle_wakes_owners 0 _ channel_world H0) 1 _ eq_refl H1
              ltac:(lia))
    as (w' & Hrun & Ht & _).
  by exists w'.
Defined.

Lemma channel_world_well_formed : well_formed channel_world.
Proof.
  apply (@run_well_formed sample_codec quiet_user 3
           [RunJs (js_MessageChannel 0 true)] sample_world channel_world);
    [by vm_compute | apply sample_world_well_formed].
Qed.

Lemma OnClose_tears_pair_apart_witness :
  0 ∈ asyncs channel_world ∧
  ports channel_world !! 0 = Some (mkPort 0 (Some 0) kInitialized) ∧
  ∃ w', OnClose 0 channel_world = Some w' ∧
        ports w' !! 0 = Some (mkPort 0 None kInitialized) ∧
        (0 ∉ asyncs w') ∧
        datas w' !! 1 = Some (mkData [] false (Some 1) None 1) ∧
        trace w' = trace channel_world ++ [uv_async_send 1].
Proof.
  assert (Ha : 0 ∈ asyncs channel_world)
    by (apply (bool_decide_unpack _); by vm_compute).
  assert (Hp : ports channel_world !! 0 = Some (mkPort 0 (Some 0) kInitialized))
    by (by vm_compute).
  assert (H0 : datas channel_world !! 0 = Some (mkData [] false (Some 0) (Some 1) 1))
    by (by vm_compute).
  assert (H1 : datas channel_world !! 1 = Some (mkData [] false (Some 1) (Some 0) 1))
    by (by vm_compute).
  split; [exact Ha|]. split; [exact Hp|].
  destruct (OnClose_tears_pair_apart 0 channel_world _ 0 1 _ _
              channel_world_well_formed Ha Hp eq_refl H0 eq_refl H1)
    as (w' & Hrun & Hp' & _ & Hasync & Hs & _ & _ & _ & Ht).
  exists w'. split_and!; try done.
  rewrite Hasync. set_solver.
Defined.

Lemma messages_in_transit_are_kept_witness :
  (∀ w0 p0, @oninit quiet_user w0 p0 = None) ∧
  ∃ w1 w2 w3 p',
    Detach 1 channel_world = Some (1, w1) ∧
    MessagePortData_AddToIncomingQueue 1 number_message w1 = Some w2 ∧
    @MessagePort_New quiet_user (@run_script sample_codec quiet_user 3) 0 (Some 1) w2
      = Some (Some p', w3) ∧
    datas w3 !! 1 = Some (mkData [number_message] false (Some p') (Some 0) 1) ∧
    trace w3 = trace channel_world ++
                 [emplace_back 1 number_message; uv_async_send p'].
Proof.
  assert (Hp : ports channel_world !! 1 = Some (mkPort 0 (Some 1) kInitialized))
    by (by vm_compute).
  assert (H1 : datas channel_world !! 1 = Some (mkData [] false (Some 1) (Some 0) 1))
    by (by vm_compute).
  split; [reflexivity|].
  destruct (@messages_in_transit_are_kept quiet_user
              (@run_script sample_codec quiet_user 3) 0 1 channel_world _ 1 _
              number_message (λ _ _, eq_refl) Hp eq_refl H1)
    as (w1 & w2 & w3 & p' & Hdetach & Hadd & _ & Hnew & _ & Hd & Ht).
  by exists w1, w2, w3, p'.
Defined.

Lemma Transfer_moves_data_witness :
  (∀ w0 p0, @oninit quiet_user w0 p0 = None) ∧
  ∃ w' p',
    @step sample_codec quiet_user 3 (Transfer 1 0) channel_world = Some w' ∧
    ports w' !! 1 = Some (mkPort 0 None kInitialized) ∧
    ports w' !! p' = Some (mkPort 0 (Some 1) kInitialized) ∧
    datas w' !! 1 = Some (mkData [] false (Some p') (Some 0) 1).
Proof.
  assert (Hp : ports channel_world !! 1 = Some (mkPort 0 (Some 1) kInitialized))
    by (by vm_compute).
  assert (H1 : datas channel_world !! 1 = Some (mkData [] false (Some 1) (Some 0) 1))
    by (by vm_compute).
  split; [reflexivity|].
  destruct (@Transfer_moves_data sample_codec quiet_user 3 1 0 channel_world _ 1 _
              (λ _ _, eq_refl) Hp eq_refl H1)
    as (w' & p' & Hrun & _ & Hold & Hnew & _ & Hd & _).
  by exists w', p'.
Defined.

Lemma PostMessage_reaches_sibling_witness :
  @Serialize sample_codec (Other 1) Undefined sample_isolate empty_Message
    = Some (Just true, sample_isolate, number_message) ∧
  ∃ w', @PostMessage sample_codec 0 [Other 1] channel_world = Some (w', None) ∧
        datas w' = <[1 := mkData [number_message] false (Some 1) (Some 0) 1]>
                     (datas channel_world) ∧
        trace w' = trace channel_world ++
                     [emplace_back 1 number_message; uv_async_send 1].
Proof.
  assert (Hp : ports channel_world !! 0 = Some (mkPort 0 (Some 0) kInitialized))
    by (by vm_compute).
  assert (H0 : datas channel_world !! 0 = Some (mkData [] false (Some 0) (Some 1) 1))
    by (by vm_compute).
  assert (H1 : datas channel_world !! 1 = Some (mkData [] false (Some 1) (Some 0) 1))
    by (by vm_compute).
  assert (He : envs channel_world !! 0 = Some (mkEnv sample_isolate true))
    by (by vm_compute).
  assert (Hs : @Serialize sample_codec (Other 1) Undefined sample_isolate empty_Message
               = Some (Just true, sample_isolate, number_message)) by (by vm_compute).
  split; [exact Hs|].
  destruct (@PostMessage_reaches_sibling sample_codec 0 [Other 1] channel_world
              _ 0 1 _ _ _ _ _ Hp eq_refl H0 eq_refl H1 He ltac:(done) Hs)
    as (w' & Hrun & Hd & Ht & _).
  by exists w'.
Defined.

(* A port without sibling posts buffer 5 with itself as the transfer list. *)
Lemma PostMessage_without_sibling_loses_buffers_witness :
  datas lone_ports_world !! 0 = Some (mkData [] false (Some 0) None 0) ∧
  @Serialize sample_codec (ArrayBufferRef 5) (ArrayRef [Some (ArrayBufferRef 5)])
             sample_isolate empty_Message
    = Some (Just true, sent_isolate, sent_message) ∧
  ∃ w', @PostMessage sample_codec 0
          [ArrayBufferRef 5; ArrayRef [Some (ArrayBufferRef 5)]] lone_ports_world
          = Some (w', None) ∧
        datas w' = datas lone_ports_world ∧
        envs w' !! 0 = Some (mkEnv sent_isolate true).
Proof.
  assert (Hp : ports lone_ports_world !! 0 = Some (mkPort 0 (Some 0) kInitialized))
    by (by vm_compute).
  assert (H0 : datas lone_ports_world !! 0 = Some (mkData [] false (Some 0) None 0))
    by (by vm_compute).
  assert (He : envs lone_ports_world !! 0 = Some (mkEnv sample_isolate true))
    by (by vm_compute).
  assert (Hs : @Serialize sample_codec (ArrayBufferRef 5)
                 (ArrayRef [Some (ArrayBufferRef 5)]) sample_isolate empty_Message
               = Some (Just true, sent_isolate, sent_message)) by (by vm_compute).
  split; [exact H0|]. split; [exact Hs|].
  destruct (@PostMessage_without_sibling_loses_buffers sample_codec 0
              (ArrayBufferRef 5) [Some (ArrayBufferRef 5)] lone_ports_world
              _ 0 _ _ sent_isolate sent_message Hp eq_refl H0 eq_refl He)
    as (w' & Hrun & Hd & _ & Henv & _).
  - apply Forall_cons. split; [|apply Forall_nil_2].
    exists 5. split; [reflexivity|]. vm_compute. eauto.
  - exact Hs.
  - by exists w'.
Defined.

(* A new channel, then the move of its port 1 to a new port 2. *)
Lemma entanglement_stays_mutual_witness :
  @run sample_codec quiet_user 3 channel_and_move sample_world = Some adopted_world ∧
  datas adopted_world !! 1 = Some (mkData [] false (Some 2) (Some 0) 1) ∧
  ∃ xb, datas adopted_world !! 0 = Some xb ∧ sibling_ xb = Some 1 ∧
        sibling_mutex_ xb = 1.
Proof.
  assert (Hrun : @run sample_codec quiet_user 3 channel_and_move sample_world
                 = Some adopted_world) by (by vm_compute).
  assert (H1 : datas adopted_world !! 1 = Some (mkData [] false (Some 2) (Some 0) 1))
    by (by vm_compute).
  split; [exact Hrun|]. split; [exact H1|].
  exact (proj2 (@entanglement_stays_mutual sample_codec quiet_user 3 channel_and_move
                  sample_world adopted_world 1 0 _
                  sample_world_well_formed Hrun H1 eq_refl)).
Defined.

Lemma mutex_shared_by_siblings_only_witness :
  @run sample_codec quiet_user 3 channel_and_move sample_world = Some adopted_world ∧
  datas adopted_world !! 0 = Some (mkData [] false (Some 0) (Some 1) 1) ∧
  datas adopted_world !! 1 = Some (mkData [] false (Some 2) (Some 0) 1) ∧
  sibling_ (mkData [] false (Some 0) (Some 1) 1) = Some 1 ∧
  sibling_ (mkData [] false (Some 2) (Some 0) 1) = Some 0.
Proof.
  assert (Hrun : @run sample_codec quiet_user 3 channel_and_move sample_world
                 = Some adopted_world) by (by vm_compute).
  assert (H0 : datas adopted_world !! 0 = Some (mkData [] false (Some 0) (Some 1) 1))
    by (by vm_compute).
  assert (H1 : datas adopted_world !! 1 = Some (mkData [] false (Some 2) (Some 0) 1))
    by (by vm_compute).
  split; [exact Hrun|]. split; [exact H0|]. split; [exact H1|].
  exact (@mutex_shared_by_siblings_only sample_codec quiet_user 3 channel_and_move
           sample_world adopted_world 0 1 _ _
           sample_world_well_formed Hrun H0 H1 ltac:(lia) eq_refl).
Defined.

Lemma port_and_data_name_each_other_witness :
  @run sample_codec quiet_user 3 channel_and_move sample_world = Some adopted_world ∧
  ((∃ port, ports adopted_world !! 2 = Some port ∧ data_ port = Some 1) ↔
   (∃ x, datas adopted_world !! 1 = Some x ∧ owner_ x = Some 2)).
Proof.
  assert (Hrun : @run sample_codec quiet_user 3 channel_and_move sample_world
                 = Some adopted_world) by (by vm_compute).
  split; [exact Hrun|].
  exact (proj1 (@port_and_data_name_each_other sample_codec quiet_user 3
                  channel_and_move sample_world adopted_world 2 1
                  sample_world_well_formed Hrun)).
Defined.
